(** * Session / event-bus subsystem of the Portia agents backend

    A shallow embedding of

    - [backend/app/schemas/session.py]      (records),
    - [backend/app/services/session_service.py] (the session store, the
      subscriber registry and the event bus),
    - [backend/app/services/portia_service.py]  (the execution driver),
    - [backend/app/api/sessions.py]         (the endpoints and the stream
      generator),

    followed by the properties of the specification that were checked
    against it.  Python dictionaries are [gmap]s, Python sets are [gset]s,
    [asyncio.Queue] objects live in a heap indexed by object identity. *)

From stdpp Require Import base numbers strings pretty list gmap sets.

Local Open Scope string_scope.
Local Open Scope list_scope.
Local Open Scope Z_scope.

#[local] Set Warnings "-clear-no-such-hyp".

(* ===================================================================== *)
(** * Schemas ([schemas/session.py]) *)
(* ===================================================================== *)

(** [Any] payloads (results, step outputs) are opaque; a payload is
    represented by its rendering.  [Any | None] is [option Payload]. *)
Definition Payload := string.

(** Durations ([float] seconds) are opaque measurements; only their
    presence matters below. *)
Definition float := Z.

(** [Literal["chat", "research", "docs"]] *)
Inductive QueryType := chat | research | docs.

Module SessionCreateRequest.
Record t := mk {
  query : string;
  query_type : QueryType;
  repo_name : option string
}.
End SessionCreateRequest.

Module SessionResponse.
Record t := mk {
  session_id : string;
  status : string;
  created_at : string;
  stream_url : string
}.
End SessionResponse.

Module SessionStatus.
Record t := mk {
  session_id : string;
  status : string;
  created_at : string;
  started_at : option string;
  completed_at : option string;
  result : option Payload;
  error : option string;
  execution_time : option float
}.

(** Attribute assignments [session.f = v]. *)
Definition set_status (v : string) (s : t) : t :=
  mk (session_id s) v (created_at s) (started_at s) (completed_at s)
     (result s) (error s) (execution_time s).
Definition set_started_at (v : option string) (s : t) : t :=
  mk (session_id s) (status s) (created_at s) v (completed_at s)
     (result s) (error s) (execution_time s).
Definition set_completed_at (v : option string) (s : t) : t :=
  mk (session_id s) (status s) (created_at s) (started_at s) v
     (result s) (error s) (execution_time s).
Definition set_result (v : option Payload) (s : t) : t :=
  mk (session_id s) (status s) (created_at s) (started_at s) (completed_at s)
     v (error s) (execution_time s).
Definition set_error (v : option string) (s : t) : t :=
  mk (session_id s) (status s) (created_at s) (started_at s) (completed_at s)
     (result s) v (execution_time s).
Definition set_execution_time (v : option float) (s : t) : t :=
  mk (session_id s) (status s) (created_at s) (started_at s) (completed_at s)
     (result s) (error s) v.
End SessionStatus.

Module StepEvent.
Record t := mk {
  session_id : string;
  timestamp : string;
  event_type : string;
  step_id : option string;
  step_name : option string;
  tool_id : option string;
  status : string;
  output : option Payload;
  error : option string
}.

(** [event.model_dump()]: the dictionary of the fields; the record itself
    stands for that dictionary. *)
Definition model_dump (e : t) : t := e.
End StepEvent.

(** Truthiness of a [str | None] value: [None] and the empty string are
    falsy. *)
Definition truthy (v : option string) : bool :=
  match v with
  | None => false
  | Some s => negb (String.eqb s "")
  end.

(* ===================================================================== *)
(** * [asyncio.Queue] *)
(* ===================================================================== *)

Module Queue.
Record t := mk {
  maxsize : Z;
  items : list StepEvent.t;
  is_shutdown : bool
}.

(** [asyncio.Queue(maxsize=n)] *)
Definition new (n : Z) : t := mk n [] false.

Definition qsize (q : t) : Z := Z.of_nat (length (items q)).

(** [full()]: a queue with [maxsize <= 0] is never full. *)
Definition full (q : t) : bool :=
  if maxsize q <=? 0 then false else maxsize q <=? qsize q.

Inductive put_result :=
| PutOk (q' : t)
| RaiseQueueFull
| RaiseOther.

(** [put_nowait(item)] *)
Definition put_nowait (q : t) (item : StepEvent.t) : put_result :=
  if is_shutdown q then RaiseOther
  else if full q then RaiseQueueFull
  else PutOk (mk (maxsize q) (items q ++ [item]) (is_shutdown q)).
End Queue.

(** Queue objects are referred to by identity ([nat]); the heap maps the
    identity of every live queue to its contents. *)

(* ===================================================================== *)
(** * The session service ([services/session_service.py]) *)
(* ===================================================================== *)

Definition MAX_EVENTS_PER_SESSION : Z := 200.

Module SessionService.
Record t := mk {
  _sessions : gmap string SessionStatus.t;
  _session_connections : gmap string (gset nat);
  _session_events : gmap string (list StepEvent.t)
}.

(** [__init__] *)
Definition init : t := mk ∅ ∅ ∅.

(** [self._session_connections.get(session_id, set())] *)
Definition connections_of (svc : t) (session_id : string) : gset nat :=
  default ∅ (_session_connections svc !! session_id).

(** [self._session_events.get(session_id, [])] *)
Definition events_of (svc : t) (session_id : string) : list StepEvent.t :=
  default [] (_session_events svc !! session_id).

(** [create_session]: [uuid] is the value of [str(uuid.uuid4())] and [now]
    the value of [datetime.now(UTC).isoformat()] drawn by the call. *)
Definition create_session (svc : t) (_query : string) (_query_type : QueryType)
    (uuid now : string) : SessionStatus.t * t :=
  let session_id := uuid in
  let session :=
    SessionStatus.mk session_id "pending" now None None None None None in
  (session,
   mk (<[session_id := session]> (_sessions svc))
      (_session_connections svc) (_session_events svc)).

Definition get_session (svc : t) (session_id : string) : option SessionStatus.t :=
  _sessions svc !! session_id.

(** The body of [update_session_status] on the session object. *)
Definition update_fields (session : SessionStatus.t) (status : string)
    (result : option Payload) (error : option string)
    (execution_time : option float) (now : string) : SessionStatus.t :=
  let session := SessionStatus.set_status status session in
  if String.eqb status "running" && negb (truthy (SessionStatus.started_at session))
  then SessionStatus.set_started_at (Some now) session
  else if String.eqb status "completed" || String.eqb status "failed"
  then
    SessionStatus.set_execution_time execution_time
      (SessionStatus.set_error error
         (SessionStatus.set_result result
            (SessionStatus.set_completed_at (Some now) session)))
  else session.

Definition update_session_status (svc : t) (session_id status : string)
    (result : option Payload) (error : option string)
    (execution_time : option float) (now : string) : t :=
  match _sessions svc !! session_id with
  | None => svc
  | Some session =>
      mk (<[session_id :=
              update_fields session status result error execution_time now]>
            (_sessions svc))
         (_session_connections svc) (_session_events svc)
  end.

(** [self._session_connections[session_id].add(client_queue)]
    (a [defaultdict(set)]). *)
Definition add_connection (svc : t) (session_id : string) (client_queue : nat) : t :=
  mk (_sessions svc)
     (<[session_id := connections_of svc session_id ∪ {[client_queue]}]>
        (_session_connections svc))
     (_session_events svc).

Definition remove_connection (svc : t) (session_id : string) (client_queue : nat) : t :=
  let remaining := connections_of svc session_id ∖ {[client_queue]} in
  mk (_sessions svc)
     (if decide (remaining = ∅)
      then delete session_id (_session_connections svc)
      else <[session_id := remaining]> (_session_connections svc))
     (_session_events svc).

(** [events.append(event)] followed by the size check and [events.pop(0)]. *)
Definition append_event (events : list StepEvent.t) (event : StepEvent.t)
    : list StepEvent.t :=
  let events := events ++ [event] in
  if MAX_EVENTS_PER_SESSION <? Z.of_nat (length events) then tail events
  else events.

(** One iteration of the delivery loop: the accumulator is the heap and
    the [disconnected] set. *)
Definition deliver (event : StepEvent.t) (acc : gmap nat Queue.t * gset nat)
    (client_queue : nat) : gmap nat Queue.t * gset nat :=
  let '(heap, disconnected) := acc in
  match heap !! client_queue with
  | Some q =>
      match Queue.put_nowait q (StepEvent.model_dump event) with
      | Queue.PutOk q' => (<[client_queue := q']> heap, disconnected)
      | Queue.RaiseQueueFull => (heap, disconnected ∪ {[client_queue]})
      | Queue.RaiseOther => (heap, disconnected ∪ {[client_queue]})
      end
  | None => (heap, disconnected ∪ {[client_queue]})
  end.

Definition broadcast_event (svc : t) (heap : gmap nat Queue.t)
    (session_id : string) (event : StepEvent.t) : t * gmap nat Queue.t :=
  let events := append_event (events_of svc session_id) event in
  let svc := mk (_sessions svc) (_session_connections svc)
                (<[session_id := events]> (_session_events svc)) in
  let connections := connections_of svc session_id in
  let '(heap, disconnected) :=
    foldl (deliver event) (heap, ∅) (elements connections) in
  (foldl (λ svc client_queue, remove_connection svc session_id client_queue)
         svc (elements disconnected),
   heap).

(** [events[-limit:]] *)
Definition last_slice {A} (limit : Z) (l : list A) : list A :=
  let start := - limit in
  if start <? 0
  then drop (Z.to_nat (Z.max 0 (Z.of_nat (length l) + start))) l
  else drop (Z.to_nat start) l.

Definition get_session_events (svc : t) (session_id : string) (limit : Z)
    : list StepEvent.t :=
  let events := events_of svc session_id in
  match events with
  | [] => []
  | _ => last_slice limit events
  end.

Definition get_active_connections_count (svc : t) (session_id : string) : Z :=
  Z.of_nat (size (connections_of svc session_id)).

Definition cleanup_session (svc : t) (session_id : string) : t :=
  if decide (connections_of svc session_id = ∅)
  then mk (delete session_id (_sessions svc))
          (delete session_id (_session_connections svc))
          (delete session_id (_session_events svc))
  else svc.
End SessionService.

(* ===================================================================== *)
(** * What the backend obtains from outside *)
(* ===================================================================== *)

(** The behaviour of one call [portia_instance.run(query, tools)] of the
    execution engine: the steps it reports through the
    [after_step_execution] hook (each as the dictionaries [step.model_dump()]
    and [output.model_dump()]), how the call ends, and the measured
    duration. *)
Module Run.
Inductive finish :=
| Returns (final_output : option Payload)
| Raises (message : string).

Record t := mk {
  notifications : list (gmap string (option string) * Payload);
  finish_with : finish;
  elapsed : float
}.
End Run.

(** Values that come from libraries, the configuration and the clock:
    - [uuid4 n]: the [n]-th identifier drawn from [uuid.uuid4()];
    - [utcnow n]: [datetime.now(UTC).isoformat()] at the [n]-th reading;
    - [tool_map]: [config.tool_map], whose tool ids are computed from the
      Portia registries;
    - [available_tool_ids]: the keys of [_get_available_tools_map()];
    - [invalid_tools_str]: [str(e)] of an [app.exceptions.InvalidToolsError];
    - [portia_run]: the execution engine. *)
Record Env := {
  uuid4 : nat → string;
  utcnow : nat → string;
  tool_map : QueryType → list string;
  available_tool_ids : list string;
  invalid_tools_str : list string → list string → string;
  portia_run : string → list string → Run.t
}.

(** ** Prompt templates ([config.py]); [T q] is [T.format(query=q)]. *)

Definition CHAT_PLAN_TEMPLATE (query : string) : string :=
  ("
You are a helpful AI assistant.

- Answer the user query clearly and concisely.
- Keep responses brief.
- Do not include unnecessary details unless asked.
- If you do not know the answer, say so honestly.
- Do not include summary

User query: " +:+ query +:+ "
")%string.

Definition RESEARCH_PLAN_TEMPLATE (query : string) : string :=
  ("
You are a research assistant AI. Provide well-structured markdown responses.
Break user query into smaller queries
Use tools to Search, Crawl, extract, Map and use llm inference to answer queries.

FORMATTING RULES:
- Use ## for main sections, ### for subsections
- Use consistent bullet points (-) or numbered lists (1. 2. 3.)
- Add blank lines between sections
- Bold important terms with **text**
- Format links as [text](url)
- DO NOT wrap response in ```markdown code blocks
- Return raw markdown content only

STRUCTURE:
1. Brief overview
2. Clear sections with proper headers
3. Bullet points or numbered lists
4. References section if needed

User query: " +:+ query +:+ "
")%string.

Definition DOC_AGENT_PLAN_TEMPLATE (query : string) (repo : option string) : string :=
  ("
You are DocsAgent. Your task is to answer the user query properly for the repository '"
   +:+ default "None" repo +:+ "'

User Query: " +:+ query +:+ "

Use 'doc_mcp_make_query' tool to retrieve relevant documents with hybrid query
Last step should always be LLMTool which analyze content and form final answer.

Just 2 tools retrieve document then formulate answer and respond in proper format
")%string.

(* ===================================================================== *)
(** * Process state and the effect monad *)
(* ===================================================================== *)

Inductive Detail :=
| DetailText (message : string)
| DetailInvalidTools (error message : string)
    (invalid_tools available_tools : list string).

Inductive exn :=
| InvalidToolsError (invalid_tools available_tools : list string)
| HTTPException (status_code : Z) (detail : Detail)
| Exception (message : string).

(** A background task created with [asyncio.create_task]. *)
Inductive Task :=
| ExecuteSession (session_id query : string) (query_type : QueryType)
    (repo_name : option string).

Module PortiaServiceState.
(** A [Portia] instance is identified by the tools it was built with. *)
Record t := mk {
  _tools : gset string;
  _portia_instance : option (gset string)
}.
Definition init : t := mk ∅ None.
End PortiaServiceState.

Module World.
Record t := mk {
  session_service : SessionService.t;
  heap : gmap nat Queue.t;
  _current_session_id : option string;
  portia_service : PortiaServiceState.t;
  tasks : list Task;
  clock_reads : nat;
  uuid_draws : nat
}.

Definition init : t :=
  mk SessionService.init ∅ None PortiaServiceState.init [] 0%nat 0%nat.

Definition set_session_service (v : SessionService.t) (w : t) : t :=
  mk v (heap w) (_current_session_id w) (portia_service w) (tasks w)
     (clock_reads w) (uuid_draws w).
Definition set_heap (v : gmap nat Queue.t) (w : t) : t :=
  mk (session_service w) v (_current_session_id w) (portia_service w) (tasks w)
     (clock_reads w) (uuid_draws w).
Definition set_current (v : option string) (w : t) : t :=
  mk (session_service w) (heap w) v (portia_service w) (tasks w)
     (clock_reads w) (uuid_draws w).
Definition set_portia_service (v : PortiaServiceState.t) (w : t) : t :=
  mk (session_service w) (heap w) (_current_session_id w) v (tasks w)
     (clock_reads w) (uuid_draws w).
Definition set_tasks (v : list Task) (w : t) : t :=
  mk (session_service w) (heap w) (_current_session_id w) (portia_service w) v
     (clock_reads w) (uuid_draws w).
Definition set_clock_reads (v : nat) (w : t) : t :=
  mk (session_service w) (heap w) (_current_session_id w) (portia_service w)
     (tasks w) v (uuid_draws w).
Definition set_uuid_draws (v : nat) (w : t) : t :=
  mk (session_service w) (heap w) (_current_session_id w) (portia_service w)
     (tasks w) (clock_reads w) v.
End World.

(** Computations read and write the process state and either return or
    raise; the state written before a [raise] is kept. *)
Inductive outcome (A : Type) :=
| Return (a : A)
| Raise (e : exn).
Arguments Return {A} a.
Arguments Raise {A} e.

Definition M (A : Type) : Type := World.t → outcome A * World.t.

#[global] Instance M_ret : MRet M := λ A a w, (Return a, w).
#[global] Instance M_bind : MBind M := λ A B f m w,
  match m w with
  | (Return a, w') => f a w'
  | (Raise e, w') => (Raise e, w')
  end.

Definition raise {A} (e : exn) : M A := λ w, (Raise e, w).
Definition state {A} (f : World.t → A * World.t) : M A := λ w,
  let '(a, w') := f w in (Return a, w').
Definition gets {A} (f : World.t → A) : M A := λ w, (Return (f w), w).
Definition modify (f : World.t → World.t) : M unit := λ w, (Return tt, f w).

(** [try: body except e: handler e] *)
Definition try_except {A} (body : M A) (handler : exn → M A) : M A := λ w,
  match body w with
  | (Return a, w') => (Return a, w')
  | (Raise e, w') => handler e w'
  end.

(** [try: body finally: final] *)
Definition try_finally {A} (body : M A) (final : M unit) : M A := λ w,
  match body w with
  | (r, w') =>
      match final w' with
      | (Return _, w'') => (r, w'')
      | (Raise e, w'') => (Raise e, w'')
      end
  end.

(** [for x in xs: body x] *)
Fixpoint for_each {A} (xs : list A) (body : A → M unit) : M unit :=
  match xs with
  | [] => mret tt
  | x :: xs => body x;; for_each xs body
  end.

Section WithEnv.
Context (env : Env).

(** [datetime.now(UTC).isoformat()] *)
Definition now_isoformat : M string := λ w,
  (Return (utcnow env (World.clock_reads w)),
   World.set_clock_reads (S (World.clock_reads w)) w).

(** [str(uuid.uuid4())] *)
Definition new_uuid : M string := λ w,
  (Return (uuid4 env (World.uuid_draws w)),
   World.set_uuid_draws (S (World.uuid_draws w)) w).

(** [str(e)] *)
Definition str (e : exn) : string :=
  match e with
  | InvalidToolsError invalid available => invalid_tools_str env invalid available
  | HTTPException _ (DetailText m) => m
  | HTTPException _ (DetailInvalidTools _ m _ _) => m
  | Exception m => m
  end.

(** ** The session service as seen by its callers *)

Definition svc_create_session (query : string) (query_type : QueryType)
    : M SessionStatus.t :=
  uuid ← new_uuid;
  now ← now_isoformat;
  state (λ w,
    let '(session, svc) :=
      SessionService.create_session (World.session_service w) query query_type
        uuid now in
    (session, World.set_session_service svc w)).

Definition svc_get_session (session_id : string) : M (option SessionStatus.t) :=
  gets (λ w, SessionService.get_session (World.session_service w) session_id).

(** The call happens at the instant [now]; [update_session_status] reads
    the clock only in the branches that stamp a field. *)
Definition svc_update_session_status (session_id status : string)
    (result : option Payload) (error : option string)
    (execution_time : option float) : M unit :=
  now ← now_isoformat;
  modify (λ w,
    World.set_session_service
      (SessionService.update_session_status (World.session_service w)
         session_id status result error execution_time now) w).

Definition svc_broadcast_event (session_id : string) (event : StepEvent.t)
    : M unit :=
  modify (λ w,
    let '(svc, heap) :=
      SessionService.broadcast_event (World.session_service w) (World.heap w)
        session_id event in
    World.set_heap heap (World.set_session_service svc w)).

Definition svc_add_connection (session_id : string) (client_queue : nat) : M unit :=
  modify (λ w,
    World.set_session_service
      (SessionService.add_connection (World.session_service w)
         session_id client_queue) w).

Definition svc_remove_connection (session_id : string) (client_queue : nat)
    : M unit :=
  modify (λ w,
    World.set_session_service
      (SessionService.remove_connection (World.session_service w)
         session_id client_queue) w).

Definition svc_get_session_events (session_id : string) (limit : Z)
    : M (list StepEvent.t) :=
  gets (λ w,
    SessionService.get_session_events (World.session_service w) session_id limit).

Definition svc_cleanup_session (session_id : string) : M unit :=
  modify (λ w,
    World.set_session_service
      (SessionService.cleanup_session (World.session_service w) session_id) w).
End WithEnv.

(* ===================================================================== *)
(** * The execution driver ([services/portia_service.py]) *)
(* ===================================================================== *)

(** The dictionary returned by [run_query]. *)
Inductive QueryResult :=
| QuerySuccess (result : option Payload) (execution_time : float)
| QueryFailure (error : string) (execution_time : float).

(** [d.get(k)] and [d.get(k, dflt)] on a dictionary of [str | None]. *)
Definition dict_get (d : gmap string (option string)) (k : string) : option string :=
  default None (d !! k).
Definition dict_get_default (d : gmap string (option string)) (k : string)
    (dflt : option string) : option string :=
  default dflt (d !! k).

Module PortiaService.
Section WithEnv.
Context (env : Env).

Definition set_current_session_id (session_id : string) : M unit :=
  modify (World.set_current (Some session_id)).

Definition get_current_session_id : M (option string) :=
  gets World._current_session_id.

(** The [after_step_execution] hook. *)
Definition stream_step (step_dict : gmap string (option string))
    (output_dict : Payload) : M unit :=
  session_id ← get_current_session_id;
  if negb (truthy session_id) then mret tt
  else
    let session_id := default "" session_id in
    ts ← now_isoformat env;
    let start_event :=
      StepEvent.mk session_id ts "step_update"
        (dict_get step_dict "id")
        (dict_get_default step_dict "task" (Some "Unknown Step"))
        (dict_get step_dict "tool_id")
        "running" None None in
    svc_broadcast_event session_id start_event;;
    ts ← now_isoformat env;
    let completion_event :=
      StepEvent.mk session_id ts "step_completed"
        (dict_get step_dict "id")
        (dict_get_default step_dict "task" (Some "Unknown Step"))
        (dict_get step_dict "tool_id")
        "completed" (Some output_dict) None in
    svc_broadcast_event session_id completion_event.

Definition _get_portia_instance (tools : gset string) : M (gset string) :=
  ps ← gets World.portia_service;
  match PortiaServiceState._portia_instance ps with
  | Some instance =>
      if decide (tools = PortiaServiceState._tools ps) then mret instance
      else
        if decide (tools ⊆ list_to_set (available_tool_ids env))
        then
          modify (World.set_portia_service
                    (PortiaServiceState.mk tools (Some tools)));;
          mret tools
        else raise (InvalidToolsError (elements tools) (available_tool_ids env))
  | None =>
      if decide (tools ⊆ list_to_set (available_tool_ids env))
      then
        modify (World.set_portia_service
                  (PortiaServiceState.mk tools (Some tools)));;
        mret tools
      else raise (InvalidToolsError (elements tools) (available_tool_ids env))
  end.

(** [run_query]: the awaited engine call reports its steps through
    [stream_step] and then returns or raises.  [Run.elapsed] stands for the
    duration computed from [time.time()] on either branch (rounded to two
    decimals on success, unrounded on failure). *)
Definition run_query (query : string) (tools : list string) : M QueryResult :=
  _ ← _get_portia_instance (list_to_set tools);
  let run := portia_run env query tools in
  try_except
    (for_each (Run.notifications run) (λ n, stream_step n.1 n.2);;
     match Run.finish_with run with
     | Run.Returns final_output =>
         mret (QuerySuccess final_output (Run.elapsed run))
     | Run.Raises message => raise (Exception message)
     end)
    (λ e, mret (QueryFailure (str env e) (Run.elapsed run))).

Definition run_query_with_session (session_id query : string)
    (query_type : QueryType) (repo_name : option string) : M QueryResult :=
  ts ← now_isoformat env;
  let user_message_event :=
    StepEvent.mk session_id ts "user_message" None (Some "User") None
      "completed" (Some query) None in
  svc_broadcast_event session_id user_message_event;;
  svc_update_session_status env session_id "running" None None None;;
  ts ← now_isoformat env;
  let start_event :=
    StepEvent.mk session_id ts "session_started" None None None
      "running" None None in
  svc_broadcast_event session_id start_event;;
  set_current_session_id session_id;;
  let tools := tool_map env query_type in
  let modified_query :=
    match query_type with
    | docs => DOC_AGENT_PLAN_TEMPLATE query repo_name
    | chat => CHAT_PLAN_TEMPLATE query
    | research => RESEARCH_PLAN_TEMPLATE query
    end in
  try_finally
    (result ← run_query modified_query tools;
     match result with
     | QuerySuccess r execution_time =>
         svc_update_session_status env session_id "completed"
           r None (Some execution_time);;
         ts ← now_isoformat env;
         let completion_event :=
           StepEvent.mk session_id ts "session_completed" None None None
             "completed" r None in
         svc_broadcast_event session_id completion_event
     | QueryFailure err execution_time =>
         svc_update_session_status env session_id "failed"
           None (Some err) (Some execution_time);;
         ts ← now_isoformat env;
         let error_event :=
           StepEvent.mk session_id ts "session_failed" None None None
             "failed" None (Some err) in
         svc_broadcast_event session_id error_event
     end;;
     mret result)
    (set_current_session_id "").
End WithEnv.
End PortiaService.

(* ===================================================================== *)
(** * The endpoints ([api/sessions.py]) *)
(* ===================================================================== *)

(** A message yielded by the stream generator. *)
Inductive SSE :=
| SseConnected (session_id message timestamp : string)
| SseStep (event : string) (data : StepEvent.t) (is_historical : bool)
| SseHeartbeat (session_id timestamp : string).

(** The point at which [event_generator] is suspended. *)
Inductive generator :=
| Created
| AtConnected (client_queue : nat)
| AtHistorical (client_queue : nat) (remaining : list StepEvent.t)
| AtLive (client_queue : nat)
| Finished.

Module Api.
Section WithEnv.
Context (env : Env).

(** [asyncio.create_task(coro)]: the task is queued, nothing of it runs
    before the caller returns. *)
Definition create_task (t : Task) : M unit :=
  modify (λ w, World.set_tasks (World.tasks w ++ [t]) w).

Definition _execute_session (session_id query : string)
    (query_type : QueryType) (repo_name : option string) : M unit :=
  try_except
    (_ ← PortiaService.run_query_with_session env session_id query query_type
           repo_name;
     mret tt)
    (λ e,
      svc_update_session_status env session_id "failed" None (Some (str env e))
        None).

Definition stream_url (session_id : string) : string :=
  "/sessions/" +:+ session_id +:+ "/stream".

Definition create_session (request : SessionCreateRequest.t)
    : M SessionResponse.t :=
  try_except
    (session ← svc_create_session env (SessionCreateRequest.query request)
                 (SessionCreateRequest.query_type request);
     create_task
       (ExecuteSession (SessionStatus.session_id session)
          (SessionCreateRequest.query request)
          (SessionCreateRequest.query_type request)
          (SessionCreateRequest.repo_name request));;
     mret (SessionResponse.mk (SessionStatus.session_id session)
             (SessionStatus.status session) (SessionStatus.created_at session)
             (stream_url (SessionStatus.session_id session))))
    (λ e,
      match e with
      | InvalidToolsError invalid_tools available_tools =>
          raise (HTTPException 400
                   (DetailInvalidTools "Invalid tools requested" (str env e)
                      invalid_tools available_tools))
      | _ =>
          raise (HTTPException 500
                   (DetailText ("Failed to create session: " +:+ str env e)))
      end).

Definition add_message_to_session (session_id : string)
    (request : SessionCreateRequest.t) : M SessionResponse.t :=
  session ← svc_get_session session_id;
  match session with
  | None =>
      raise (HTTPException 404
               (DetailText ("Session " +:+ session_id +:+ " not found")))
  | Some session =>
      if String.eqb (SessionStatus.status session) "running"
      then raise (HTTPException 409
                    (DetailText ("Session " +:+ session_id +:+ " is still running")))
      else
        try_except
          (svc_update_session_status env session_id "pending" None None None;;
           create_task
             (ExecuteSession session_id (SessionCreateRequest.query request)
                (SessionCreateRequest.query_type request)
                (SessionCreateRequest.repo_name request));;
           mret (SessionResponse.mk (SessionStatus.session_id session)
                   "pending" (SessionStatus.created_at session)
                   (stream_url (SessionStatus.session_id session))))
          (λ e,
            raise (HTTPException 500
                     (DetailText ("Failed to add message to session: "
                                  +:+ str env e))))
  end.

Definition get_session_status (session_id : string) : M SessionStatus.t :=
  session ← svc_get_session session_id;
  match session with
  | None =>
      raise (HTTPException 404
               (DetailText ("Session " +:+ session_id +:+ " not found")))
  | Some session => mret session
  end.

Definition get_session_events (session_id : string) (limit : Z)
    : M (string * list StepEvent.t * Z) :=
  session ← svc_get_session session_id;
  match session with
  | None =>
      raise (HTTPException 404
               (DetailText ("Session " +:+ session_id +:+ " not found")))
  | Some _ =>
      events ← svc_get_session_events session_id limit;
      mret (session_id, events, Z.of_nat (length events))
  end.

Definition delete_session (session_id : string) : M string :=
  session ← svc_get_session session_id;
  match session with
  | None =>
      raise (HTTPException 404
               (DetailText ("Session " +:+ session_id +:+ " not found")))
  | Some _ =>
      svc_cleanup_session session_id;;
      mret ("Session " +:+ session_id +:+ " deleted successfully")
  end.

(** The event loop picks the oldest queued task and runs it. *)
Definition run_next_task : M unit :=
  ts ← gets World.tasks;
  match ts with
  | [] => mret tt
  | ExecuteSession session_id query query_type repo_name :: rest =>
      modify (World.set_tasks rest);;
      _execute_session session_id query query_type repo_name
  end.

(** ** [stream_session_events.event_generator]

    [anext] resumes the generator until its next [yield]; the result is
    the yielded message ([None] when the generator returns) and the new
    suspension point.  [disconnected] is the answer of
    [request.is_disconnected()] should the generator ask.  A resumption of
    the live loop with an empty queue is the expiry of the 30 second
    [wait_for]: an event that arrives during the wait is a broadcast that
    happens before the resumption. *)

Definition finish_stream (session_id : string) (client_queue : nat)
    : M (option SSE * generator) :=
  svc_remove_connection session_id client_queue;;
  mret (None, Finished).

Definition live_loop (session_id : string) (client_queue : nat)
    (disconnected : bool) : M (option SSE * generator) :=
  if disconnected then finish_stream session_id client_queue
  else
    h ← gets World.heap;
    match h !! client_queue with
    | Some q =>
        match Queue.items q with
        | event_data :: rest =>
            modify (World.set_heap
                      (<[client_queue :=
                           Queue.mk (Queue.maxsize q) rest (Queue.is_shutdown q)]> h));;
            mret (Some (SseStep (StepEvent.event_type event_data) event_data false),
                  AtLive client_queue)
        | [] =>
            ts ← now_isoformat env;
            mret (Some (SseHeartbeat session_id ts), AtLive client_queue)
        end
    | None => finish_stream session_id client_queue
    end.

Definition replay_loop (session_id : string) (client_queue : nat)
    (remaining : list StepEvent.t) (disconnected : bool)
    : M (option SSE * generator) :=
  match remaining with
  | event :: rest =>
      mret (Some (SseStep (StepEvent.event_type event) event true),
            AtHistorical client_queue rest)
  | [] => live_loop session_id client_queue disconnected
  end.

Definition anext (session_id : string) (disconnected : bool) (g : generator)
    : M (option SSE * generator) :=
  match g with
  | Created =>
      h ← gets World.heap;
      let client_queue := fresh (dom h) in
      modify (World.set_heap (<[client_queue := Queue.new 100]> h));;
      svc_add_connection session_id client_queue;;
      ts ← now_isoformat env;
      mret (Some (SseConnected session_id "Connected to session stream" ts),
            AtConnected client_queue)
  | AtConnected client_queue =>
      recent_events ← svc_get_session_events session_id 20;
      replay_loop session_id client_queue recent_events disconnected
  | AtHistorical client_queue remaining =>
      replay_loop session_id client_queue remaining disconnected
  | AtLive client_queue => live_loop session_id client_queue disconnected
  | Finished => mret (None, Finished)
  end.

Definition stream_session_events (session_id : string) : M generator :=
  session ← svc_get_session session_id;
  match session with
  | None =>
      raise (HTTPException 404
               (DetailText ("Session " +:+ session_id +:+ " not found")))
  | Some _ => mret Created
  end.
End WithEnv.
End Api.

(* ===================================================================== *)
(** * Sequences of calls *)
(* ===================================================================== *)

(** One call [update_session_status(session_id, status, result, error,
    execution_time)], made when the clock reads [now]. *)
Module UpdateCall.
Record t := mk {
  session_id : string;
  status : string;
  result : option Payload;
  error : option string;
  execution_time : option float;
  now : string
}.
End UpdateCall.

Definition apply_update (svc : SessionService.t) (c : UpdateCall.t)
    : SessionService.t :=
  SessionService.update_session_status svc
    (UpdateCall.session_id c) (UpdateCall.status c) (UpdateCall.result c)
    (UpdateCall.error c) (UpdateCall.execution_time c) (UpdateCall.now c).

Definition apply_updates (svc : SessionService.t) (calls : list UpdateCall.t)
    : SessionService.t :=
  foldl apply_update svc calls.

(** The [started_at] field of a stored session. *)
Definition started_at_of (svc : SessionService.t) (session_id : string)
    : option (option string) :=
  SessionStatus.started_at <$> SessionService._sessions svc !! session_id.

(** A sequence of [broadcast_event(session_id, event)] calls. *)
Definition broadcast_all (st : SessionService.t * gmap nat Queue.t)
    (calls : list (string * StepEvent.t)) : SessionService.t * gmap nat Queue.t :=
  foldl (λ st c, SessionService.broadcast_event st.1 st.2 c.1 c.2) st calls.

(** Whether [put_nowait] on the queue object [q] would succeed. *)
Definition can_receive (heap : gmap nat Queue.t) (q : nat) : bool :=
  match heap !! q with
  | Some qu => negb (Queue.is_shutdown qu) && negb (Queue.full qu)
  | None => false
  end.

(** The queue object after a successful [put_nowait]. *)
Definition enqueued (qu : Queue.t) (event : StepEvent.t) : Queue.t :=
  Queue.mk (Queue.maxsize qu) (Queue.items qu ++ [event]) (Queue.is_shutdown qu).

Definition sessions_of (w : World.t) : gmap string SessionStatus.t :=
  SessionService._sessions (World.session_service w).

(** An event with the given type, for examples. *)
Definition sample_event (session_id event_type : string) : StepEvent.t :=
  StepEvent.mk session_id "2025-01-01T00:00:00+00:00" event_type None None None
    "completed" None None.

(** [n] distinguishable events [e0 ... e(n-1)] (the step id is the index). *)
Definition numbered_events (session_id : string) (n : nat) : list StepEvent.t :=
  (λ i : nat,
     StepEvent.mk session_id "2025-01-01T00:00:00+00:00" "step_update"
       (Some (pretty i)) None None "running" None None) <$> seq 0 n.

(** A session that completed with result ["4"]. *)
Definition completed_session : SessionStatus.t :=
  SessionStatus.mk "s1" "completed" "2025-01-01T00:00:00+00:00"
    (Some "2025-01-01T00:00:01+00:00") (Some "2025-01-01T00:00:05+00:00")
    (Some "4") None (Some 4).

Definition pending_session : SessionStatus.t :=
  SessionStatus.mk "s1" "pending" "2025-01-01T00:00:00+00:00"
    None None None None None.

Definition service_with (s : SessionStatus.t) : SessionService.t :=
  SessionService.mk {[ SessionStatus.session_id s := s ]} ∅ ∅.

(** The reading of the revive property that clears the terminal fields. *)
Definition revive_clears_terminal_fields (svc : SessionService.t)
    (session_id now : string) : Prop :=
  ∀ s, SessionService._sessions svc !! session_id = Some s →
    SessionStatus.status s = "completed" ∨ SessionStatus.status s = "failed" →
    ∃ s',
      SessionService._sessions
        (SessionService.update_session_status svc session_id "pending"
           None None None now) !! session_id = Some s' ∧
      SessionStatus.result s' = None ∧ SessionStatus.error s' = None ∧
      SessionStatus.completed_at s' = None ∧
      SessionStatus.execution_time s' = None ∧
      SessionStatus.session_id s' = SessionStatus.session_id s ∧
      SessionStatus.created_at s' = SessionStatus.created_at s.

(** Exactly one of [result] and [error] is populated. *)
Definition exactly_one_populated (s : SessionStatus.t) : Prop :=
  (is_Some (SessionStatus.result s) ∧ SessionStatus.error s = None) ∨
  (SessionStatus.result s = None ∧ is_Some (SessionStatus.error s)).

Definition is_terminal (s : SessionStatus.t) : Prop :=
  SessionStatus.status s = "completed" ∨ SessionStatus.status s = "failed".

(** ** A stream consumer running next to the producer *)

(** One step of an interleaving: a [broadcast_event] call made by some
    producer, or the consumer of the stream asking the generator for its
    next message. *)
Inductive action :=
| Broadcast (session_id : string) (event : StepEvent.t)
| Next (disconnected : bool).

Section WithEnv.
Context (env : Env).

(** The messages a stream of [session_id] yields along a schedule. *)
Fixpoint run_stream (session_id : string) (g : generator)
    (schedule : list action) (w : World.t) : list SSE * generator * World.t :=
  match schedule with
  | [] => ([], g, w)
  | Broadcast sid event :: rest =>
      run_stream session_id g rest (svc_broadcast_event sid event w).2
  | Next disconnected :: rest =>
      match Api.anext env session_id disconnected g w with
      | (Return (Some m, g'), w') =>
          let '(ms, g'', w'') := run_stream session_id g' rest w' in
          (m :: ms, g'', w'')
      | (Return (None, g'), w') => run_stream session_id g' rest w'
      | (Raise _, w') => ([], g, w')
      end
  end.
End WithEnv.

Definition after_broadcasts (w : World.t) (calls : list (string * StepEvent.t))
    : World.t :=
  foldl (λ w c, (svc_broadcast_event c.1 c.2 w).2) w calls.

Definition broadcast_actions (calls : list (string * StepEvent.t)) : list action :=
  (λ c, Broadcast c.1 c.2) <$> calls.

(** The events broadcast to [session_id], in order. *)
Definition events_for (session_id : string) (calls : list (string * StepEvent.t))
    : list StepEvent.t :=
  snd <$> filter (λ c, c.1 = session_id) calls.

Definition broadcasts_to (session_id : string) (schedule : list action)
    : list StepEvent.t :=
  omap (λ a, match a with
             | Broadcast sid e => if decide (sid = session_id) then Some e else None
             | Next _ => None
             end) schedule.

(** The number of messages the consumer asks for. *)
Fixpoint nexts (schedule : list action) : nat :=
  match schedule with
  | [] => 0%nat
  | Next _ :: rest => S (nexts rest)
  | Broadcast _ _ :: rest => nexts rest
  end.

(** A replayed event, as the generator yields it. *)
Definition historical (e : StepEvent.t) : SSE :=
  SseStep (StepEvent.event_type e) e true.

(** The event carried by a message of the live loop. *)
Definition live_event (m : SSE) : option StepEvent.t :=
  match m with
  | SseStep _ e false => Some e
  | _ => None
  end.

(** A message of the live loop: an event tagged non-historical, or a
    heartbeat. *)
Definition is_live (session_id : string) (m : SSE) : Prop :=
  match m with
  | SseStep ty e false => ty = StepEvent.event_type e
  | SseHeartbeat sid _ => sid = session_id
  | _ => False
  end.

(** Every registered subscriber is a live queue object. *)
Definition registered_queues_live (w : World.t) : Prop :=
  ∀ sid q,
    q ∈ SessionService.connections_of (World.session_service w) sid →
    is_Some (World.heap w !! q).

(** The subscriber [q] of [session_id] has so far been handed [delivered]
    and holds in its queue what follows of [sent], the events broadcast to
    the session since [q] was registered; nothing is missing as long as [q]
    is registered. *)
Definition stream_inv (session_id : string) (q : nat)
    (delivered sent : list StepEvent.t) (w : World.t) : Prop :=
  (∃ qu, World.heap w !! q = Some qu ∧
         (delivered ++ Queue.items qu) `prefix_of` sent ∧
         (q ∈ SessionService.connections_of (World.session_service w) session_id →
          delivered ++ Queue.items qu = sent)) ∧
  (∀ sid', sid' ≠ session_id →
     q ∉ SessionService.connections_of (World.session_service w) sid').

(** ** Sample environments *)

Definition sample_uuid (n : nat) : string := "session-" +:+ pretty n.
Definition sample_clock (n : nat) : string :=
  "2025-01-01T00:00:00." +:+ pretty n +:+ "+00:00".

(** The engine returns without a final output and reports no step. *)
Definition env_no_final_output : Env := {|
  uuid4 := sample_uuid;
  utcnow := sample_clock;
  tool_map := λ _, ["llm_tool"];
  available_tool_ids := ["llm_tool"; "search_tool"];
  invalid_tools_str := λ _ _, "Invalid tools requested";
  portia_run := λ _ _, Run.mk [] (Run.Returns None) 1
|}.

(** The chat tool selection names [weather_tool], which the registries do
    not provide. *)
Definition env_unsupported_tool : Env := {|
  uuid4 := sample_uuid;
  utcnow := sample_clock;
  tool_map := λ _, ["llm_tool"; "weather_tool"];
  available_tool_ids := ["llm_tool"; "search_tool"];
  invalid_tools_str := λ _ _, "Invalid tools requested";
  portia_run := λ _ _, Run.mk [] (Run.Returns (Some "4")) 1
|}.

Definition chat_request : SessionCreateRequest.t :=
  SessionCreateRequest.mk "2+2?" chat None.

(** ** Sample states *)

(** A bounded queue that holds as many events as it can. *)
Definition full_queue : Queue.t :=
  Queue.mk 1 [sample_event "s1" "user_message"] false.

(** Session ["s1"] with two subscribers: queue 0 is full, queue 1 is the
    empty queue of a new stream. *)
Definition two_subscribers : SessionService.t :=
  SessionService.mk {[ "s1" := pending_session ]}
    {[ "s1" := {[ 0%nat; 1%nat ]} ]} ∅.

Definition two_queues : gmap nat Queue.t :=
  {[ 0%nat := full_queue; 1%nat := Queue.new 100 ]}.

(** Session ["s1"] with [n] stored events and no subscriber. *)
Definition world_with_log (n : nat) : World.t :=
  World.mk
    (SessionService.mk {[ "s1" := pending_session ]} ∅
       {[ "s1" := numbered_events "s1" n ]})
    ∅ None PortiaServiceState.init [] 0%nat 0%nat.

Definition status_call (status now : string) : UpdateCall.t :=
  UpdateCall.mk "s1" status None None None now.

(** A consumer that asks for 21 messages, with one broadcast before the
    last request. *)
Definition sample_schedule : list action :=
  replicate 20 (Next false)
  ++ [Broadcast "s1" (sample_event "s1" "session_started"); Next false].

(** ** Histories of the session service *)

(** One call of a method of the service that changes its state. *)
Inductive svc_call :=
| CallCreate (query : string) (query_type : QueryType) (uuid now : string)
| CallUpdate (c : UpdateCall.t)
| CallAdd (session_id : string) (client_queue : nat)
| CallRemove (session_id : string) (client_queue : nat)
| CallBroadcast (session_id : string) (event : StepEvent.t)
| CallCleanup (session_id : string).

Definition apply_call (st : SessionService.t * gmap nat Queue.t) (c : svc_call)
    : SessionService.t * gmap nat Queue.t :=
  match c with
  | CallCreate query query_type uuid now =>
      ((SessionService.create_session st.1 query query_type uuid now).2, st.2)
  | CallUpdate c => (apply_update st.1 c, st.2)
  | CallAdd session_id q => (SessionService.add_connection st.1 session_id q, st.2)
  | CallRemove session_id q =>
      (SessionService.remove_connection st.1 session_id q, st.2)
  | CallBroadcast session_id event =>
      SessionService.broadcast_event st.1 st.2 session_id event
  | CallCleanup session_id => (SessionService.cleanup_session st.1 session_id, st.2)
  end.

Definition apply_calls (st : SessionService.t * gmap nat Queue.t)
    (calls : list svc_call) : SessionService.t * gmap nat Queue.t :=
  foldl apply_call st calls.

(** Every session is stored under its own identifier. *)
Definition keys_match (svc : SessionService.t) : Prop :=
  ∀ k s, SessionService._sessions svc !! k = Some s → SessionStatus.session_id s = k.

(** The registry holds no empty subscriber set. *)
Definition no_empty_subscriber_set (svc : SessionService.t) : Prop :=
  ∀ sid S, SessionService._session_connections svc !! sid = Some S → S ≠ ∅.

(** The events appended to the log of [session_id] between two states. *)
Definition appends (session_id : string) (w w' : World.t)
    (evs : list StepEvent.t) : Prop :=
  SessionService.events_of (World.session_service w') session_id
  = foldl SessionService.append_event
      (SessionService.events_of (World.session_service w) session_id) evs.

(** The two events [stream_step] broadcasts for one step. *)
Definition step_pair (session_id ts1 ts2 : string)
    (step_dict : gmap string (option string)) (output_dict : Payload)
    : list StepEvent.t :=
  [ StepEvent.mk session_id ts1 "step_update"
      (dict_get step_dict "id")
      (dict_get_default step_dict "task" (Some "Unknown Step"))
      (dict_get step_dict "tool_id") "running" None None;
    StepEvent.mk session_id ts2 "step_completed"
      (dict_get step_dict "id")
      (dict_get_default step_dict "task" (Some "Unknown Step"))
      (dict_get step_dict "tool_id") "completed" (Some output_dict) None ].

(** The event types of [n] reported steps. *)
Fixpoint step_event_types (n : nat) : list string :=
  match n with
  | O => []
  | S n => "step_update" :: "step_completed" :: step_event_types n
  end.

(** The prompt [run_query_with_session] builds from the query. *)
Definition modified_query (query_type : QueryType) (query : string)
    (repo_name : option string) : string :=
  match query_type with
  | docs => DOC_AGENT_PLAN_TEMPLATE query repo_name
  | chat => CHAT_PLAN_TEMPLATE query
  | research => RESEARCH_PLAN_TEMPLATE query
  end.

(** A short history: a session is created, gets a subscriber, runs and
    is cleaned up after the subscriber has left. *)
Definition sample_calls : list svc_call :=
  [ CallCreate "2+2?" chat "s1" "2025-01-01T00:00:00+00:00";
    CallAdd "s1" 0%nat;
    CallUpdate (status_call "running" "2025-01-01T00:00:01+00:00");
    CallBroadcast "s1" (sample_event "s1" "session_started");
    CallUpdate (status_call "completed" "2025-01-01T00:00:05+00:00");
    CallRemove "s1" 0%nat;
    CallCleanup "s1" ].

(** ** The stream as its consumer sees it *)

(** The queue of a subscriber and whether the subscriber is still
    registered.  A broadcast to the session reaches a registered subscriber
    unless 100 events already wait in its queue; the subscriber is then
    dropped and no later broadcast reaches it. *)
Definition offer (view : list StepEvent.t * bool) (event : StepEvent.t)
    : list StepEvent.t * bool :=
  match view with
  | (pending, true) =>
      if bool_decide (length pending < 100)%nat then (pending ++ [event], true)
      else (pending, false)
  | (pending, false) => (pending, false)
  end.

(** The messages of a stream of [session_id] after the [connected] message,
    told without the registry and the heap: [remaining] is the part of the
    replay not yet yielded, [view] the subscriber's queue and registration,
    [clock] the number of clock readings made so far.  A request is
    answered with the next replayed event while there is one, then with
    the oldest waiting event, and with a heartbeat when none waits; a
    disconnected peer ends the stream at the first request after the
    replay. *)
Fixpoint stream_messages (env : Env) (session_id : string)
    (remaining : list StepEvent.t) (view : list StepEvent.t * bool)
    (clock : nat) (schedule : list action) : list SSE :=
  match schedule with
  | [] => []
  | Broadcast sid event :: rest =>
      stream_messages env session_id remaining
        (if decide (sid = session_id) then offer view event else view) clock rest
  | Next disconnected :: rest =>
      match remaining with
      | event :: remaining =>
          historical event
          :: stream_messages env session_id remaining view clock rest
      | [] =>
          if disconnected then []
          else
            match view.1 with
            | event :: pending =>
                SseStep (StepEvent.event_type event) event false
                :: stream_messages env session_id [] (pending, view.2) clock rest
            | [] =>
                SseHeartbeat session_id (utcnow env clock)
                :: stream_messages env session_id [] view (S clock) rest
            end
      end
  end.

(** The state of the process shows the subscriber [q] of [session_id] as
    [view] and [clock] describe it. *)
Definition stream_view (session_id : string) (q : nat)
    (view : list StepEvent.t * bool) (clock : nat) (w : World.t) : Prop :=
  World.heap w !! q = Some (Queue.mk 100 view.1 false) ∧
  (q ∈ SessionService.connections_of (World.session_service w) session_id
   ↔ view.2 = true) ∧
  (∀ sid', sid' ≠ session_id →
     q ∉ SessionService.connections_of (World.session_service w) sid') ∧
  World.clock_reads w = clock.

(** The reading of the replay property that takes the 25 events as those
    stored when the stream is opened: after the [connected] message come
    the last 20 of them, tagged historical, and then only events tagged
    non-historical. *)
Definition replays_log_at_open (env : Env) (session_id : string)
    (w : World.t) (schedule : list action) : Prop :=
  ∃ ts live,
    (run_stream env session_id Created schedule w).1.1
    = SseConnected session_id "Connected to session stream" ts
      :: (historical
            <$> drop 5 (SessionService.events_of (World.session_service w)
                          session_id))
      ++ live ∧
    Forall (λ m, ∃ e, m = SseStep (StepEvent.event_type e) e false) live.

(** A stream is opened on a log of 25 events; one event is broadcast
    before the consumer asks for the second message, and the consumer then
    asks for 21 messages. *)
Definition gap_schedule : list action :=
  Next false :: Broadcast "s1" (sample_event "s1" "session_started")
  :: replicate 21 (Next false).

(** What follows the first replayed message of a stream: the consumer
    asks for 24 more messages, and a producer broadcasts to the session,
    and to another one, during the replay and once more after it. *)
Definition busy_schedule : list action :=
  replicate 10 (Next false)
  ++ [Broadcast "s1" (sample_event "s1" "session_started");
      Broadcast "s2" (sample_event "s2" "session_started")]
  ++ replicate 11 (Next false)
  ++ [Next false; Broadcast "s1" (sample_event "s1" "session_completed");
      Next false; Next false].

(** ** Identifiers of sessions *)

(** Every stored identifier is one of those drawn so far from [uuid4]. *)
Definition ids_drawn (env : Env) (w : World.t) : Prop :=
  ∀ sid, is_Some (sessions_of w !! sid) →
    ∃ n, (n < World.uuid_draws w)%nat ∧ uuid4 env n = sid.

(** A computation that leaves [ids_drawn] in place. *)
Definition keeps_ids_drawn (env : Env) {A} (m : M A) : Prop :=
  ∀ w, ids_drawn env w → ids_drawn env (m w).2.

(** One operation of the process: a request handled by an endpoint, the
    event loop running the oldest queued task in one piece, the consumer of
    a stream resuming its generator, or a single step of a task that is
    suspended in between (the event loop taking a task from its queue, a
    call of the session service, a write of the session context, a reading
    of the clock, the validation of the tools, a step notification). *)
Inductive operation :=
| OpCreateSession (request : SessionCreateRequest.t)
| OpAddMessage (session_id : string) (request : SessionCreateRequest.t)
| OpGetStatus (session_id : string)
| OpGetEvents (session_id : string) (limit : Z)
| OpDeleteSession (session_id : string)
| OpOpenStream (session_id : string)
| OpStreamNext (session_id : string) (disconnected : bool) (g : generator)
| OpRunNextTask
| OpTakeTask
| OpServiceCreate (query : string) (query_type : QueryType)
| OpServiceUpdate (session_id status : string) (result : option Payload)
    (error : option string) (execution_time : option float)
| OpServiceBroadcast (session_id : string) (event : StepEvent.t)
| OpServiceAddConnection (session_id : string) (client_queue : nat)
| OpServiceRemoveConnection (session_id : string) (client_queue : nat)
| OpServiceCleanup (session_id : string)
| OpSetContext (session_id : string)
| OpReadClock
| OpGetPortiaInstance (tools : gset string)
| OpStepNotification (step_dict : gmap string (option string))
    (output_dict : Payload).

Definition perform (env : Env) (w : World.t) (o : operation) : World.t :=
  match o with
  | OpCreateSession request => (Api.create_session env request w).2
  | OpAddMessage session_id request =>
      (Api.add_message_to_session env session_id request w).2
  | OpGetStatus session_id => (Api.get_session_status session_id w).2
  | OpGetEvents session_id limit => (Api.get_session_events session_id limit w).2
  | OpDeleteSession session_id => (Api.delete_session session_id w).2
  | OpOpenStream session_id => (Api.stream_session_events session_id w).2
  | OpStreamNext session_id disconnected g =>
      (Api.anext env session_id disconnected g w).2
  | OpRunNextTask => (Api.run_next_task env w).2
  | OpTakeTask => World.set_tasks (tail (World.tasks w)) w
  | OpServiceCreate query query_type =>
      (svc_create_session env query query_type w).2
  | OpServiceUpdate session_id status result error execution_time =>
      (svc_update_session_status env session_id status result error
         execution_time w).2
  | OpServiceBroadcast session_id event =>
      (svc_broadcast_event session_id event w).2
  | OpServiceAddConnection session_id client_queue =>
      (svc_add_connection session_id client_queue w).2
  | OpServiceRemoveConnection session_id client_queue =>
      (svc_remove_connection session_id client_queue w).2
  | OpServiceCleanup session_id => (svc_cleanup_session session_id w).2
  | OpSetContext session_id =>
      (PortiaService.set_current_session_id session_id w).2
  | OpReadClock => (now_isoformat env w).2
  | OpGetPortiaInstance tools =>
      (PortiaService._get_portia_instance env tools w).2
  | OpStepNotification step_dict output_dict =>
      (PortiaService.stream_step env step_dict output_dict w).2
  end.

(** The state of a process that started empty and performed [ops]. *)
Definition reached (env : Env) (ops : list operation) : World.t :=
  foldl (perform env) World.init ops.

(** The reading of the creation property that takes the identifier of the
    returned session as new to the store. *)
Definition returns_fresh_identifier (env : Env) (w : World.t)
    (query : string) (query_type : QueryType) : Prop :=
  ∀ session w',
    svc_create_session env query query_type w = (Return session, w') →
    sessions_of w !! SessionStatus.session_id session = None.

(** [uuid4] returns at its second draw the identifier of the first. *)
Definition env_repeating_uuid : Env := {|
  uuid4 := λ n, sample_uuid (Nat.pred n);
  utcnow := sample_clock;
  tool_map := λ _, ["llm_tool"];
  available_tool_ids := ["llm_tool"; "search_tool"];
  invalid_tools_str := λ _ _, "Invalid tools requested";
  portia_run := λ _ _, Run.mk [] (Run.Returns (Some "4")) 1
|}.

(** ** The execution driver next to the other tasks of the process

    [run_query] is suspended at [await loop.run_in_executor(...)] until
    the engine call ends.  In the meantime the engine reports its steps
    from a worker thread and the event loop runs the other tasks of the
    process.  [others i] is what these tasks do to the process state
    before the [i]-th step notification (counted from 0) and, for [i] the
    number of notifications, before the driver is resumed.  Before and
    after the suspension the driver runs without interruption.
    [stream_step] reads the session context once, when it starts, so the
    two events of a step go to the same session. *)
Fixpoint notify_among (env : Env) (others : nat → World.t → World.t) (i : nat)
    (notifications : list (gmap string (option string) * Payload)) : M unit :=
  match notifications with
  | [] => modify (others i)
  | n :: notifications =>
      modify (others i);;
      PortiaService.stream_step env n.1 n.2;;
      notify_among env others (S i) notifications
  end.

Definition run_query_among (env : Env) (others : nat → World.t → World.t)
    (query : string) (tools : list string) : M QueryResult :=
  _ ← PortiaService._get_portia_instance env (list_to_set tools);
  let run := portia_run env query tools in
  try_except
    (notify_among env others 0 (Run.notifications run);;
     match Run.finish_with run with
     | Run.Returns final_output =>
         mret (QuerySuccess final_output (Run.elapsed run))
     | Run.Raises message => raise (Exception message)
     end)
    (λ e, mret (QueryFailure (str env e) (Run.elapsed run))).

Definition run_query_with_session_among (env : Env)
    (others : nat → World.t → World.t) (session_id query : string)
    (query_type : QueryType) (repo_name : option string) : M QueryResult :=
  ts ← now_isoformat env;
  let user_message_event :=
    StepEvent.mk session_id ts "user_message" None (Some "User") None
      "completed" (Some query) None in
  svc_broadcast_event session_id user_message_event;;
  svc_update_session_status env session_id "running" None None None;;
  ts ← now_isoformat env;
  let start_event :=
    StepEvent.mk session_id ts "session_started" None None None
      "running" None None in
  svc_broadcast_event session_id start_event;;
  PortiaService.set_current_session_id session_id;;
  let tools := tool_map env query_type in
  try_finally
    (result ← run_query_among env others
                (modified_query query_type query repo_name) tools;
     match result with
     | QuerySuccess r execution_time =>
         svc_update_session_status env session_id "completed"
           r None (Some execution_time);;
         ts ← now_isoformat env;
         let completion_event :=
           StepEvent.mk session_id ts "session_completed" None None None
             "completed" r None in
         svc_broadcast_event session_id completion_event
     | QueryFailure err execution_time =>
         svc_update_session_status env session_id "failed"
           None (Some err) (Some execution_time);;
         ts ← now_isoformat env;
         let error_event :=
           StepEvent.mk session_id ts "session_failed" None None None
             "failed" None (Some err) in
         svc_broadcast_event session_id error_event
     end;;
     mret result)
    (PortiaService.set_current_session_id "").

(** What the other tasks do leaves the session context and the log of
    [session_id] as they were. *)
Definition leaves_alone (session_id : string) (f : World.t → World.t) : Prop :=
  ∀ w,
    World._current_session_id (f w) = World._current_session_id w ∧
    SessionService.events_of (World.session_service (f w)) session_id
    = SessionService.events_of (World.session_service w) session_id.

(** No other task runs. *)
Definition nobody_else : nat → World.t → World.t := λ _ w, w.


(** Meanwhile a producer broadcasts to session ["s2"] and a client creates
    a session. *)
Definition other_sessions_busy : nat → World.t → World.t :=
  λ i w,
    (svc_create_session env_no_final_output "hello" chat
       (svc_broadcast_event "s2" (sample_event "s2" "user_message") w).2).2.

(** The engine reports one step and returns ["4"]. *)
Definition env_one_step : Env := {|
  uuid4 := sample_uuid;
  utcnow := sample_clock;
  tool_map := λ _, ["llm_tool"];
  available_tool_ids := ["llm_tool"; "search_tool"];
  invalid_tools_str := λ _ _, "Invalid tools requested";
  portia_run := λ _ _,
    Run.mk [({[ "id" := Some "step-1"; "task" := Some "Add the numbers" ]}, "4")]
      (Run.Returns (Some "4")) 1
|}.

(** Sessions ["s1"] and ["s2"], both pending, without events or
    subscribers. *)
Definition two_sessions : World.t :=
  World.mk
    (SessionService.mk
       {[ "s1" := pending_session;
          "s2" := SessionStatus.mk "s2" "pending" "2025-01-01T00:00:00+00:00"
                    None None None None None ]} ∅ ∅)
    ∅ None PortiaServiceState.init [] 0%nat 0%nat.

(** The [404] raised for an unknown session. *)
Definition not_found (session_id : string) : exn :=
  HTTPException 404 (DetailText ("Session " +:+ session_id +:+ " not found")).

(* ===================================================================== *)
(** * Properties of the session store *)
(* ===================================================================== *)

Section session_store.
Implicit Types (svc : SessionService.t) (s : SessionStatus.t).

Lemma update_fields_pending s r e t now :
  SessionService.update_fields s "pending" r e t now
  = SessionStatus.set_status "pending" s.
Proof. reflexivity. Qed.

Lemma update_fields_session_id s st r e t now :
  SessionStatus.session_id (SessionService.update_fields s st r e t now)
  = SessionStatus.session_id s.
Proof.
  unfold SessionService.update_fields.
  repeat case_match; reflexivity.
Qed.

Lemma update_fields_started_at s st r e t now :
  SessionStatus.started_at (SessionService.update_fields s st r e t now)
  = if String.eqb st "running" && negb (truthy (SessionStatus.started_at s))
    then Some now else SessionStatus.started_at s.
Proof.
  unfold SessionService.update_fields. simpl.
  repeat case_match; reflexivity.
Qed.

Lemma update_lookup svc sid st r e t now sid' :
  SessionService._sessions
    (SessionService.update_session_status svc sid st r e t now) !! sid'
  = if decide (sid = sid')
    then (λ s, SessionService.update_fields s st r e t now)
           <$> SessionService._sessions svc !! sid'
    else SessionService._sessions svc !! sid'.
Proof.
  unfold SessionService.update_session_status.
  destruct (SessionService._sessions svc !! sid) as [s|] eqn:Hs; simpl.
  - case_decide as Hd.
    + subst. rewrite lookup_insert_eq, Hs. reflexivity.
    + rewrite lookup_insert_ne by done. reflexivity.
  - case_decide as Hd; [subst; rewrite Hs|]; reflexivity.
Qed.
End session_store.

Section session_store_claims.
Implicit Types (svc : SessionService.t) (s : SessionStatus.t).

Lemma started_at_of_update svc c sid :
  started_at_of (apply_update svc c) sid
  = (λ s,
       if decide (UpdateCall.session_id c = sid)
       then if String.eqb (UpdateCall.status c) "running"
               && negb (truthy (SessionStatus.started_at s))
            then Some (UpdateCall.now c)
            else SessionStatus.started_at s
       else SessionStatus.started_at s)
    <$> SessionService._sessions svc !! sid.
Proof.
  unfold started_at_of, apply_update. rewrite update_lookup.
  destruct (SessionService._sessions svc !! sid) as [s|]; simpl;
    case_decide; simpl; try reflexivity.
  by rewrite update_fields_started_at.
Qed.

Lemma started_at_of_updates_stable calls svc sid v :
  started_at_of svc sid = Some v → truthy v = true →
  started_at_of (apply_updates svc calls) sid = Some v.
Proof.
  revert svc. induction calls as [|c calls IH]; intros svc Hv Ht; [done|].
  simpl. apply IH; [|done].
  rewrite started_at_of_update. unfold started_at_of in Hv.
  destruct (SessionService._sessions svc !! sid) as [s|]; simpl in *; [|done].
  injection Hv as ->. case_decide; [|done].
  by rewrite Ht, andb_false_r.
Qed.

Lemma truthy_Some_nonempty (t : string) : t ≠ "" → truthy (Some t) = true.
Proof.
  intros Hne. simpl. destruct (String.eqb_spec t ""); [done|reflexivity].
Qed.

(** C2, as amended: reviving a session, that is updating its status to
    [pending], rewrites the status field and nothing else.  The terminal
    fields [result], [error], [completed_at] and [execution_time] keep the
    values of the finished run, and [session_id], [created_at] and
    [started_at] are unchanged as well. *)
Theorem revive_changes_only_status svc sid now s :
  SessionService._sessions svc !! sid = Some s →
  ∃ s',
    SessionService._sessions
      (SessionService.update_session_status svc sid "pending" None None None now)
      !! sid = Some s' ∧
    SessionStatus.status s' = "pending" ∧
    SessionStatus.result s' = SessionStatus.result s ∧
    SessionStatus.error s' = SessionStatus.error s ∧
    SessionStatus.completed_at s' = SessionStatus.completed_at s ∧
    SessionStatus.execution_time s' = SessionStatus.execution_time s ∧
    SessionStatus.started_at s' = SessionStatus.started_at s ∧
    SessionStatus.session_id s' = SessionStatus.session_id s ∧
    SessionStatus.created_at s' = SessionStatus.created_at s.
Proof.
  intros Hs. exists (SessionStatus.set_status "pending" s).
  rewrite update_lookup, decide_True, Hs by done.
  simpl. rewrite update_fields_pending. repeat split.
Qed.

(** C5: [cleanup_session] leaves the whole service unchanged while a
    subscriber is registered for the session; with an empty subscriber set
    it removes the session entry, the event log and the subscriber-set
    entry of that session, and touches no other session. *)
Theorem cleanup_session_iff_no_subscriber svc sid :
  (∀ q, q ∈ SessionService.connections_of svc sid →
     SessionService.cleanup_session svc sid = svc) ∧
  (SessionService.connections_of svc sid = ∅ →
     let svc' := SessionService.cleanup_session svc sid in
     SessionService._sessions svc' !! sid = None ∧
     SessionService._session_events svc' !! sid = None ∧
     SessionService._session_connections svc' !! sid = None ∧
     ∀ sid', sid' ≠ sid →
       SessionService._sessions svc' !! sid' = SessionService._sessions svc !! sid' ∧
       SessionService._session_events svc' !! sid'
         = SessionService._session_events svc !! sid' ∧
       SessionService._session_connections svc' !! sid'
         = SessionService._session_connections svc !! sid').
Proof.
  unfold SessionService.cleanup_session. split.
  - intros q Hq. rewrite decide_False; [done|]. set_solver.
  - intros Hempty. rewrite decide_True by done. simpl.
    rewrite !lookup_delete_eq. repeat split; try done.
    all: by rewrite lookup_delete_ne.
Qed.

(** C7: along any sequence of [update_session_status] calls, a call
    changes [started_at] only if its status argument is [running] and the
    field was not set before, in which case the field receives the clock
    reading of that call; once written the field keeps that value through
    every later call, whatever its status argument, so it is written at
    most once.  A set field is never modified. *)
Theorem started_at_written_at_most_once svc sid pre c post :
  UpdateCall.now c ≠ "" →
  let before := apply_updates svc pre in
  let after := apply_update before c in
  let final := apply_updates after post in
  (started_at_of after sid ≠ started_at_of before sid →
     UpdateCall.session_id c = sid ∧
     UpdateCall.status c = "running" ∧
     (∃ s, SessionService._sessions before !! sid = Some s ∧
           truthy (SessionStatus.started_at s) = false) ∧
     started_at_of after sid = Some (Some (UpdateCall.now c)) ∧
     started_at_of final sid = Some (Some (UpdateCall.now c))) ∧
  (∀ s, SessionService._sessions before !! sid = Some s →
     truthy (SessionStatus.started_at s) = true →
     started_at_of after sid = Some (SessionStatus.started_at s) ∧
     started_at_of final sid = Some (SessionStatus.started_at s)) ∧
  (∀ s, SessionService._sessions before !! sid = Some s →
     SessionStatus.started_at s = None →
     UpdateCall.session_id c = sid → UpdateCall.status c = "running" →
     started_at_of after sid = Some (Some (UpdateCall.now c))).
Proof.
  intros Hnow before after final.
  assert (∀ s, SessionService._sessions before !! sid = Some s →
            started_at_of after sid
            = Some (if decide (UpdateCall.session_id c = sid)
                    then if String.eqb (UpdateCall.status c) "running"
                            && negb (truthy (SessionStatus.started_at s))
                         then Some (UpdateCall.now c)
                         else SessionStatus.started_at s
                    else SessionStatus.started_at s)) as Hstep.
  { intros s Hs. unfold after. by rewrite started_at_of_update, Hs. }
  split; [|split].
  - intros Hchg.
    destruct (SessionService._sessions before !! sid) as [s|] eqn:Hs.
    2:{ exfalso. apply Hchg. unfold after.
        rewrite started_at_of_update. unfold started_at_of. by rewrite Hs. }
    specialize (Hstep s eq_refl).
    assert (started_at_of before sid = Some (SessionStatus.started_at s)) as Hb.
    { unfold started_at_of. by rewrite Hs. }
    rewrite Hstep, Hb in Hchg.
    case_decide as Hsid; [|done].
    destruct (String.eqb_spec (UpdateCall.status c) "running") as [Hrun|];
      simpl in *; [|done].
    destruct (truthy (SessionStatus.started_at s)) eqn:Ht; simpl in *; [done|].
    repeat split; try done.
    + by exists s.
    + unfold final. apply started_at_of_updates_stable; [done|].
      by apply truthy_Some_nonempty.
  - intros s Hs Ht.
    assert (started_at_of after sid = Some (SessionStatus.started_at s)) as Ha.
    { rewrite (Hstep s Hs). case_decide; [|done].
      by rewrite Ht, andb_false_r. }
    split; [done|]. unfold final. by apply started_at_of_updates_stable.
  - intros s Hs Hnone Hsid Hrun. rewrite (Hstep s Hs).
    rewrite decide_True by done. rewrite Hrun, Hnone. reflexivity.
Qed.
End session_store_claims.

(* ===================================================================== *)
(** * Properties of the event log *)
(* ===================================================================== *)

Section event_log.
Implicit Types (svc : SessionService.t) (heap : gmap nat Queue.t).

Lemma remove_all_fields svc sid (l : list nat) :
  let svc' :=
    foldl (λ svc q, SessionService.remove_connection svc sid q) svc l in
  SessionService._sessions svc' = SessionService._sessions svc ∧
  SessionService._session_events svc' = SessionService._session_events svc.
Proof.
  revert svc. induction l as [|q l IH]; intros svc; [done|].
  simpl. destruct (IH (SessionService.remove_connection svc sid q)) as [-> ->].
  done.
Qed.

Lemma broadcast_event_sessions svc heap sid e :
  SessionService._sessions (SessionService.broadcast_event svc heap sid e).1
  = SessionService._sessions svc.
Proof.
  unfold SessionService.broadcast_event.
  destruct (foldl _ _ _) as [heap' D]. simpl.
  by rewrite (proj1 (remove_all_fields _ _ _)).
Qed.

Lemma broadcast_event_events svc heap sid e :
  SessionService._session_events (SessionService.broadcast_event svc heap sid e).1
  = <[sid := SessionService.append_event (SessionService.events_of svc sid) e]>
      (SessionService._session_events svc).
Proof.
  unfold SessionService.broadcast_event.
  destruct (foldl _ _ _) as [heap' D]. simpl.
  by rewrite (proj2 (remove_all_fields _ _ _)).
Qed.

Lemma events_of_broadcast svc heap sid e sid' :
  SessionService.events_of (SessionService.broadcast_event svc heap sid e).1 sid'
  = if decide (sid = sid')
    then SessionService.append_event (SessionService.events_of svc sid) e
    else SessionService.events_of svc sid'.
Proof.
  unfold SessionService.events_of at 1. rewrite broadcast_event_events.
  case_decide; [subst; by rewrite lookup_insert_eq|].
  by rewrite lookup_insert_ne.
Qed.

Lemma append_event_cases (l : list StepEvent.t) e :
  (length l < 200)%nat ∧ SessionService.append_event l e = l ++ [e] ∨
  (200 ≤ length l)%nat ∧ SessionService.append_event l e = tail l ++ [e].
Proof.
  unfold SessionService.append_event, MAX_EVENTS_PER_SESSION.
  rewrite length_app. simpl.
  destruct (Z.ltb_spec 200 (Z.of_nat (length l + 1))); [right|left].
  - split; [lia|]. destruct l; [simpl in *; lia|done].
  - split; [lia|done].
Qed.

Lemma append_event_length (l : list StepEvent.t) e :
  (length l ≤ 200)%nat → (length (SessionService.append_event l e) ≤ 200)%nat.
Proof.
  intros Hl. destruct (append_event_cases l e) as [[? ->]|[? ->]];
    rewrite length_app; simpl; [lia|].
  destruct l; simpl in *; lia.
Qed.

Lemma append_events_last (evs l : list StepEvent.t) :
  (length l ≤ 200)%nat →
  foldl SessionService.append_event l evs
  = drop (length (l ++ evs) - 200) (l ++ evs).
Proof.
  revert l. induction evs as [|e evs IH]; intros l Hl.
  - rewrite app_nil_r. simpl. replace (length l - 200)%nat with 0%nat by lia.
    done.
  - simpl. rewrite IH by by apply append_event_length.
    destruct (append_event_cases l e) as [[Hlt ->]|[Hge ->]].
    + by rewrite <- app_assoc.
    + destruct l as [|x l]; [simpl in *; lia|]. simpl in *.
      rewrite <- app_assoc. simpl.
      rewrite !length_app. simpl.
      replace (length l + S (length evs) - 199)%nat
        with (S (length l + S (length evs) - 200))%nat by lia.
      done.
Qed.

Lemma events_of_broadcast_all calls svc heap sid :
  SessionService.events_of (broadcast_all (svc, heap) calls).1 sid
  = foldl SessionService.append_event (SessionService.events_of svc sid)
      (snd <$> filter (λ c, c.1 = sid) calls).
Proof.
  revert svc heap. induction calls as [|[sid' e] calls IH]; intros svc heap; [done|].
  simpl. destruct (SessionService.broadcast_event svc heap sid' e) as [svc1 heap1] eqn:Hb.
  unfold broadcast_all in IH. rewrite IH.
  replace svc1 with (SessionService.broadcast_event svc heap sid' e).1 by by rewrite Hb.
  rewrite events_of_broadcast, filter_cons. simpl.
  destruct (decide (sid' = sid)) as [->|Hne]; simpl;
    repeat case_decide; done.
Qed.

Lemma filter_same_session sid (evs : list StepEvent.t) :
  snd <$> filter (λ c : string * StepEvent.t, c.1 = sid) (pair sid <$> evs) = evs.
Proof.
  induction evs as [|e evs IH]; [done|].
  rewrite fmap_cons, filter_cons. simpl. rewrite decide_True by done.
  rewrite fmap_cons. simpl. by rewrite IH.
Qed.

(** C3: the bound of 200 events per session is preserved by any sequence
    of [broadcast_event] calls; an append to a full log evicts the oldest
    event and keeps the others in order; and 250 events broadcast to a
    session with an empty log leave exactly the 200 most recent ones, in
    the order they were broadcast. *)
Theorem event_log_bounded_fifo svc heap sid :
  (length (SessionService.events_of svc sid) ≤ 200)%nat →
  (∀ calls,
     (length (SessionService.events_of (broadcast_all (svc, heap) calls).1 sid)
      ≤ 200)%nat) ∧
  (∀ e, length (SessionService.events_of svc sid) = 200%nat →
     SessionService.events_of (SessionService.broadcast_event svc heap sid e).1 sid
     = tail (SessionService.events_of svc sid) ++ [e]) ∧
  (∀ evs, SessionService.events_of svc sid = [] → length evs = 250%nat →
     SessionService.events_of
       (broadcast_all (svc, heap) (pair sid <$> evs)).1 sid
     = drop 50 evs).
Proof.
  intros Hbound. split; [|split].
  - intros calls. rewrite events_of_broadcast_all.
    rewrite append_events_last by done.
    rewrite length_drop. lia.
  - intros e Hfull. rewrite events_of_broadcast, decide_True by done.
    destruct (append_event_cases (SessionService.events_of svc sid) e)
      as [[? ->]|[? ->]]; [lia|done].
  - intros evs Hempty Hlen.
    rewrite events_of_broadcast_all, filter_same_session, Hempty.
    rewrite append_events_last by (simpl; lia).
    simpl. by rewrite Hlen.
Qed.
End event_log.

(* ===================================================================== *)
(** * Properties of the fan-out *)
(* ===================================================================== *)

Section fan_out.
Implicit Types (svc : SessionService.t) (heap : gmap nat Queue.t)
  (D : gset nat) (e : StepEvent.t).

Lemma can_receive_put heap q e :
  can_receive heap q = true ↔
  ∃ qu, heap !! q = Some qu ∧
        Queue.put_nowait qu (StepEvent.model_dump e) = Queue.PutOk (enqueued qu e).
Proof.
  unfold can_receive, Queue.put_nowait, enqueued, StepEvent.model_dump. split.
  - destruct (heap !! q) as [qu|]; [|done]. intros H. exists qu.
    destruct (Queue.is_shutdown qu), (Queue.full qu); done.
  - intros (qu & -> & H).
    destruct (Queue.is_shutdown qu), (Queue.full qu); done.
Qed.

Lemma deliver_spec e heap D x :
  let r := SessionService.deliver e (heap, D) x in
  (∀ q, q ≠ x → r.1 !! q = heap !! q) ∧
  (if can_receive heap x
   then (∃ qu, heap !! x = Some qu ∧ r.1 !! x = Some (enqueued qu e)) ∧ r.2 = D
   else r.1 = heap ∧ r.2 = D ∪ {[x]}).
Proof.
  unfold SessionService.deliver, can_receive, Queue.put_nowait, enqueued,
    StepEvent.model_dump.
  destruct (heap !! x) as [qu|] eqn:Hx; simpl; [|done].
  destruct (Queue.is_shutdown qu) eqn:Hsd; simpl; [done|].
  destruct (Queue.full qu); simpl; [done|].
  split; [intros q Hq; by rewrite lookup_insert_ne|].
  split; [|done]. exists qu. by rewrite lookup_insert_eq, Hsd.
Qed.

Lemma can_receive_ext heap heap' q :
  heap' !! q = heap !! q → can_receive heap' q = can_receive heap q.
Proof. unfold can_receive. by intros ->. Qed.

#[local] Arguments SessionService.deliver : simpl never.

Lemma deliver_all_spec e (l : list nat) :
  NoDup l → ∀ heap D,
  let r := foldl (SessionService.deliver e) (heap, D) l in
  (∀ q, q ∉ l → r.1 !! q = heap !! q) ∧
  (∀ q, q ∈ l → can_receive heap q = true →
     ∃ qu, heap !! q = Some qu ∧ r.1 !! q = Some (enqueued qu e)) ∧
  (∀ q, q ∈ l → can_receive heap q = false → r.1 !! q = heap !! q) ∧
  (∀ q, q ∈ r.2 ↔ q ∈ D ∨ (q ∈ l ∧ can_receive heap q = false)).
Proof.
  induction 1 as [|x l Hx Hnd IH]; intros heap D; cbv zeta; simpl.
  - repeat split; try (intros; set_solver).
  - destruct (SessionService.deliver e (heap, D) x) as [heap1 D1] eqn:Hd.
    pose proof (deliver_spec e heap D x) as [Hother Hat].
    rewrite Hd in Hother, Hat. simpl in Hother, Hat.
    pose proof (IH heap1 D1) as IH'. cbv zeta in IH'.
    destruct IH' as (IH1 & IH2 & IH3 & IH4).
    assert (∀ q, q ≠ x → can_receive heap1 q = can_receive heap q) as Hcr.
    { intros q Hq. apply can_receive_ext. by apply Hother. }
    split; [|split; [|split]].
    + intros q Hq. apply not_elem_of_cons in Hq as [Hqx Hql].
      rewrite IH1 by done. by apply Hother.
    + intros q Hq Hc. apply elem_of_cons in Hq as [->|Hq].
      * rewrite Hc in Hat. destruct Hat as [(qu & Hqu & Hqu') _].
        exists qu. split; [done|]. by rewrite IH1.
      * assert (q ≠ x) by (intros ->; done).
        destruct (IH2 q Hq) as (qu & Hqu & Hqu'); [by rewrite Hcr|].
        exists qu. split; [|done]. by rewrite <- Hother.
    + intros q Hq Hc. apply elem_of_cons in Hq as [->|Hq].
      * rewrite Hc in Hat. destruct Hat as [-> _]. by rewrite IH1.
      * assert (q ≠ x) by (intros ->; done).
        rewrite IH3; [by apply Hother|done|by rewrite Hcr].
    + intros q. rewrite IH4. rewrite elem_of_cons.
      destruct (decide (q = x)) as [->|Hqx].
      * destruct (can_receive heap x) eqn:Hc.
        -- destruct Hat as [_ ->]. naive_solver.
        -- destruct Hat as [_ ->]. set_solver.
      * rewrite (Hcr q Hqx).
        destruct (can_receive heap x) eqn:Hc.
        -- destruct Hat as [_ ->]. naive_solver.
        -- destruct Hat as [_ ->]. set_solver.
Qed.

Lemma connections_of_remove svc sid q sid' :
  SessionService.connections_of (SessionService.remove_connection svc sid q) sid'
  = if decide (sid' = sid)
    then SessionService.connections_of svc sid ∖ {[q]}
    else SessionService.connections_of svc sid'.
Proof.
  unfold SessionService.remove_connection, SessionService.connections_of at 1.
  simpl. destruct (decide (sid' = sid)) as [->|Hsid].
  - destruct (decide (_ = ∅)) as [He|He].
    + rewrite lookup_delete_eq. simpl. by rewrite He.
    + by rewrite lookup_insert_eq.
  - destruct (decide (_ = ∅)).
    + by rewrite lookup_delete_ne.
    + by rewrite lookup_insert_ne.
Qed.

Lemma connections_of_remove_all (l : list nat) svc sid sid' :
  SessionService.connections_of
    (foldl (λ svc q, SessionService.remove_connection svc sid q) svc l) sid'
  = if decide (sid' = sid)
    then SessionService.connections_of svc sid ∖ list_to_set l
    else SessionService.connections_of svc sid'.
Proof.
  revert svc. induction l as [|q l IH]; intros svc; simpl.
  - case_decide; subst; [|done].
    simpl. apply set_eq. intros q. rewrite elem_of_difference, elem_of_empty.
    tauto.
  - rewrite IH, !connections_of_remove.
    repeat case_decide; try done. set_solver.
Qed.

(** The whole of [broadcast_event] as seen from one queue object and from
    the registry. *)
Lemma broadcast_event_spec svc heap sid e :
  let r := SessionService.broadcast_event svc heap sid e in
  let C := SessionService.connections_of svc sid in
  (∀ q, q ∉ C → r.2 !! q = heap !! q) ∧
  (∀ q, q ∈ C → can_receive heap q = true →
     ∃ qu, heap !! q = Some qu ∧ r.2 !! q = Some (enqueued qu e)) ∧
  (∀ q, q ∈ C → can_receive heap q = false → r.2 !! q = heap !! q) ∧
  (∀ q, q ∈ SessionService.connections_of r.1 sid ↔
        q ∈ C ∧ can_receive heap q = true) ∧
  (∀ sid', sid' ≠ sid →
     SessionService.connections_of r.1 sid'
     = SessionService.connections_of svc sid').
Proof.
  intros r C. subst r. unfold SessionService.broadcast_event.
  set (svc1 := SessionService.mk _ _ _).
  assert (SessionService.connections_of svc1 sid = C) as -> by done.
  pose proof (deliver_all_spec e (elements C) (NoDup_elements C) heap ∅)
    as (H1 & H2 & H3 & H4).
  destruct (foldl (SessionService.deliver e) (heap, ∅) (elements C))
    as [heap' D] eqn:Hf. simpl in *.
  split; [|split; [|split; [|split]]].
  - intros q Hq. apply H1. by rewrite elem_of_elements.
  - intros q Hq. apply H2. by rewrite elem_of_elements.
  - intros q Hq. apply H3. by rewrite elem_of_elements.
  - intros q. rewrite connections_of_remove_all, decide_True by done.
    assert (SessionService.connections_of svc1 sid = C) as -> by done.
    rewrite elem_of_difference, elem_of_list_to_set, elem_of_elements, H4.
    rewrite elem_of_elements.
    destruct (can_receive heap q); set_solver.
  - intros sid' Hne. by rewrite connections_of_remove_all, decide_False.
Qed.

Lemma broadcast_all_unregistered (evs : list StepEvent.t) svc heap sid q :
  q ∉ SessionService.connections_of svc sid →
  (broadcast_all (svc, heap) (pair sid <$> evs)).2 !! q = heap !! q ∧
  q ∉ SessionService.connections_of
        (broadcast_all (svc, heap) (pair sid <$> evs)).1 sid.
Proof.
  revert svc heap. induction evs as [|e evs IH]; intros svc heap Hq; [done|].
  change (broadcast_all (svc, heap) (pair sid <$> e :: evs))
    with (broadcast_all (SessionService.broadcast_event svc heap sid e)
            (pair sid <$> evs)).
  pose proof (broadcast_event_spec svc heap sid e) as (H1 & _ & _ & H4 & _).
  destruct (SessionService.broadcast_event svc heap sid e) as [svc1 heap1].
  simpl in H1, H4.
  destruct (IH svc1 heap1) as [IH1 IH2].
  { rewrite H4. tauto. }
  split; [|done]. rewrite IH1. by apply H1.
Qed.

(** C4: in one [broadcast_event] pass, a registered subscriber whose
    [put_nowait] raises ([QueueFull] for a full bounded queue, or any other
    exception) is removed from the registry and its queue is left as it
    was; the dropped event is not delivered by any later broadcast to the
    session either, since the subscriber stays unregistered.  A registered
    subscriber whose [put_nowait] succeeds stays registered and has the
    event appended to its queue, whatever happens to the others. *)
Theorem broadcast_drops_failing_subscribers svc heap sid e q qu :
  q ∈ SessionService.connections_of svc sid →
  heap !! q = Some qu →
  let r := SessionService.broadcast_event svc heap sid e in
  (Queue.put_nowait qu (StepEvent.model_dump e) ≠ Queue.PutOk (enqueued qu e) →
     (q ∉ SessionService.connections_of r.1 sid) ∧
     r.2 !! q = Some qu ∧
     (∀ later,
        (broadcast_all r (pair sid <$> later)).2 !! q = Some qu ∧
        q ∉ SessionService.connections_of
              (broadcast_all r (pair sid <$> later)).1 sid)) ∧
  (Queue.full qu = true → Queue.maxsize qu ≤ Queue.qsize qu ∧
     Queue.put_nowait qu (StepEvent.model_dump e) ≠ Queue.PutOk (enqueued qu e)) ∧
  (Queue.put_nowait qu (StepEvent.model_dump e) = Queue.PutOk (enqueued qu e) →
     q ∈ SessionService.connections_of r.1 sid ∧
     r.2 !! q = Some (enqueued qu e) ∧
     Queue.items (enqueued qu e) = Queue.items qu ++ [e]).
Proof.
  intros Hq Hqu r.
  pose proof (broadcast_event_spec svc heap sid e) as (H1 & H2 & H3 & H4 & _).
  fold r in H1, H2, H3, H4. split; [|split].
  - intros Hfail.
    assert (can_receive heap q = false) as Hc.
    { destruct (can_receive heap q) eqn:Hc; [|done].
      apply (can_receive_put heap q e) in Hc as (qu' & Hqu' & Hput).
      congruence. }
    assert (q ∉ SessionService.connections_of r.1 sid) as Hout.
    { rewrite H4, Hc. naive_solver. }
    assert (r.2 !! q = Some qu) as Hsame by (rewrite H3; done).
    split; [done|]. split; [done|]. intros later.
    destruct r as [svc1 heap1]. simpl in *.
    destruct (broadcast_all_unregistered later svc1 heap1 sid q Hout)
      as [E1 E2].
    split; [by rewrite E1 | done].
  - intros Hfull. split.
    + unfold Queue.full in Hfull.
      destruct (Queue.maxsize qu <=? 0); [done|]. lia.
    + unfold Queue.put_nowait. rewrite Hfull.
      by destruct (Queue.is_shutdown qu).
  - intros Hput.
    assert (can_receive heap q = true) as Hc.
    { apply (can_receive_put heap q e). eauto. }
    split; [rewrite H4; done|].
    destruct (H2 q Hq Hc) as (qu' & Hqu' & ->).
    split; [congruence|done].
Qed.
End fan_out.

(* ===================================================================== *)
(** * Properties of the endpoints and of the execution driver *)
(* ===================================================================== *)

Section driver.
Context (env : Env).
Implicit Types (w : World.t).

Lemma bind_unfold {A B} (m : M A) (f : A → M B) w :
  (m ≫= f) w
  = match m w with
    | (Return a, w') => f a w'
    | (Raise e, w') => (Raise e, w')
    end.
Proof. reflexivity. Qed.

Lemma svc_broadcast_event_sessions sid e w :
  ∃ w', svc_broadcast_event sid e w = (Return tt, w') ∧
        sessions_of w' = sessions_of w ∧
        World._current_session_id w' = World._current_session_id w.
Proof.
  unfold svc_broadcast_event, modify.
  pose proof (broadcast_event_sessions (World.session_service w) (World.heap w)
                sid e) as Hs.
  destruct (SessionService.broadcast_event _ _ _ _) as [svc heap].
  eexists. split; [reflexivity|]. done.
Qed.

Lemma now_isoformat_sessions w :
  ∃ w', now_isoformat env w = (Return (utcnow env (World.clock_reads w)), w') ∧
        sessions_of w' = sessions_of w ∧
        World._current_session_id w' = World._current_session_id w.
Proof. eexists. split; [reflexivity|done]. Qed.

Lemma stream_step_sessions step output w :
  ∃ w', PortiaService.stream_step env step output w = (Return tt, w') ∧
        sessions_of w' = sessions_of w.
Proof.
  unfold PortiaService.stream_step.
  rewrite bind_unfold. simpl.
  destruct (truthy (World._current_session_id w)); simpl; [|by eexists].
  rewrite bind_unfold.
  destruct (now_isoformat_sessions w) as (w1 & -> & H1 & _).
  rewrite bind_unfold.
  destruct (svc_broadcast_event_sessions
              (default "" (World._current_session_id w))
              (StepEvent.mk (default "" (World._current_session_id w))
                 (utcnow env (World.clock_reads w)) "step_update"
                 (dict_get step "id")
                 (dict_get_default step "task" (Some "Unknown Step"))
                 (dict_get step "tool_id") "running" None None) w1)
    as (w2 & -> & H2 & _).
  rewrite bind_unfold.
  destruct (now_isoformat_sessions w2) as (w3 & -> & H3 & _).
  match goal with
  | |- ∃ _, svc_broadcast_event ?sid ?e ?w = _ ∧ _ =>
      destruct (svc_broadcast_event_sessions sid e w) as (w4 & -> & H4 & _)
  end.
  exists w4. split; [done|]. congruence.
Qed.

Lemma for_each_stream_step_sessions
    (l : list (gmap string (option string) * Payload)) w :
  ∃ w', for_each l (λ n, PortiaService.stream_step env n.1 n.2) w
        = (Return tt, w') ∧
        sessions_of w' = sessions_of w.
Proof.
  revert w. induction l as [|n l IH]; intros w; [by eexists|].
  simpl. rewrite bind_unfold.
  destruct (stream_step_sessions n.1 n.2 w) as (w1 & -> & H1).
  destruct (IH w1) as (w2 & -> & H2).
  exists w2. split; [done|congruence].
Qed.

Lemma get_portia_instance_cases tools w :
  (∃ i w', PortiaService._get_portia_instance env tools w = (Return i, w') ∧
           sessions_of w' = sessions_of w) ∨
  (PortiaService._get_portia_instance env tools w
   = (Raise (InvalidToolsError (elements tools) (available_tool_ids env)), w) ∧
   ¬ tools ⊆ list_to_set (available_tool_ids env)).
Proof.
  unfold PortiaService._get_portia_instance. rewrite bind_unfold. simpl.
  destruct (PortiaServiceState._portia_instance (World.portia_service w));
    repeat case_decide; try (left; by do 2 eexists); right; done.
Qed.

Lemma run_query_cases query tools w :
  let run := portia_run env query tools in
  ∃ w', sessions_of w' = sessions_of w ∧
    ((∃ fo, PortiaService.run_query env query tools w
            = (Return (QuerySuccess fo (Run.elapsed run)), w') ∧
            Run.finish_with run = Run.Returns fo) ∨
     (∃ msg, PortiaService.run_query env query tools w
             = (Return (QueryFailure msg (Run.elapsed run)), w')) ∨
     (∃ inv av, PortiaService.run_query env query tools w
                = (Raise (InvalidToolsError inv av), w') ∧
                ¬ list_to_set tools ⊆@{gset string}
                    list_to_set (available_tool_ids env))).
Proof.
  intros run. unfold PortiaService.run_query. rewrite bind_unfold.
  destruct (get_portia_instance_cases (list_to_set tools) w)
    as [(i & w1 & -> & H1)|[-> Hbad]].
  2:{ exists w. split; [done|]. right. right. by do 2 eexists. }
  fold run. unfold try_except. rewrite bind_unfold.
  destruct (for_each_stream_step_sessions (Run.notifications run) w1)
    as (w2 & -> & H2).
  exists w2. split; [congruence|].
  destruct (Run.finish_with run) as [fo|msg] eqn:Hf; simpl.
  - left. by exists fo.
  - right. left. by eexists.
Qed.

Lemma svc_update_session_status_lookup sid st r e t w :
  ∃ w', svc_update_session_status env sid st r e t w = (Return tt, w') ∧
    (∀ sid', sessions_of w' !! sid'
       = if decide (sid = sid')
         then (λ s, SessionService.update_fields s st r e t
                      (utcnow env (World.clock_reads w)))
                <$> sessions_of w !! sid'
         else sessions_of w !! sid') ∧
    World._current_session_id w' = World._current_session_id w.
Proof.
  eexists. split; [reflexivity|]. split; [|done].
  intros sid'. unfold sessions_of. simpl. apply update_lookup.
Qed.

Ltac run_step :=
  rewrite ?bind_unfold;
  match goal with
  | |- context [now_isoformat env ?w] =>
      let H := fresh in
      destruct (now_isoformat_sessions w) as (? & H & ? & ?);
      rewrite H; clear H
  | |- context [svc_broadcast_event ?sid ?e ?w] =>
      let H := fresh in
      destruct (svc_broadcast_event_sessions sid e w) as (? & H & ? & ?);
      rewrite H; clear H
  | |- context [svc_update_session_status env ?sid ?st ?r ?e ?t ?w] =>
      let H := fresh in
      destruct (svc_update_session_status_lookup sid st r e t w)
        as (? & H & ? & ?);
      rewrite H; clear H
  end;
  cbv beta iota.

Ltac chase_sessions :=
  repeat first
    [ progress change (sessions_of (World.set_current ?c ?x)) with (sessions_of x)
    | match goal with
      | H : sessions_of _ = sessions_of _ |- _ => rewrite H
      end ].

(** What one execution attempt leaves in the store: the session went
    through the [running] update and then, unless tool validation raised,
    through the terminal update with the outcome of the engine. *)
Lemma run_query_with_session_cases sid query query_type repo_name w r w' :
  PortiaService.run_query_with_session env sid query query_type repo_name w
  = (r, w') →
  World._current_session_id w' = Some "" ∧
  ∃ now1 now2,
    (∃ fo t prompt,
        r = Return (QuerySuccess fo t) ∧
        Run.finish_with (portia_run env prompt (tool_map env query_type))
        = Run.Returns fo ∧
        sessions_of w' !! sid
        = (λ s, SessionService.update_fields
                  (SessionService.update_fields s "running" None None None now1)
                  "completed" fo None (Some t) now2)
            <$> sessions_of w !! sid) ∨
    (∃ msg t,
        r = Return (QueryFailure msg t) ∧
        sessions_of w' !! sid
        = (λ s, SessionService.update_fields
                  (SessionService.update_fields s "running" None None None now1)
                  "failed" None (Some msg) (Some t) now2)
            <$> sessions_of w !! sid) ∨
    (∃ inv av,
        r = Raise (InvalidToolsError inv av) ∧
        ¬ list_to_set (tool_map env query_type) ⊆@{gset string}
            list_to_set (available_tool_ids env) ∧
        sessions_of w' !! sid
        = (λ s, SessionService.update_fields s "running" None None None now1)
            <$> sessions_of w !! sid).
Proof.
  unfold PortiaService.run_query_with_session.
  run_step. run_step. run_step.
  match goal with
  | H : ∀ sid', sessions_of ?w1 !! sid' = _ |- _ =>
      specialize (H sid); rewrite decide_True in H by done;
      rename H into Hrun
  end.
  run_step. run_step.
  unfold PortiaService.set_current_session_id, modify.
  rewrite bind_unfold. cbv beta iota.
  unfold try_finally. rewrite bind_unfold.
  match goal with
  | |- context [PortiaService.run_query env ?p ?ts ?w] =>
      destruct (run_query_cases p ts w)
        as (w2 & Hs2 & [(fo & Hq & Hfo)|[(msg & Hq)|(inv & av & Hq & Hbad)]]);
      rewrite Hq; clear Hq; cbv beta iota
  end.
  - run_step.
    match goal with
    | H : ∀ sid', sessions_of ?w1 !! sid' = _ |- _ =>
        specialize (H sid); rewrite decide_True in H by done;
        rename H into Hend
    end.
    run_step. run_step.
    intros [= <- <-]. split; [reflexivity|].
    do 2 eexists. left.
    do 3 eexists. split; [reflexivity|]. split; [exact Hfo|].
    chase_sessions. rewrite Hend. chase_sessions. rewrite Hrun.
    chase_sessions.
    destruct (sessions_of w !! sid);
      cbn [fmap option_fmap option_map]; reflexivity.
  - run_step.
    match goal with
    | H : ∀ sid', sessions_of ?w1 !! sid' = _ |- _ =>
        specialize (H sid); rewrite decide_True in H by done;
        rename H into Hend
    end.
    run_step. run_step.
    intros [= <- <-]. split; [reflexivity|].
    do 2 eexists. right. left.
    do 2 eexists. split; [reflexivity|].
    chase_sessions. rewrite Hend. chase_sessions. rewrite Hrun.
    chase_sessions.
    destruct (sessions_of w !! sid);
      cbn [fmap option_fmap option_map]; reflexivity.
  - intros [= <- <-]. split; [reflexivity|].
    eexists. exists "". right. right.
    do 2 eexists. split; [reflexivity|]. split; [exact Hbad|].
    chase_sessions. rewrite Hrun. chase_sessions. reflexivity.
Qed.

Lemma update_fields_terminal (s : SessionStatus.t) st r e t now :
  st = "completed" ∨ st = "failed" →
  SessionService.update_fields s st r e t now
  = SessionStatus.mk (SessionStatus.session_id s) st (SessionStatus.created_at s)
      (SessionStatus.started_at s) (Some now) r e t.
Proof. intros [-> | ->]; reflexivity. Qed.

Lemma keeps_ret {A} (a : A) : keeps_ids_drawn env (mret a).
Proof. by intros w Hw. Qed.

Lemma keeps_raise {A} (e : exn) : keeps_ids_drawn env (raise (A := A) e).
Proof. by intros w Hw. Qed.

Lemma keeps_gets {A} (f : World.t → A) : keeps_ids_drawn env (gets f).
Proof. by intros w Hw. Qed.

Lemma keeps_bind {A B} (m : M A) (f : A → M B) :
  keeps_ids_drawn env m → (∀ a, keeps_ids_drawn env (f a)) →
  keeps_ids_drawn env (m ≫= f).
Proof.
  intros Hm Hf w Hw. specialize (Hm w Hw). rewrite bind_unfold.
  destruct (m w) as [[a|e] w1]; [by apply Hf|done].
Qed.

Lemma keeps_try_except {A} (body : M A) (handler : exn → M A) :
  keeps_ids_drawn env body → (∀ e, keeps_ids_drawn env (handler e)) →
  keeps_ids_drawn env (try_except body handler).
Proof.
  intros Hm Hf w Hw. specialize (Hm w Hw). unfold try_except.
  destruct (body w) as [[a|e] w1]; [done|by apply Hf].
Qed.

Lemma keeps_try_finally {A} (body : M A) (final : M unit) :
  keeps_ids_drawn env body → keeps_ids_drawn env final →
  keeps_ids_drawn env (try_finally body final).
Proof.
  intros Hm Hf w Hw. specialize (Hm w Hw). unfold try_finally.
  destruct (body w) as [r w1]. specialize (Hf w1 Hm).
  by destruct (final w1) as [[a|e] w2].
Qed.

Lemma keeps_for_each {A} (xs : list A) (body : A → M unit) :
  (∀ x, keeps_ids_drawn env (body x)) →
  keeps_ids_drawn env (for_each xs body).
Proof.
  intros Hbody. induction xs as [|x xs IH]; [apply keeps_ret|].
  simpl. apply keeps_bind; [apply Hbody|by intros _].
Qed.

(** A write that leaves the session records and the number of draws. *)
Lemma keeps_modify_frame (f : World.t → World.t) :
  (∀ w, sessions_of (f w) = sessions_of w ∧
        World.uuid_draws (f w) = World.uuid_draws w) →
  keeps_ids_drawn env (modify f).
Proof.
  intros Hf w Hw sid. simpl. destruct (Hf w) as [-> ->]. apply Hw.
Qed.

(** A write that adds no session record and does not lower the number of
    draws. *)
Lemma keeps_modify_shrink (f : World.t → World.t) :
  (∀ w sid, is_Some (sessions_of (f w) !! sid) →
            is_Some (sessions_of w !! sid)) →
  (∀ w, World.uuid_draws (f w) = World.uuid_draws w) →
  keeps_ids_drawn env (modify f).
Proof.
  intros Hf Hd w Hw sid Hsid. simpl in *. rewrite Hd. by apply Hw, Hf.
Qed.

Lemma keeps_now : keeps_ids_drawn env (now_isoformat env).
Proof. by intros w Hw. Qed.

Lemma keeps_update sid st r e t :
  keeps_ids_drawn env (svc_update_session_status env sid st r e t).
Proof.
  apply keeps_bind; [apply keeps_now|]. intros now.
  apply keeps_modify_shrink; [|done].
  intros w sid'. unfold sessions_of. simpl. rewrite update_lookup.
  case_decide; [|done]. by rewrite fmap_is_Some.
Qed.

Lemma keeps_broadcast sid e : keeps_ids_drawn env (svc_broadcast_event sid e).
Proof.
  apply keeps_modify_frame. intros w.
  pose proof (broadcast_event_sessions (World.session_service w) (World.heap w)
                sid e) as Hs.
  by destruct (SessionService.broadcast_event _ _ _ _).
Qed.

Lemma keeps_cleanup sid : keeps_ids_drawn env (svc_cleanup_session sid).
Proof.
  apply keeps_modify_shrink; [|done].
  intros w sid'. unfold sessions_of, SessionService.cleanup_session. simpl.
  case_decide; [|done]. simpl. rewrite lookup_delete_is_Some. by intros [_ ?].
Qed.

Lemma keeps_create query query_type :
  keeps_ids_drawn env (svc_create_session env query query_type).
Proof.
  intros w Hw sid. unfold sessions_of. simpl.
  rewrite lookup_insert_is_Some. intros [<-|[_ Hsid]].
  - exists (World.uuid_draws w). split; [lia|done].
  - destruct (Hw sid Hsid) as (n & Hn & <-). exists n. split; [lia|done].
Qed.

Ltac keeps_step :=
  lazymatch goal with
  | |- keeps_ids_drawn _ (mret _) => apply keeps_ret
  | |- keeps_ids_drawn _ (raise _) => apply keeps_raise
  | |- keeps_ids_drawn _ (gets _) => apply keeps_gets
  | |- keeps_ids_drawn _ (now_isoformat _) => apply keeps_now
  | |- keeps_ids_drawn _ (svc_update_session_status _ _ _ _ _ _) =>
      apply keeps_update
  | |- keeps_ids_drawn _ (svc_broadcast_event _ _) => apply keeps_broadcast
  | |- keeps_ids_drawn _ (svc_cleanup_session _) => apply keeps_cleanup
  | |- keeps_ids_drawn _ (svc_create_session _ _ _) => apply keeps_create
  | |- keeps_ids_drawn _ (modify _) =>
      apply keeps_modify_frame; intros ?; split; reflexivity
  | |- keeps_ids_drawn _ (for_each _ _) => apply keeps_for_each; intros ?
  | |- keeps_ids_drawn _ (try_except _ _) => apply keeps_try_except; [|intros ?]
  | |- keeps_ids_drawn _ (try_finally _ _) => apply keeps_try_finally
  | |- keeps_ids_drawn _ (mbind _ _) => apply keeps_bind; [|intros ?]
  | |- keeps_ids_drawn _ (match ?x with _ => _ end) => destruct x
  | |- keeps_ids_drawn _ (let _ := _ in _) => cbv zeta
  end.

Ltac keeps := repeat keeps_step.

Lemma keeps_stream_step step output :
  keeps_ids_drawn env (PortiaService.stream_step env step output).
Proof. unfold PortiaService.stream_step, PortiaService.get_current_session_id. keeps. Qed.

Lemma keeps_run_query_with_session sid query query_type repo_name :
  keeps_ids_drawn env
    (PortiaService.run_query_with_session env sid query query_type repo_name).
Proof.
  unfold PortiaService.run_query_with_session, PortiaService.run_query,
    PortiaService._get_portia_instance, PortiaService.set_current_session_id.
  keeps; apply keeps_stream_step.
Qed.

Lemma keeps_execute_session sid query query_type repo_name :
  keeps_ids_drawn env (Api._execute_session env sid query query_type repo_name).
Proof.
  unfold Api._execute_session. keeps. apply keeps_run_query_with_session.
Qed.

Lemma keeps_endpoints :
  (∀ request, keeps_ids_drawn env (Api.create_session env request)) ∧
  (∀ sid request, keeps_ids_drawn env (Api.add_message_to_session env sid request)) ∧
  (∀ sid, keeps_ids_drawn env (Api.get_session_status sid)) ∧
  (∀ sid limit, keeps_ids_drawn env (Api.get_session_events sid limit)) ∧
  (∀ sid, keeps_ids_drawn env (Api.delete_session sid)) ∧
  (∀ sid, keeps_ids_drawn env (Api.stream_session_events sid)) ∧
  (∀ sid d g, keeps_ids_drawn env (Api.anext env sid d g)) ∧
  keeps_ids_drawn env (Api.run_next_task env).
Proof.
  repeat split; intros.
  - unfold Api.create_session, Api.create_task. keeps.
  - unfold Api.add_message_to_session, Api.create_task, svc_get_session. keeps.
  - unfold Api.get_session_status, svc_get_session. keeps.
  - unfold Api.get_session_events, svc_get_session, svc_get_session_events.
    keeps.
  - unfold Api.delete_session, svc_get_session. keeps.
  - unfold Api.stream_session_events, svc_get_session. keeps.
  - unfold Api.anext, Api.replay_loop, Api.live_loop, Api.finish_stream,
      svc_get_session_events, svc_add_connection, svc_remove_connection.
    keeps.
  - unfold Api.run_next_task. keeps. apply keeps_execute_session.
Qed.

Lemma keeps_steps :
  (∀ sid q, keeps_ids_drawn env (svc_add_connection sid q)) ∧
  (∀ sid q, keeps_ids_drawn env (svc_remove_connection sid q)) ∧
  (∀ sid, keeps_ids_drawn env (PortiaService.set_current_session_id sid)) ∧
  (∀ tools, keeps_ids_drawn env (PortiaService._get_portia_instance env tools)).
Proof.
  repeat split; intros.
  - unfold svc_add_connection. keeps.
  - unfold svc_remove_connection. keeps.
  - unfold PortiaService.set_current_session_id. keeps.
  - unfold PortiaService._get_portia_instance. keeps.
Qed.

(** Every operation of the process leaves [ids_drawn] in place. *)
Lemma perform_ids_drawn o w : ids_drawn env w → ids_drawn env (perform env w o).
Proof.
  destruct keeps_endpoints as (E1 & E2 & E3 & E4 & E5 & E6 & E7 & E8).
  destruct keeps_steps as (S1 & S2 & S3 & S4).
  intros Hw. destruct o; unfold perform;
    first [ by apply E1 | by apply E2 | by apply E3 | by apply E4
          | by apply E5 | by apply E6 | by apply E7 | by apply E8
          | by apply S1 | by apply S2 | by apply S3 | by apply S4
          | by apply keeps_create | by apply keeps_update
          | by apply keeps_broadcast | by apply keeps_cleanup
          | by apply keeps_now | by apply keeps_stream_step
          | exact Hw ].
Qed.

Lemma reached_ids_drawn ops : ids_drawn env (reached env ops).
Proof.
  unfold reached.
  assert (ids_drawn env World.init) as Hinit.
  { intros sid [s Hs]. unfold sessions_of in Hs. simpl in Hs.
    by rewrite lookup_empty in Hs. }
  revert Hinit. generalize World.init.
  induction ops as [|o ops IH]; intros w Hw; [done|].
  simpl. by apply IH, perform_ids_drawn.
Qed.

(** C10, as amended.  [create_session] returns the session whose
    identifier is the string just drawn from [uuid4], with status [pending],
    [created_at] the current clock reading and every other field null, and
    stores it under that identifier, in place of whatever was stored there:
    the identifier is not compared with the store.  The sessions stored
    under other identifiers, the registry, the logs and the rest of the
    process state are untouched, and the call yields the same session and
    the same store for any other query text and query type.

    The identifier is new when [uuid4] never returns a value twice and the
    state was reached from the empty process by the operations of the
    backend: every stored identifier was then drawn earlier, so no session
    is stored under the new one and every session stored before is still
    there. *)
Theorem create_session_pending_under_drawn_id w query query_type :
  let uuid := uuid4 env (World.uuid_draws w) in
  let now := utcnow env (World.clock_reads w) in
  let session := SessionStatus.mk uuid "pending" now None None None None None in
  ∃ w',
    svc_create_session env query query_type w = (Return session, w') ∧
    sessions_of w' = <[uuid := session]> (sessions_of w) ∧
    (∀ sid, sid ≠ uuid → sessions_of w' !! sid = sessions_of w !! sid) ∧
    SessionService._session_connections (World.session_service w')
      = SessionService._session_connections (World.session_service w) ∧
    SessionService._session_events (World.session_service w')
      = SessionService._session_events (World.session_service w) ∧
    World.heap w' = World.heap w ∧
    World.tasks w' = World.tasks w ∧
    World._current_session_id w' = World._current_session_id w ∧
    World.uuid_draws w' = S (World.uuid_draws w) ∧
    (∀ query' query_type',
       svc_create_session env query' query_type' w
       = svc_create_session env query query_type w) ∧
    (Inj (=) (=) (uuid4 env) → (∃ ops, w = reached env ops) →
       sessions_of w !! uuid = None ∧
       (∀ n, (n < World.uuid_draws w)%nat → uuid4 env n ≠ uuid) ∧
       ∀ sid s, sessions_of w !! sid = Some s →
         sid ≠ uuid ∧ sessions_of w' !! sid = Some s).
Proof.
  intros uuid now session.
  eexists. split; [reflexivity|]. simpl.
  split; [reflexivity|].
  split; [intros sid Hne; unfold sessions_of; simpl; by rewrite lookup_insert_ne|].
  do 7 (split; [reflexivity|]).
  intros Hinj [ops ->].
  assert (∀ n, (n < World.uuid_draws (reached env ops))%nat → uuid4 env n ≠ uuid)
    as Hnew.
  { intros n Hn Heq. apply Hinj in Heq. lia. }
  assert (sessions_of (reached env ops) !! uuid = None) as Hfresh.
  { apply eq_None_not_Some. intros Hsome.
    destruct (reached_ids_drawn ops uuid Hsome) as (n & Hn & Heq).
    by apply (Hnew n). }
  split; [done|]. split; [done|].
  intros sid s Hs.
  assert (sid ≠ uuid) as Hne by (intros ->; congruence).
  split; [done|]. unfold sessions_of in *. simpl. by rewrite lookup_insert_ne.
Qed.
(** C9: whatever way [run_query_with_session] ends (a success result, a
    failure result, or the tool-validation exception), the session
    context is the empty string afterwards; a step notification that
    arrives then, or in any state whose context is unset or empty,
    returns at once and leaves the whole process state (event logs,
    subscriber queues, registry, sessions) as it was. *)
Theorem session_context_cleared_on_exit w sid query query_type repo_name :
  let r := PortiaService.run_query_with_session env sid query query_type
             repo_name w in
  World._current_session_id r.2 = Some "" ∧
  (∀ step output,
     PortiaService.stream_step env step output r.2 = (Return tt, r.2)) ∧
  (∀ w0 step output,
     truthy (World._current_session_id w0) = false →
     PortiaService.stream_step env step output w0 = (Return tt, w0)).
Proof.
  intros r.
  assert (∀ w0 step output,
            truthy (World._current_session_id w0) = false →
            PortiaService.stream_step env step output w0 = (Return tt, w0))
    as Hnoop.
  { intros w0 step output Hf. unfold PortiaService.stream_step.
    rewrite bind_unfold. simpl. by rewrite Hf. }
  assert (World._current_session_id r.2 = Some "") as Hctx.
  { destruct r as [o w'] eqn:Hr. subst r.
    by apply run_query_with_session_cases in Hr as [? _]. }
  split; [done|]. split; [|done].
  intros step output. apply Hnoop. by rewrite Hctx.
Qed.

(** C6, as amended: when the execution task of an existing session has
    run, the session is [completed] or [failed] and its [result] and
    [error] are never both populated.  A failed session has an error
    message and no result.  A completed session has no error and carries
    as its result the final output the engine returned, which is null when
    the engine returned none. *)
Theorem driver_terminal_fields w sid query query_type repo_name s :
  sessions_of w !! sid = Some s →
  ∃ w' s',
    Api._execute_session env sid query query_type repo_name w = (Return tt, w') ∧
    sessions_of w' !! sid = Some s' ∧
    ((SessionStatus.status s' = "completed" ∧
      SessionStatus.error s' = None ∧
      ∃ prompt,
        Run.finish_with (portia_run env prompt (tool_map env query_type))
        = Run.Returns (SessionStatus.result s')) ∨
     (SessionStatus.status s' = "failed" ∧
      SessionStatus.result s' = None ∧
      is_Some (SessionStatus.error s'))) ∧
    ¬ (is_Some (SessionStatus.result s') ∧ is_Some (SessionStatus.error s')).
Proof.
  intros Hs. unfold Api._execute_session, try_except.
  rewrite bind_unfold.
  destruct (PortiaService.run_query_with_session env sid query query_type
              repo_name w) as [r w1] eqn:Hr.
  apply run_query_with_session_cases in Hr
    as (_ & now1 & now2 &
        [(fo & t & prompt & -> & Hfo & Hl)
        |[(msg & t & -> & Hl)|(inv & av & -> & _ & Hl)]]).
  - rewrite Hs in Hl. simpl in Hl.
    rewrite update_fields_terminal in Hl by by left.
    do 2 eexists. split; [reflexivity|]. split; [exact Hl|]. simpl.
    split; [left; eauto|]. intros [_ [? [=]]].
  - rewrite Hs in Hl. simpl in Hl.
    rewrite update_fields_terminal in Hl by by right.
    do 2 eexists. split; [reflexivity|]. split; [exact Hl|]. simpl.
    split; [right; eauto|]. intros [[? [=]] _].
  - rewrite Hs in Hl. simpl in Hl.
    destruct (svc_update_session_status_lookup sid "failed" None
                (Some (str env (InvalidToolsError inv av))) None w1)
      as (w2 & -> & Hl2 & _).
    specialize (Hl2 sid). rewrite decide_True, Hl in Hl2 by done.
    simpl in Hl2. rewrite update_fields_terminal in Hl2 by by right.
    do 2 eexists. split; [reflexivity|]. split; [exact Hl2|]. simpl.
    split; [right; eauto|]. intros [[? [=]] _].
Qed.

(** [create_session] never raises: neither of its handlers is reachable,
    since tool validation only happens inside the queued task. *)
Lemma create_session_always_created request w :
  ∃ session w',
    Api.create_session env request w
    = (Return (SessionResponse.mk (SessionStatus.session_id session)
                 "pending" (SessionStatus.created_at session)
                 (Api.stream_url (SessionStatus.session_id session))), w') ∧
    SessionStatus.session_id session = uuid4 env (World.uuid_draws w) ∧
    sessions_of w' !! SessionStatus.session_id session = Some session ∧
    World.tasks w'
    = World.tasks w ++
      [ExecuteSession (SessionStatus.session_id session)
         (SessionCreateRequest.query request)
         (SessionCreateRequest.query_type request)
         (SessionCreateRequest.repo_name request)].
Proof.
  do 2 eexists. split; [reflexivity|]. simpl.
  split; [reflexivity|]. split; [apply lookup_insert_eq|reflexivity].
Qed.
End driver.

(* ===================================================================== *)
(** * Properties of the stream generator *)
(* ===================================================================== *)

Section stream.
Context (env : Env) (sid : string).
Implicit Types (w : World.t) (q : nat) (D B : list StepEvent.t).

#[local] Arguments svc_broadcast_event : simpl never.

Lemma svc_broadcast_world sid' e w :
  World.session_service (svc_broadcast_event sid' e w).2
  = (SessionService.broadcast_event (World.session_service w) (World.heap w)
       sid' e).1 ∧
  World.heap (svc_broadcast_event sid' e w).2
  = (SessionService.broadcast_event (World.session_service w) (World.heap w)
       sid' e).2.
Proof.
  unfold svc_broadcast_event, modify.
  by destruct (SessionService.broadcast_event _ _ _ _).
Qed.

Lemma stream_inv_broadcast q D B w sid' e :
  stream_inv sid q D B w →
  stream_inv sid q D (B ++ (if decide (sid' = sid) then [e] else []))
    (svc_broadcast_event sid' e w).2.
Proof.
  intros [(qu & Hqu & Hpre & Heq) Hoth].
  destruct (svc_broadcast_world sid' e w) as [Hsvc Hheap].
  pose proof (broadcast_event_spec (World.session_service w) (World.heap w)
                sid' e) as (H1 & H2 & H3 & H4 & H5).
  cbv zeta in H1, H2, H3, H4, H5.
  unfold stream_inv. rewrite Hsvc, Hheap.
  destruct (decide (sid' = sid)) as [->|Hne].
  - split; [|intros sid'' Hne; rewrite H5 by done; by apply Hoth].
    destruct (decide (q ∈ SessionService.connections_of
                            (World.session_service w) sid)) as [Hin|Hout].
    + destruct (can_receive (World.heap w) q) eqn:Hc.
      * destruct (H2 q Hin Hc) as (qu' & Hqu' & ->).
        assert (qu' = qu) as -> by congruence.
        exists (enqueued qu e). split; [done|]. simpl.
        rewrite app_assoc, (Heq Hin). done.
      * rewrite (H3 q Hin Hc). exists qu. split; [done|].
        split; [by apply prefix_app_r|].
        rewrite H4, Hc. by intros [_ ?].
    + rewrite (H1 q Hout). exists qu. split; [done|].
      split; [by apply prefix_app_r|].
      rewrite H4. by intros [? _].
  - rewrite app_nil_r. split.
    + rewrite (H1 q (Hoth sid' Hne)). exists qu. split; [done|].
      split; [done|]. by rewrite H5.
    + intros sid'' Hne''. destruct (decide (sid'' = sid')) as [->|Hne3].
      * rewrite H4. intros [Hin _]. by apply (Hoth sid').
      * rewrite H5 by done. by apply Hoth.
Qed.

Lemma events_for_cons sid' e (calls : list (string * StepEvent.t)) :
  events_for sid ((sid', e) :: calls)
  = (if decide (sid' = sid) then [e] else []) ++ events_for sid calls.
Proof.
  unfold events_for. rewrite filter_cons. simpl.
  by destruct (decide (sid' = sid)).
Qed.

Lemma stream_inv_after_broadcasts calls q D B w :
  stream_inv sid q D B w →
  stream_inv sid q D (B ++ events_for sid calls) (after_broadcasts w calls).
Proof.
  revert B w. induction calls as [|[sid' e] calls IH]; intros B w Hinv.
  - unfold events_for. simpl. by rewrite app_nil_r.
  - rewrite events_for_cons, app_assoc. simpl. apply IH.
    by apply stream_inv_broadcast.
Qed.

Lemma after_broadcasts_events calls w :
  SessionService.events_of (World.session_service (after_broadcasts w calls)) sid
  = foldl SessionService.append_event
      (SessionService.events_of (World.session_service w) sid)
      (events_for sid calls).
Proof.
  revert w. induction calls as [|[sid' e] calls IH]; intros w; [done|].
  change (after_broadcasts w ((sid', e) :: calls))
    with (after_broadcasts (svc_broadcast_event sid' e w).2 calls).
  rewrite IH, events_for_cons.
  destruct (svc_broadcast_world sid' e w) as [-> _].
  rewrite events_of_broadcast. by destruct (decide (sid' = sid)) as [->|].
Qed.

Lemma run_stream_broadcasts g calls rest w :
  run_stream env sid g (broadcast_actions calls ++ rest) w
  = run_stream env sid g rest (after_broadcasts w calls).
Proof.
  revert w. induction calls as [|[sid' e] calls IH]; intros w; [done|].
  simpl. apply IH.
Qed.

Lemma run_stream_Finished schedule w :
  (run_stream env sid Finished schedule w).1.1 = [].
Proof.
  revert w. induction schedule as [|[sid' e|d] rest IH]; intros w; [done|..].
  - simpl. apply IH.
  - simpl. apply IH.
Qed.

Lemma broadcasts_to_cons_broadcast sid' e rest :
  broadcasts_to sid (Broadcast sid' e :: rest)
  = (if decide (sid' = sid) then [e] else []) ++ broadcasts_to sid rest.
Proof. unfold broadcasts_to. simpl. by destruct (decide (sid' = sid)). Qed.

(** The live loop hands out what the queue holds, in order. *)
Lemma live_phase q schedule : ∀ w D B,
  stream_inv sid q D B w →
  Forall (is_live sid) (run_stream env sid (AtLive q) schedule w).1.1 ∧
  (D ++ omap live_event (run_stream env sid (AtLive q) schedule w).1.1)
    `prefix_of` (B ++ broadcasts_to sid schedule).
Proof.
  induction schedule as [|[sid' e|d] rest IH]; intros w D B Hinv.
  - simpl. split; [constructor|]. rewrite !app_nil_r.
    destruct Hinv as [(qu & _ & Hpre & _) _]. by eapply prefix_app_l.
  - rewrite broadcasts_to_cons_broadcast, app_assoc.
    change (run_stream env sid (AtLive q) (Broadcast sid' e :: rest) w)
      with (run_stream env sid (AtLive q) rest (svc_broadcast_event sid' e w).2).
    apply IH. by apply stream_inv_broadcast.
  - assert (D `prefix_of` B ++ broadcasts_to sid (Next d :: rest)) as HD.
    { destruct Hinv as [(qu & _ & Hpre & _) _].
      apply prefix_app_r. by eapply prefix_app_l. }
    change (broadcasts_to sid (Next d :: rest)) with (broadcasts_to sid rest)
      in *.
    simpl. unfold Api.live_loop. destruct d.
    { unfold Api.finish_stream. rewrite bind_unfold. simpl.
      rewrite run_stream_Finished. simpl. split; [constructor|].
      by rewrite app_nil_r. }
    rewrite bind_unfold. simpl.
    destruct Hinv as [(qu & Hqu & Hpre & Heq) Hoth]. rewrite Hqu.
    destruct (Queue.items qu) as [|e items'] eqn:Hitems.
    + rewrite bind_unfold. simpl.
      match goal with
      | |- context [run_stream env sid (AtLive q) rest ?w'] =>
          destruct (IH w' D B) as [IH1 IH2];
          [ split; [exists qu; by rewrite Hitems|done]
          | destruct (run_stream env sid (AtLive q) rest w') as [[ms g''] w''] ]
      end.
      simpl in *. split; [by constructor|done].
    + rewrite bind_unfold. simpl.
      match goal with
      | |- context [run_stream env sid (AtLive q) rest ?w'] =>
          destruct (IH w' (D ++ [e]) B) as [IH1 IH2];
          [ | destruct (run_stream env sid (AtLive q) rest w') as [[ms g''] w''] ]
      end.
      { split; [|done]. eexists. simpl. split; [apply lookup_insert_eq|].
        simpl. rewrite <- !app_assoc. simpl. done. }
      simpl in *. split; [by constructor|].
      by rewrite <- app_assoc in IH2.
Qed.

Lemma replay_done q d rest w :
  (run_stream env sid (AtHistorical q []) (Next d :: rest) w).1.1
  = (run_stream env sid (AtLive q) (Next d :: rest) w).1.1.
Proof.
  cbn [run_stream].
  change (Api.anext env sid d (AtHistorical q []) w)
    with (Api.live_loop env sid q d w).
  change (Api.anext env sid d (AtLive q) w)
    with (Api.live_loop env sid q d w).
  destruct (Api.live_loop env sid q d w) as [[[[m|] g']|ex] w']; reflexivity.
Qed.

(** The replay loop yields the fetched events one per request, then
    enters the live loop. *)
Lemma replay_phase q schedule : ∀ remaining w B,
  stream_inv sid q [] B w →
  ∃ live,
    (run_stream env sid (AtHistorical q remaining) schedule w).1.1
    = (historical <$> take (nexts schedule) remaining) ++ live ∧
    ((nexts schedule ≤ length remaining)%nat → live = []) ∧
    Forall (is_live sid) live ∧
    omap live_event live `prefix_of` (B ++ broadcasts_to sid schedule).
Proof.
  induction schedule as [|[sid' e|d] rest IH]; intros remaining w B Hinv.
  - exists []. simpl. repeat split; [constructor|apply prefix_nil].
  - rewrite broadcasts_to_cons_broadcast, app_assoc.
    change (run_stream env sid (AtHistorical q remaining)
              (Broadcast sid' e :: rest) w)
      with (run_stream env sid (AtHistorical q remaining) rest
              (svc_broadcast_event sid' e w).2).
    apply IH. by apply stream_inv_broadcast.
  - destruct remaining as [|e remaining].
    + rewrite replay_done.
      destruct (live_phase q (Next d :: rest) w [] B Hinv) as [Hl Hp].
      eexists. rewrite take_nil. simpl fmap. split; [reflexivity|].
      simpl nexts. simpl length. split; [lia|]. done.
    + simpl.
      destruct (IH remaining w B Hinv) as (live & Hout & Hnil & Hl & Hp).
      destruct (run_stream env sid (AtHistorical q remaining) rest w)
        as [[ms g''] w''].
      simpl in *. exists live. rewrite Hout.
      split; [done|]. split; [intros; apply Hnil; lia|done].
Qed.

Lemma stream_open d schedule w :
  let q := fresh (dom (World.heap w)) in
  (run_stream env sid Created (Next d :: schedule) w).1.1
  = SseConnected sid "Connected to session stream"
      (utcnow env (World.clock_reads w))
    :: (run_stream env sid (AtConnected q) schedule
          (World.set_clock_reads (S (World.clock_reads w))
             (World.set_session_service
                (SessionService.add_connection (World.session_service w) sid q)
                (World.set_heap (<[q := Queue.new 100]> (World.heap w)) w)))).1.1.
Proof.
  intros q. subst q. simpl.
  match goal with
  | |- context [run_stream env sid (AtConnected ?q') schedule ?w'] =>
      by destruct (run_stream env sid (AtConnected q') schedule w')
           as [[ms g''] w'']
  end.
Qed.

Lemma stream_fetch q d rest w :
  (run_stream env sid (AtConnected q) (Next d :: rest) w).1.1
  = (run_stream env sid
       (AtHistorical q
          (SessionService.get_session_events (World.session_service w) sid 20))
       (Next d :: rest) w).1.1.
Proof.
  cbn [run_stream].
  change (Api.anext env sid d (AtConnected q) w)
    with (Api.replay_loop env sid q
            (SessionService.get_session_events (World.session_service w) sid 20)
            d w).
  change (Api.anext env sid d (AtHistorical q ?l) w)
    with (Api.replay_loop env sid q l d w).
  destruct (Api.replay_loop env sid q _ d w) as [[[[m|] g']|ex] w'];
    reflexivity.
Qed.

Lemma svc_broadcast_clock sid' e w :
  World.clock_reads (svc_broadcast_event sid' e w).2 = World.clock_reads w.
Proof.
  unfold svc_broadcast_event, modify.
  by destruct (SessionService.broadcast_event _ _ _ _).
Qed.

Lemma can_receive_view heap q pending :
  heap !! q = Some (Queue.mk 100 pending false) →
  can_receive heap q = bool_decide (length pending < 100)%nat.
Proof.
  intros Hq. unfold can_receive. rewrite Hq.
  unfold Queue.full, Queue.qsize. simpl.
  case_bool_decide.
  - apply negb_true_iff, Z.leb_gt. lia.
  - apply negb_false_iff, Z.leb_le. lia.
Qed.

Lemma stream_view_broadcast q view clock w sid' e :
  stream_view sid q view clock w →
  stream_view sid q (if decide (sid' = sid) then offer view e else view) clock
    (svc_broadcast_event sid' e w).2.
Proof.
  destruct view as [pending registered].
  intros (Hqu & Hreg & Hoth & Hclock). simpl in Hqu, Hreg.
  destruct (svc_broadcast_world sid' e w) as [Hsvc Hheap].
  pose proof (broadcast_event_spec (World.session_service w) (World.heap w)
                sid' e) as (H1 & H2 & H3 & H4 & H5).
  cbv zeta in H1, H2, H3, H4, H5.
  pose proof (can_receive_view _ _ _ Hqu) as Hcan.
  unfold stream_view. rewrite Hsvc, Hheap, svc_broadcast_clock.
  destruct (decide (sid' = sid)) as [->|Hne].
  - destruct registered; simpl.
    + assert (q ∈ SessionService.connections_of (World.session_service w) sid)
        as Hin by by apply Hreg.
      case_bool_decide as Hlen; simpl.
      * destruct (H2 q Hin Hcan) as (qu' & Hqu' & ->).
        rewrite Hqu in Hqu'. injection Hqu' as <-.
        split; [done|]. split; [|split; [|done]].
        -- rewrite H4. split; [done|]. intros _. by split.
        -- intros sid'' Hne. rewrite H5 by done. by apply Hoth.
      * rewrite (H3 q Hin Hcan). split; [done|]. split; [|split; [|done]].
        -- rewrite H4, Hcan. split; [by intros [_ ?]|done].
        -- intros sid'' Hne. rewrite H5 by done. by apply Hoth.
    + assert (q ∉ SessionService.connections_of (World.session_service w) sid)
        as Hout by (intros Hin; by apply Hreg in Hin).
      rewrite (H1 q Hout). split; [done|]. split; [|split; [|done]].
      * rewrite H4. split; [by intros [? _]|done].
      * intros sid'' Hne. rewrite H5 by done. by apply Hoth.
  - rewrite (H1 q (Hoth sid' Hne)). split; [done|]. split; [|split; [|done]].
    + by rewrite H5.
    + intros sid'' Hne''. destruct (decide (sid'' = sid')) as [->|Hne3].
      * rewrite H4. intros [Hin _]. by apply (Hoth sid').
      * rewrite H5 by done. by apply Hoth.
Qed.

Lemma foldl_offer_cons sid' e (calls : list (string * StepEvent.t)) view :
  foldl offer view (events_for sid ((sid', e) :: calls))
  = foldl offer (if decide (sid' = sid) then offer view e else view)
      (events_for sid calls).
Proof. rewrite events_for_cons. by destruct (decide (sid' = sid)). Qed.

Lemma stream_view_after_broadcasts calls q view clock w :
  stream_view sid q view clock w →
  stream_view sid q (foldl offer view (events_for sid calls)) clock
    (after_broadcasts w calls).
Proof.
  revert view w. induction calls as [|[sid' e] calls IH]; intros view w Hv.
  - done.
  - rewrite foldl_offer_cons. simpl. apply IH.
    by apply stream_view_broadcast.
Qed.

(** The live loop answers from the queue, oldest event first, and with a
    heartbeat when the queue is empty. *)
Lemma live_exact q schedule : ∀ w view clock,
  stream_view sid q view clock w →
  (run_stream env sid (AtLive q) schedule w).1.1
  = stream_messages env sid [] view clock schedule.
Proof.
  induction schedule as [|[sid' e|d] rest IH]; intros w view clock Hv.
  - done.
  - change (run_stream env sid (AtLive q) (Broadcast sid' e :: rest) w)
      with (run_stream env sid (AtLive q) rest (svc_broadcast_event sid' e w).2).
    cbn [stream_messages]. apply IH. by apply stream_view_broadcast.
  - cbn [run_stream stream_messages Api.anext]. unfold Api.live_loop.
    destruct d.
    { unfold Api.finish_stream. rewrite bind_unfold. simpl.
      by rewrite run_stream_Finished. }
    rewrite bind_unfold. simpl.
    destruct view as [pending registered].
    destruct Hv as (Hqu & Hreg & Hoth & Hclock). simpl in Hqu, Hreg.
    rewrite Hqu. simpl.
    destruct pending as [|e pending].
    + rewrite bind_unfold. simpl.
      match goal with
      | |- context [run_stream env sid (AtLive q) rest ?w'] =>
          pose proof (IH w' ([], registered) (S clock)) as IHr;
          destruct (run_stream env sid (AtLive q) rest w') as [[ms g''] w'']
      end.
      simpl in *. rewrite Hclock, IHr; [done|].
      split; [done|]. split; [done|]. split; [done|]. by rewrite Hclock.
    + rewrite bind_unfold. simpl.
      match goal with
      | |- context [run_stream env sid (AtLive q) rest ?w'] =>
          pose proof (IH w' (pending, registered) clock) as IHr;
          destruct (run_stream env sid (AtLive q) rest w') as [[ms g''] w'']
      end.
      simpl in *. rewrite IHr; [done|].
      split; [apply lookup_insert_eq|]. done.
Qed.

(** The replay loop answers with the fetched events, one per request, and
    then continues as the live loop. *)
Lemma replay_exact q schedule : ∀ remaining w view clock,
  stream_view sid q view clock w →
  (run_stream env sid (AtHistorical q remaining) schedule w).1.1
  = stream_messages env sid remaining view clock schedule.
Proof.
  induction schedule as [|[sid' e|d] rest IH]; intros remaining w view clock Hv.
  - done.
  - change (run_stream env sid (AtHistorical q remaining)
              (Broadcast sid' e :: rest) w)
      with (run_stream env sid (AtHistorical q remaining) rest
              (svc_broadcast_event sid' e w).2).
    cbn [stream_messages]. apply IH. by apply stream_view_broadcast.
  - destruct remaining as [|e remaining].
    + rewrite replay_done. by apply live_exact.
    + simpl. rewrite <- (IH remaining w view clock Hv).
      by destruct (run_stream env sid (AtHistorical q remaining) rest w)
        as [[ms g''] w''].
Qed.

Lemma last_20_of_bounded_log (log gap : list StepEvent.t) :
  length log = 25%nat →
  SessionService.last_slice 20 (foldl SessionService.append_event log gap)
  = drop (5 + length gap) (log ++ gap).
Proof.
  intros Hlen. rewrite append_events_last by lia.
  unfold SessionService.last_slice. simpl.
  rewrite length_drop, drop_drop, length_app, Hlen.
  f_equal. lia.
Qed.
Lemma offer_all_fits (gap pending : list StepEvent.t) :
  (length pending + length gap ≤ 100)%nat →
  foldl offer (pending, true) gap = (pending ++ gap, true).
Proof.
  revert pending. induction gap as [|e gap IH]; intros pending Hlen.
  - by rewrite app_nil_r.
  - simpl in *. rewrite bool_decide_true by lia.
    rewrite IH by (rewrite length_app; simpl; lia).
    by rewrite <- app_assoc.
Qed.

(** C8, as amended.  A stream is opened on a session whose log holds 25
    events ([d0]: the subscriber is registered and [connected] is yielded);
    producers may broadcast before the consumer asks again ([pre], of which
    [gap] goes to this session); the consumer then asks for messages along
    any schedule ([d1] and [rest]) in which producers keep broadcasting.

    The replay is fetched at the second request, so it is the last 20
    events of the log with [gap] appended: the last 20 stored events
    exactly when nothing was broadcast to the session in between, and
    otherwise a list that ends with events of [gap], which also wait in the
    subscriber's queue and are delivered a second time, tagged
    non-historical.

    After [connected] the stream yields precisely [stream_messages]: the
    replayed events in their append order, tagged historical, one per
    request; then at each request the oldest event broadcast to the session
    since the registration that has not been handed out, tagged
    non-historical, or a heartbeat when none waits.  The events tagged
    non-historical are, in order, an initial segment of the events
    broadcast since the registration. *)
Theorem stream_replay_then_live w d0 pre d1 rest :
  registered_queues_live w →
  let log := SessionService.events_of (World.session_service w) sid in
  let gap := events_for sid pre in
  let replay := drop (5 + length gap) (log ++ gap) in
  let messages :=
    stream_messages env sid replay (foldl offer ([], true) gap)
      (S (World.clock_reads w)) (Next d1 :: rest) in
  length log = 25%nat →
  (run_stream env sid Created
     (Next d0 :: broadcast_actions pre ++ Next d1 :: rest) w).1.1
  = SseConnected sid "Connected to session stream"
      (utcnow env (World.clock_reads w))
    :: messages ∧
  length replay = 20%nat ∧
  (gap = [] → replay = drop 5 log) ∧
  ((length gap ≤ 100)%nat → foldl offer ([], true) gap = (gap, true)) ∧
  ∃ live,
    messages = (historical <$> take (S (nexts rest)) replay) ++ live ∧
    ((nexts rest < 20)%nat → live = []) ∧
    Forall (is_live sid) live ∧
    omap live_event live `prefix_of` (gap ++ broadcasts_to sid rest).
Proof.
  intros Hwf log gap replay messages Hlen.
  set (q := fresh (dom (World.heap w))).
  set (w1 := World.set_clock_reads (S (World.clock_reads w))
               (World.set_session_service
                  (SessionService.add_connection (World.session_service w) sid q)
                  (World.set_heap (<[q := Queue.new 100]> (World.heap w)) w))).
  assert (∀ sid', sid' ≠ sid →
            q ∉ SessionService.connections_of (World.session_service w1) sid')
    as Hoth.
  { intros sid' Hne Hin. unfold w1 in Hin. simpl in Hin.
    unfold SessionService.connections_of in Hin. simpl in Hin.
    rewrite lookup_insert_ne in Hin by done.
    apply Hwf in Hin. apply elem_of_dom in Hin.
    by apply is_fresh in Hin. }
  assert (stream_inv sid q [] [] w1) as Hinv1.
  { split; [|done].
    exists (Queue.new 100). split; [apply lookup_insert_eq|]. done. }
  assert (stream_view sid q ([], true) (S (World.clock_reads w)) w1) as Hview1.
  { split; [apply lookup_insert_eq|]. split; [|done]. simpl.
    split; [done|]. intros _.
    unfold SessionService.connections_of. simpl.
    rewrite lookup_insert_eq. simpl. set_solver. }
  set (w2 := after_broadcasts w1 pre).
  pose proof (stream_inv_after_broadcasts pre q [] [] w1 Hinv1) as Hinv2.
  pose proof (stream_view_after_broadcasts pre q _ _ w1 Hview1) as Hview2.
  fold w2 gap in Hinv2, Hview2. simpl in Hinv2.
  assert (SessionService.get_session_events (World.session_service w2) sid 20
          = replay) as Hrecent.
  { unfold SessionService.get_session_events, w2.
    rewrite after_broadcasts_events.
    change (SessionService.events_of (World.session_service w1) sid) with log.
    fold gap. unfold replay. rewrite <- (last_20_of_bounded_log log gap Hlen).
    by destruct (foldl SessionService.append_event log gap). }
  assert (length replay = 20%nat) as Hd.
  { unfold replay. rewrite length_drop, length_app. lia. }
  assert ((run_stream env sid Created
             (Next d0 :: broadcast_actions pre ++ Next d1 :: rest) w).1.1
          = SseConnected sid "Connected to session stream"
              (utcnow env (World.clock_reads w))
            :: (run_stream env sid (AtHistorical q replay) (Next d1 :: rest)
                  w2).1.1) as Hrun.
  { rewrite stream_open. fold q w1.
    rewrite run_stream_broadcasts. fold w2.
    by rewrite stream_fetch, Hrecent. }
  pose proof (replay_exact q (Next d1 :: rest) replay w2 _ _ Hview2)
    as Hexact.
  fold messages in Hexact.
  split; [by rewrite Hrun, Hexact|].
  split; [done|].
  split; [intros Hgap; unfold replay; by rewrite Hgap, app_nil_r|].
  split; [intros Hfit; by apply (offer_all_fits gap [])|].
  destruct (replay_phase q (Next d1 :: rest) replay w2 _ Hinv2)
    as (live & Hout & Hnil & Hl & Hp).
  exists live. rewrite <- Hexact, Hout.
  split; [done|]. split; [|done].
  intros Hn. apply Hnil. simpl. lia.
Qed.
End stream.

(* ===================================================================== *)
(** * Concrete runs *)
(* ===================================================================== *)

(** C1: a chat request whose tool selection names a tool the registries do
    not provide is accepted.  [create_session] returns the response with the
    new session id and status [pending] and the session is stored; the
    unsupported tools are only detected when the queued task runs, which
    records the session as [failed]. *)
Theorem create_session_accepts_unsupported_tools :
  ¬ list_to_set (tool_map env_unsupported_tool chat)
      ⊆@{gset string} list_to_set (available_tool_ids env_unsupported_tool) ∧
  ∃ w1 w2,
    Api.create_session env_unsupported_tool chat_request World.init
    = (Return (SessionResponse.mk "session-0" "pending" (sample_clock 0)
                 "/sessions/session-0/stream"), w1) ∧
    SessionStatus.status <$> sessions_of w1 !! "session-0" = Some "pending" ∧
    World.tasks w1 = [ExecuteSession "session-0" "2+2?" chat None] ∧
    Api.run_next_task env_unsupported_tool w1 = (Return tt, w2) ∧
    SessionStatus.status <$> sessions_of w2 !! "session-0" = Some "failed" ∧
    SessionStatus.error <$> sessions_of w2 !! "session-0"
    = Some (Some "Invalid tools requested").
Proof.
  split.
  - intros Hsub. specialize (Hsub "weather_tool").
    rewrite !elem_of_list_to_set in Hsub.
    assert ("weather_tool" ∈ available_tool_ids env_unsupported_tool) as Hin.
    { apply Hsub. simpl. apply list_elem_of_further, list_elem_of_here. }
    simpl in Hin. by repeat (apply elem_of_cons in Hin as [[=]|Hin]);
      apply elem_of_nil in Hin.
  - do 2 eexists.
    split; [vm_compute; reflexivity|].
    split; [vm_compute; reflexivity|].
    split; [vm_compute; reflexivity|].
    split; [vm_compute; reflexivity|].
    split; vm_compute; reflexivity.
Qed.

(** C6, counterexample: the engine returns without a final output; the
    session ends [completed] with neither [result] nor [error] populated. *)
Lemma completed_without_result_counterexample :
  ∃ w1 w2 s,
    Api.create_session env_no_final_output chat_request World.init
    = (Return (SessionResponse.mk "session-0" "pending" (sample_clock 0)
                 "/sessions/session-0/stream"), w1) ∧
    Api.run_next_task env_no_final_output w1 = (Return tt, w2) ∧
    sessions_of w2 !! "session-0" = Some s ∧
    is_terminal s ∧
    ¬ exactly_one_populated s.
Proof.
  do 3 eexists.
  split; [vm_compute; reflexivity|].
  split; [vm_compute; reflexivity|].
  split; [vm_compute; reflexivity|].
  split; [left; reflexivity|].
  intros [[[? [=]] _]|[_ [? [=]]]].
Qed.

(** C2, counterexample: a session that completed with result ["4"] still
    has that result after being revived. *)
Lemma revive_keeps_result_counterexample :
  ¬ revive_clears_terminal_fields (service_with completed_session) "s1"
      "2025-01-01T00:01:00+00:00".
Proof.
  intros Hclaim.
  destruct (Hclaim completed_session) as (s' & Hs' & Hres & _).
  - reflexivity.
  - by left.
  - vm_compute in Hs'. injection Hs' as <-. discriminate Hres.
Qed.

(** C8, counterexample: the log holds 25 events when the stream is opened
    and one event is broadcast before the consumer asks for the second
    message.  The replay is then not the last 20 of the 25 stored events: it
    starts at the seventh of them and ends with the new event, which the
    stream yields once more, tagged non-historical. *)
Lemma stream_gap_broadcast_counterexample :
  length (SessionService.events_of
            (World.session_service (world_with_log 25)) "s1") = 25%nat ∧
  (run_stream env_no_final_output "s1" Created gap_schedule
     (world_with_log 25)).1.1
  = SseConnected "s1" "Connected to session stream" (sample_clock 0)
    :: (historical
          <$> drop 6 (numbered_events "s1" 25)
              ++ [sample_event "s1" "session_started"])
    ++ [SseStep "session_started" (sample_event "s1" "session_started") false] ∧
  ¬ replays_log_at_open env_no_final_output "s1" (world_with_log 25)
      gap_schedule.
Proof.
  split; [vm_compute; reflexivity|].
  split; [vm_compute; reflexivity|].
  intros (ts & live & Hout & _).
  vm_compute in Hout. discriminate Hout.
Qed.

(** C10, counterexample: [uuid4] returns at its second draw the identifier
    it returned at the first.  A session is created and runs to completion
    with result ["4"]; the next [create_session] returns a session with the
    same identifier, which is a key of the store, and the completed session
    is replaced by the new pending one. *)
Lemma create_session_repeated_draw_counterexample :
  let w2 := reached env_repeating_uuid [OpCreateSession chat_request; OpRunNextTask] in
  ∃ s w3,
    sessions_of w2 !! "session-0" = Some s ∧
    SessionStatus.status s = "completed" ∧
    SessionStatus.result s = Some "4" ∧
    svc_create_session env_repeating_uuid "again" research w2
    = (Return (SessionStatus.mk "session-0" "pending" (sample_clock 6)
                 None None None None None), w3) ∧
    sessions_of w3 !! "session-0"
    = Some (SessionStatus.mk "session-0" "pending" (sample_clock 6)
              None None None None None) ∧
    ¬ returns_fresh_identifier env_repeating_uuid w2 "again" research.
Proof.
  intros w2. do 2 eexists.
  split; [vm_compute; reflexivity|].
  split; [reflexivity|]. split; [reflexivity|].
  split; [vm_compute; reflexivity|].
  split; [vm_compute; reflexivity|].
  intros Hfresh.
  specialize (Hfresh _ _ eq_refl). vm_compute in Hfresh. discriminate Hfresh.
Qed.

(** ** Instances of the properties above *)

Lemma revive_changes_only_status_witness :
  ∃ s',
    SessionService._sessions
      (SessionService.update_session_status (service_with completed_session)
         "s1" "pending" None None None "2025-01-01T00:01:00+00:00")
      !! "s1" = Some s' ∧
    SessionStatus.status s' = "pending" ∧
    SessionStatus.result s' = SessionStatus.result completed_session ∧
    SessionStatus.error s' = SessionStatus.error completed_session ∧
    SessionStatus.completed_at s' = SessionStatus.completed_at completed_session ∧
    SessionStatus.execution_time s'
      = SessionStatus.execution_time completed_session ∧
    SessionStatus.started_at s' = SessionStatus.started_at completed_session ∧
    SessionStatus.session_id s' = SessionStatus.session_id completed_session ∧
    SessionStatus.created_at s' = SessionStatus.created_at completed_session.
Proof.
  apply (revive_changes_only_status (service_with completed_session) "s1"
           "2025-01-01T00:01:00+00:00" completed_session).
  vm_compute. reflexivity.
Defined.

Lemma event_log_bounded_fifo_witness :
  SessionService.events_of
    (broadcast_all (SessionService.init, ∅)
       (pair "s1" <$> numbered_events "s1" 250)).1 "s1"
  = drop 50 (numbered_events "s1" 250).
Proof.
  assert (length (SessionService.events_of SessionService.init "s1") ≤ 200)%nat
    as Hbound by (vm_compute; lia).
  destruct (event_log_bounded_fifo SessionService.init ∅ "s1" Hbound)
    as (_ & _ & Hlast).
  apply Hlast; reflexivity.
Defined.

Lemma broadcast_drops_failing_subscribers_witness :
  let e := sample_event "s1" "session_started" in
  let r := SessionService.broadcast_event two_subscribers two_queues "s1" e in
  ((0%nat ∉ SessionService.connections_of r.1 "s1") ∧
   r.2 !! 0%nat = Some full_queue) ∧
  (1%nat ∈ SessionService.connections_of r.1 "s1" ∧
   r.2 !! 1%nat = Some (enqueued (Queue.new 100) e)).
Proof.
  intros e r. split.
  - assert (0%nat ∈ SessionService.connections_of two_subscribers "s1") as Hin
      by (vm_compute; reflexivity).
    assert (two_queues !! 0%nat = Some full_queue) as Hq
      by (vm_compute; reflexivity).
    destruct (broadcast_drops_failing_subscribers two_subscribers two_queues
                "s1" e 0%nat full_queue Hin Hq) as (Hfail & _ & _).
    destruct Hfail as (Hout & Hsame & _); [vm_compute; discriminate|].
    split; [exact Hout|exact Hsame].
  - assert (1%nat ∈ SessionService.connections_of two_subscribers "s1") as Hin
      by (vm_compute; reflexivity).
    assert (two_queues !! 1%nat = Some (Queue.new 100)) as Hq
      by (vm_compute; reflexivity).
    destruct (broadcast_drops_failing_subscribers two_subscribers two_queues
                "s1" e 1%nat (Queue.new 100) Hin Hq) as (_ & _ & Hok).
    destruct Hok as (Hstay & Hput & _); [vm_compute; reflexivity|].
    split; [exact Hstay|exact Hput].
Defined.

Lemma cleanup_session_iff_no_subscriber_witness :
  SessionService.cleanup_session two_subscribers "s1" = two_subscribers ∧
  SessionService._sessions
    (SessionService.cleanup_session (service_with completed_session) "s1")
    !! "s1" = None.
Proof.
  split.
  - apply (proj1 (cleanup_session_iff_no_subscriber two_subscribers "s1") 0%nat).
    vm_compute. reflexivity.
  - apply (proj2 (cleanup_session_iff_no_subscriber
                    (service_with completed_session) "s1")).
    vm_compute. reflexivity.
Defined.

Lemma started_at_written_at_most_once_witness :
  started_at_of
    (apply_updates
       (apply_update (service_with pending_session)
          (status_call "running" "2025-01-01T00:00:01+00:00"))
       [status_call "completed" "2025-01-01T00:00:05+00:00";
        status_call "pending" "2025-01-01T00:01:00+00:00";
        status_call "running" "2025-01-01T00:01:01+00:00"])
    "s1"
  = Some (Some "2025-01-01T00:00:01+00:00").
Proof.
  assert (UpdateCall.now (status_call "running" "2025-01-01T00:00:01+00:00") ≠ "")
    as Hnow by (vm_compute; discriminate).
  destruct (started_at_written_at_most_once (service_with pending_session) "s1" []
              (status_call "running" "2025-01-01T00:00:01+00:00")
              [status_call "completed" "2025-01-01T00:00:05+00:00";
               status_call "pending" "2025-01-01T00:01:00+00:00";
               status_call "running" "2025-01-01T00:01:01+00:00"] Hnow)
    as (Hwrite & _ & _).
  destruct Hwrite as (_ & _ & _ & _ & Hfinal); [vm_compute; discriminate|].
  exact Hfinal.
Defined.

Lemma sample_uuid_inj : Inj (=) (=) sample_uuid.
Proof.
  intros n m Heq. unfold sample_uuid in Heq.
  by apply (inj (String.app "session-")), (inj pretty) in Heq.
Qed.

Lemma create_session_pending_under_drawn_id_witness :
  let w := reached env_no_final_output [OpCreateSession chat_request; OpRunNextTask] in
  ∃ s w',
    sessions_of w !! "session-0" = Some s ∧
    SessionStatus.status s = "completed" ∧
    svc_create_session env_no_final_output "again" research w
    = (Return (SessionStatus.mk "session-1" "pending" (sample_clock 6)
                 None None None None None), w') ∧
    sessions_of w !! "session-1" = None ∧
    sessions_of w' !! "session-0" = Some s.
Proof.
  intros w.
  destruct (create_session_pending_under_drawn_id env_no_final_output w
              "again" research)
    as (w' & Hret & _ & _ & _ & _ & _ & _ & _ & _ & _ & Hnew).
  destruct Hnew as (Hfresh & _ & Hkept);
    [exact sample_uuid_inj | by eexists |].
  eexists _, w'.
  split; [vm_compute; reflexivity|].
  split; [reflexivity|].
  split; [exact Hret|].
  split; [exact Hfresh|].
  apply Hkept. vm_compute. reflexivity.
Defined.

Lemma session_context_cleared_on_exit_witness :
  PortiaService.stream_step env_no_final_output ∅ "4" World.init
  = (Return tt, World.init).
Proof.
  apply (session_context_cleared_on_exit env_no_final_output World.init
           "s1" "2+2?" chat None).
  reflexivity.
Defined.

Lemma driver_terminal_fields_witness :
  ∃ w' s',
    Api._execute_session env_no_final_output "s1" "2+2?" chat None
      (world_with_log 25) = (Return tt, w') ∧
    sessions_of w' !! "s1" = Some s' ∧
    ¬ (is_Some (SessionStatus.result s') ∧ is_Some (SessionStatus.error s')).
Proof.
  destruct (driver_terminal_fields env_no_final_output (world_with_log 25)
              "s1" "2+2?" chat None pending_session)
    as (w' & s' & Hrun & Hs' & _ & Hnot).
  - vm_compute. reflexivity.
  - exists w', s'. split; [exact Hrun|]. split; [exact Hs'|exact Hnot].
Defined.

Lemma stream_replay_then_live_witness :
  (run_stream env_no_final_output "s1" Created
     (Next false
      :: broadcast_actions [("s2", sample_event "s2" "user_message")]
      ++ Next false :: busy_schedule)
     (world_with_log 25)).1.1
  = SseConnected "s1" "Connected to session stream" (sample_clock 0)
    :: (historical <$> drop 5 (numbered_events "s1" 25))
    ++ [SseStep "session_started" (sample_event "s1" "session_started") false;
        SseHeartbeat "s1" (sample_clock 1);
        SseHeartbeat "s1" (sample_clock 2);
        SseStep "session_completed" (sample_event "s1" "session_completed")
          false;
        SseHeartbeat "s1" (sample_clock 3)].
Proof.
  assert (registered_queues_live (world_with_log 25)) as Hwf.
  { intros sid q Hq. vm_compute in Hq. discriminate Hq. }
  destruct (stream_replay_then_live env_no_final_output "s1"
              (world_with_log 25) false
              [("s2", sample_event "s2" "user_message")] false busy_schedule
              Hwf) as (Hout & _).
  - vm_compute. reflexivity.
  - rewrite Hout. vm_compute. reflexivity.
Defined.

(* ===================================================================== *)
(** * Further properties of the session service *)
(* ===================================================================== *)

Section service_extras.
Implicit Types (svc : SessionService.t) (heap : gmap nat Queue.t).

(** X1: [update_session_status] never adds or removes a session and
    touches neither the registry nor the event logs; it changes at most the
    record stored under the given identifier, and with an unknown identifier
    it returns the service as it was. *)
Theorem update_session_status_frame svc sid st r e t now :
  let svc' := SessionService.update_session_status svc sid st r e t now in
  dom (SessionService._sessions svc') = dom (SessionService._sessions svc) ∧
  SessionService._session_connections svc'
    = SessionService._session_connections svc ∧
  SessionService._session_events svc' = SessionService._session_events svc ∧
  (∀ sid', sid' ≠ sid →
     SessionService._sessions svc' !! sid' = SessionService._sessions svc !! sid') ∧
  (SessionService._sessions svc !! sid = None → svc' = svc).
Proof.
  intros svc'. subst svc'. unfold SessionService.update_session_status.
  destruct (SessionService._sessions svc !! sid) as [s|] eqn:Hs; simpl.
  - repeat split; [|intros sid' Hne; by rewrite lookup_insert_ne|done].
    rewrite dom_insert_L. apply elem_of_dom_2 in Hs. set_solver.
  - repeat split.
Qed.

(** X2: [get_session_events] with a positive limit returns the last
    [min limit (len log)] events in log order; with limit 0 it returns the
    whole log (the slice [events[-0:]]), and with a negative limit it drops
    the first [-limit] events.  An unknown session gives the empty list. *)
Theorem get_session_events_slice svc sid limit :
  let evs := SessionService.events_of svc sid in
  let r := SessionService.get_session_events svc sid limit in
  (0 < limit →
     r = drop (length evs - Z.to_nat limit) evs ∧
     length r = Nat.min (Z.to_nat limit) (length evs)) ∧
  (limit = 0 → r = evs) ∧
  (limit < 0 → r = drop (Z.to_nat (- limit)) evs) ∧
  (SessionService._session_events svc !! sid = None → r = []).
Proof.
  intros evs r.
  assert (r = SessionService.last_slice limit evs) as Hr.
  { subst r. unfold SessionService.get_session_events. fold evs.
    destruct evs; [|done]. unfold SessionService.last_slice.
    destruct (- limit <? 0); by rewrite drop_nil. }
  rewrite Hr. unfold SessionService.last_slice.
  split; [|split; [|split]].
  - intros Hpos. destruct (Z.ltb_spec (- limit) 0); [|lia].
    replace (Z.to_nat (Z.max 0 (Z.of_nat (length evs) + - limit)))
      with (length evs - Z.to_nat limit)%nat by lia.
    split; [done|]. rewrite length_drop. lia.
  - intros ->. done.
  - intros Hneg. destruct (Z.ltb_spec (- limit) 0); [lia|done].
  - intros Hnone. subst evs. unfold SessionService.events_of.
    rewrite Hnone. simpl. destruct (- limit <? 0); by rewrite drop_nil.
Qed.

Lemma keys_match_step st c : keys_match st.1 → keys_match (apply_call st c).1.
Proof.
  destruct st as [svc heap]. intros Hk. unfold keys_match in *.
  destruct c as [q qt uuid now|c|sid q|sid q|sid e|sid]; simpl.
  - intros k s. destruct (decide (uuid = k)) as [->|Hne].
    + rewrite lookup_insert_eq. by intros [= <-].
    + rewrite lookup_insert_ne by done. apply Hk.
  - intros k s. unfold apply_update. rewrite update_lookup.
    destruct (decide (UpdateCall.session_id c = k)) as [Hc|Hc]; [|apply Hk].
    destruct (SessionService._sessions svc !! k) as [s0|] eqn:Hs0; [|done].
    simpl. intros [= <-]. rewrite update_fields_session_id. by apply Hk.
  - apply Hk.
  - apply Hk.
  - rewrite broadcast_event_sessions. apply Hk.
  - unfold SessionService.cleanup_session. case_decide; [|apply Hk].
    simpl. intros k s Hl. apply lookup_delete_Some in Hl as [_ Hl]. by apply Hk.
Qed.

(** X3: whatever sequence of service calls is made (create, update, add or
    remove a connection, broadcast, cleanup), every stored session keeps
    being stored under its own [session_id]. *)
Theorem sessions_stored_under_own_id st calls :
  keys_match st.1 → keys_match (apply_calls st calls).1.
Proof.
  revert st. induction calls as [|c calls IH]; intros st Hk; [done|].
  simpl. apply IH. by apply keys_match_step.
Qed.

Lemma no_empty_remove svc sid q :
  no_empty_subscriber_set svc →
  no_empty_subscriber_set (SessionService.remove_connection svc sid q).
Proof.
  intros Hn sid' S. unfold SessionService.remove_connection. simpl.
  destruct (decide (_ = ∅)) as [He|He].
  - intros Hl. apply lookup_delete_Some in Hl as [_ Hl]. by eapply Hn.
  - destruct (decide (sid = sid')) as [->|Hne].
    + rewrite lookup_insert_eq. by intros [= <-].
    + rewrite lookup_insert_ne by done. apply Hn.
Qed.

Lemma no_empty_remove_all (l : list nat) svc sid :
  no_empty_subscriber_set svc →
  no_empty_subscriber_set
    (foldl (λ svc q, SessionService.remove_connection svc sid q) svc l).
Proof.
  revert svc. induction l as [|q l IH]; intros svc Hn; [done|].
  simpl. apply IH. by apply no_empty_remove.
Qed.

Lemma no_empty_step st c :
  no_empty_subscriber_set st.1 → no_empty_subscriber_set (apply_call st c).1.
Proof.
  destruct st as [svc heap]. intros Hn.
  destruct c as [q qt uuid now|c|sid q|sid q|sid e|sid]; simpl.
  - apply Hn.
  - unfold apply_update, SessionService.update_session_status.
    by destruct (SessionService._sessions svc !! _).
  - intros sid' S. simpl. destruct (decide (sid = sid')) as [->|Hne].
    + rewrite lookup_insert_eq. intros [= <-]. set_solver.
    + rewrite lookup_insert_ne by done. apply Hn.
  - by apply no_empty_remove.
  - unfold SessionService.broadcast_event.
    destruct (foldl _ _ _) as [heap' D]. simpl.
    by apply no_empty_remove_all.
  - unfold SessionService.cleanup_session. case_decide; [|apply Hn].
    intros sid' S. simpl. intros Hl.
    apply lookup_delete_Some in Hl as [_ Hl]. by eapply Hn.
Qed.

(** X4: the registry never holds an empty subscriber set: along any
    sequence of service calls, a session has a registry entry exactly when
    it has at least one subscriber. *)
Theorem registry_has_no_empty_set st calls :
  no_empty_subscriber_set st.1 →
  no_empty_subscriber_set (apply_calls st calls).1 ∧
  ∀ sid,
    SessionService._session_connections (apply_calls st calls).1 !! sid = None ↔
    SessionService.get_active_connections_count (apply_calls st calls).1 sid = 0.
Proof.
  intros Hn.
  assert (no_empty_subscriber_set (apply_calls st calls).1) as Hn'.
  { revert st Hn. induction calls as [|c calls IH]; intros st Hn; [done|].
    simpl. apply IH. by apply no_empty_step. }
  split; [done|]. intros sid.
  unfold SessionService.get_active_connections_count,
    SessionService.connections_of.
  destruct (SessionService._session_connections (apply_calls st calls).1 !! sid)
    as [S|] eqn:HS; simpl.
  - split; [done|]. intros Hz. exfalso. apply (Hn' sid S HS).
    assert (size S = 0)%nat as Hz' by lia.
    apply size_empty_inv in Hz'. by apply leibniz_equiv.
  - split; [|done]. intros _. reflexivity.
Qed.

(** X5: on a registry without empty sets, registering a queue that was not
    registered for the session and removing it again gives back the service
    unchanged. *)
Theorem add_then_remove_connection svc sid q :
  no_empty_subscriber_set svc →
  q ∉ SessionService.connections_of svc sid →
  SessionService.remove_connection (SessionService.add_connection svc sid q) sid q
  = svc.
Proof.
  intros Hn Hq. destruct svc as [ss cs es].
  unfold SessionService.remove_connection, SessionService.add_connection,
    SessionService.connections_of in *. simpl in *.
  rewrite lookup_insert_eq. simpl. f_equal.
  destruct (cs !! sid) as [S|] eqn:HS; simpl in *.
  - assert ((S ∪ {[q]}) ∖ {[q]} = S) as -> by set_solver.
    rewrite decide_False by by eapply Hn.
    rewrite insert_insert_eq. by apply insert_id.
  - assert (((∅ : gset nat) ∪ {[q]}) ∖ {[q]} = ∅) as -> by set_solver.
    rewrite decide_True by done. rewrite delete_insert_eq. by apply delete_id.
Qed.

(** X6: the subscriber set is a set: registering a queue that is already
    registered leaves the count as it is, registering a new one raises it by
    one; removing a registered queue lowers it by one and removing an
    unregistered one changes nothing.  Other sessions' counts are
    unaffected. *)
Theorem active_connections_count_add_remove svc sid q :
  let n := SessionService.get_active_connections_count svc sid in
  SessionService.get_active_connections_count
    (SessionService.add_connection svc sid q) sid
  = (if decide (q ∈ SessionService.connections_of svc sid) then n else n + 1) ∧
  SessionService.get_active_connections_count
    (SessionService.remove_connection svc sid q) sid
  = (if decide (q ∈ SessionService.connections_of svc sid) then n - 1 else n) ∧
  ∀ sid', sid' ≠ sid →
    SessionService.get_active_connections_count
      (SessionService.add_connection svc sid q) sid'
    = SessionService.get_active_connections_count svc sid' ∧
    SessionService.get_active_connections_count
      (SessionService.remove_connection svc sid q) sid'
    = SessionService.get_active_connections_count svc sid'.
Proof.
  intros n. subst n. unfold SessionService.get_active_connections_count.
  split; [|split].
  - unfold SessionService.add_connection, SessionService.connections_of at 1.
    simpl. rewrite lookup_insert_eq. simpl.
    case_decide as Hin.
    + f_equal. f_equal. set_solver.
    + rewrite size_union by set_solver. rewrite size_singleton. lia.
  - rewrite connections_of_remove, decide_True by done.
    case_decide as Hin.
    + rewrite size_difference by set_solver. rewrite size_singleton.
      assert (size (SessionService.connections_of svc sid) ≠ 0)%nat.
      { intros Hz. apply size_empty_inv in Hz. set_solver. }
      lia.
    + f_equal. f_equal. set_solver.
  - intros sid' Hne. split.
    + unfold SessionService.add_connection, SessionService.connections_of at 1.
      simpl. by rewrite lookup_insert_ne.
    + by rewrite connections_of_remove, decide_False.
Qed.

(** X7: a broadcast to a session without subscribers still appends the
    event to the log of that session, creating the log if there is none (also
    for an identifier that has no session), and changes nothing else: no
    queue, no registry entry, no session record. *)
Theorem broadcast_without_subscribers svc heap sid e :
  SessionService.connections_of svc sid = ∅ →
  SessionService.broadcast_event svc heap sid e
  = (SessionService.mk (SessionService._sessions svc)
       (SessionService._session_connections svc)
       (<[sid := SessionService.append_event (SessionService.events_of svc sid) e]>
          (SessionService._session_events svc)),
     heap) ∧
  (SessionService._session_events svc !! sid = None →
     SessionService.events_of (SessionService.broadcast_event svc heap sid e).1 sid
     = [e]).
Proof.
  intros Hnone.
  assert (SessionService.broadcast_event svc heap sid e
          = (SessionService.mk (SessionService._sessions svc)
               (SessionService._session_connections svc)
               (<[sid := SessionService.append_event
                           (SessionService.events_of svc sid) e]>
                  (SessionService._session_events svc)), heap)) as Heq.
  { unfold SessionService.broadcast_event.
    change (SessionService.connections_of (SessionService.mk _ _ _) sid)
      with (SessionService.connections_of svc sid).
    rewrite Hnone, elements_empty. simpl. by rewrite elements_empty. }
  split; [done|]. intros Hlog. rewrite Heq. simpl.
  unfold SessionService.events_of. simpl. rewrite lookup_insert_eq, Hlog.
  reflexivity.
Qed.

(** X8: a broadcast to one session is invisible to the others: their logs
    and subscriber sets are unchanged, every queue that is not registered for
    the session is unchanged, no session record changes, and the session's
    own subscriber set can only shrink. *)
Theorem broadcast_event_isolated svc heap sid e :
  let r := SessionService.broadcast_event svc heap sid e in
  SessionService._sessions r.1 = SessionService._sessions svc ∧
  (∀ sid', sid' ≠ sid →
     SessionService.events_of r.1 sid' = SessionService.events_of svc sid' ∧
     SessionService.connections_of r.1 sid'
     = SessionService.connections_of svc sid') ∧
  (∀ q, q ∉ SessionService.connections_of svc sid → r.2 !! q = heap !! q) ∧
  SessionService.connections_of r.1 sid ⊆ SessionService.connections_of svc sid ∧
  dom r.2 = dom heap.
Proof.
  intros r. subst r.
  pose proof (broadcast_event_spec svc heap sid e) as (H1 & H2 & H3 & H4 & H5).
  cbv zeta in *.
  split; [apply broadcast_event_sessions|].
  split; [|split; [done|split]].
  - intros sid' Hne. split; [|by apply H5].
    rewrite events_of_broadcast. by rewrite decide_False.
  - intros q Hq. by apply H4 in Hq as [? _].
  - apply set_eq. intros q. rewrite !elem_of_dom.
    destruct (decide (q ∈ SessionService.connections_of svc sid)) as [Hin|Hout].
    + destruct (can_receive heap q) eqn:Hc.
      * destruct (H2 q Hin Hc) as (qu & -> & ->). by split.
      * by rewrite (H3 q Hin Hc).
    + by rewrite (H1 q Hout).
Qed.

Lemma unread_queue_fills (evs : list StepEvent.t) :
  ∀ svc heap sid q qu (n : nat),
  heap !! q = Some qu →
  Queue.is_shutdown qu = false →
  Queue.maxsize qu = Z.of_nat n → (0 < n)%nat →
  (length (Queue.items qu) ≤ n)%nat →
  q ∈ SessionService.connections_of svc sid →
  let r := broadcast_all (svc, heap) (pair sid <$> evs) in
  (∃ qu', r.2 !! q = Some qu' ∧
          Queue.items qu' = take n (Queue.items qu ++ evs)) ∧
  (q ∈ SessionService.connections_of r.1 sid ↔
   (length (Queue.items qu ++ evs) ≤ n)%nat).
Proof.
  induction evs as [|e evs IH]; intros svc heap sid q qu n Hq Hs Hm Hn Hl Hin r.
  - subst r. simpl. rewrite app_nil_r. split.
    + exists qu. split; [done|]. by rewrite take_ge.
    + tauto.
  - subst r.
    change (broadcast_all (svc, heap) (pair sid <$> e :: evs))
      with (broadcast_all (SessionService.broadcast_event svc heap sid e)
              (pair sid <$> evs)).
    pose proof (broadcast_event_spec svc heap sid e) as (H1 & H2 & H3 & H4 & H5).
    cbv zeta in *.
    destruct (SessionService.broadcast_event svc heap sid e) as [svc1 heap1].
    simpl in *.
    assert (can_receive heap q = negb (Z.of_nat n <=? Queue.qsize qu)) as Hc.
    { unfold can_receive, Queue.full. rewrite Hq, Hs, Hm. simpl.
      destruct (Z.leb_spec (Z.of_nat n) 0); [lia|done]. }
    unfold Queue.qsize in Hc.
    destruct (Z.leb_spec (Z.of_nat n) (Z.of_nat (length (Queue.items qu))))
      as [Hfull|Hroom]; simpl in Hc.
    + assert (length (Queue.items qu) = n) as Hlen by lia.
      assert (q ∉ SessionService.connections_of svc1 sid) as Hout.
      { rewrite H4, Hc. by intros [_ ?]. }
      destruct (broadcast_all_unregistered evs svc1 heap1 sid q Hout) as [E1 E2].
      split.
      * exists qu. rewrite E1, (H3 q Hin Hc). split; [done|].
        by rewrite take_app_length'.
      * split; [done|]. rewrite length_app. simpl. lia.
    + destruct (H2 q Hin Hc) as (qu0 & Hqu0 & Hq1).
      assert (qu0 = qu) as -> by congruence.
      destruct (IH svc1 heap1 sid q (enqueued qu e) n) as [IH1 IH2];
        try done.
      * simpl. rewrite length_app. simpl. lia.
      * rewrite H4, Hc. done.
      * simpl in IH1, IH2. rewrite <- !app_assoc in IH1, IH2. done.
Qed.

(** X9: back-pressure.  A registered subscriber with a bounded queue of
    capacity [n] that is not read receives the broadcasts to its session
    until the queue holds [n] events; the broadcast after that removes it
    from the registry, and its queue keeps the first [n] events whatever is
    broadcast later. *)
Theorem unread_subscriber_dropped_when_full (evs : list StepEvent.t) :
  ∀ svc heap sid q qu (n : nat),
  heap !! q = Some qu →
  Queue.is_shutdown qu = false →
  Queue.maxsize qu = Z.of_nat n → (0 < n)%nat →
  (length (Queue.items qu) ≤ n)%nat →
  q ∈ SessionService.connections_of svc sid →
  let r := broadcast_all (svc, heap) (pair sid <$> evs) in
  (∃ qu', r.2 !! q = Some qu' ∧
          Queue.items qu' = take n (Queue.items qu ++ evs)) ∧
  (q ∈ SessionService.connections_of r.1 sid ↔
   (length (Queue.items qu ++ evs) ≤ n)%nat).
Proof. apply unread_queue_fills. Qed.

Lemma update_fields_created_at (s : SessionStatus.t) st r e t now :
  SessionStatus.created_at (SessionService.update_fields s st r e t now)
  = SessionStatus.created_at s.
Proof. unfold SessionService.update_fields. repeat case_match; reflexivity. Qed.

Lemma update_fields_status (s : SessionStatus.t) st r e t now :
  SessionStatus.status (SessionService.update_fields s st r e t now) = st.
Proof. unfold SessionService.update_fields. repeat case_match; reflexivity. Qed.

Lemma default_last_cons {A} (d x : A) (l : list A) :
  default d (last (x :: l)) = default x (last l).
Proof.
  revert d x. induction l as [|a l IH]; intros d x; [done|].
  change (last (x :: a :: l)) with (last (a :: l)).
  by rewrite (IH d a), (IH x a).
Qed.

(** X23: along any sequence of [update_session_status] calls an existing
    session stays in the store with the same [session_id] and [created_at],
    and its status is the status argument of the last call made for it (its
    old status when no call was made for it): no transition is refused, a
    terminal session can be set to any status again. *)
Theorem update_sequence_last_status_wins (calls : list UpdateCall.t) :
  ∀ svc sid s,
  SessionService._sessions svc !! sid = Some s →
  ∃ s',
    SessionService._sessions (apply_updates svc calls) !! sid = Some s' ∧
    SessionStatus.session_id s' = SessionStatus.session_id s ∧
    SessionStatus.created_at s' = SessionStatus.created_at s ∧
    SessionStatus.status s'
    = default (SessionStatus.status s)
        (last (UpdateCall.status
                 <$> filter (λ c, UpdateCall.session_id c = sid) calls)).
Proof.
  induction calls as [|c calls IH]; intros svc sid s Hs.
  - exists s. by repeat split.
  - simpl. rewrite filter_cons.
    assert (SessionService._sessions (apply_update svc c) !! sid
            = Some (if decide (UpdateCall.session_id c = sid)
                    then SessionService.update_fields s (UpdateCall.status c)
                           (UpdateCall.result c) (UpdateCall.error c)
                           (UpdateCall.execution_time c) (UpdateCall.now c)
                    else s)) as Hstep.
    { unfold apply_update. rewrite update_lookup, Hs. by case_decide. }
    destruct (IH _ _ _ Hstep) as (s' & Hs' & Hid & Hcr & Hst).
    exists s'. split; [exact Hs'|].
    destruct (decide (UpdateCall.session_id c = sid)) as [Hc|Hc].
    + rewrite Hid, Hcr, Hst, update_fields_session_id, update_fields_created_at,
        update_fields_status.
      rewrite fmap_cons, default_last_cons. done.
    + by rewrite Hid, Hcr, Hst.
Qed.
End service_extras.

(* ===================================================================== *)
(** * Further properties of the execution driver *)
(* ===================================================================== *)

Section driver_extras.
Context (env : Env).
Implicit Types (w : World.t).

(** X10: [_get_portia_instance] returns the cached instance when the
    requested tool set equals the cached one; otherwise it builds and caches
    an instance when every requested tool is available, and else raises
    [InvalidToolsError] without changing any state.  The error carries the
    whole requested set, valid tools included, next to the available
    identifiers. *)
Theorem get_portia_instance_outcomes (tools : gset string) w :
  let ps := World.portia_service w in
  let r := PortiaService._get_portia_instance env tools w in
  (∀ i, PortiaServiceState._portia_instance ps = Some i →
        tools = PortiaServiceState._tools ps → r = (Return i, w)) ∧
  (PortiaServiceState._portia_instance ps = None ∨
   tools ≠ PortiaServiceState._tools ps →
     (tools ⊆ list_to_set (available_tool_ids env) →
        r = (Return tools,
             World.set_portia_service
               (PortiaServiceState.mk tools (Some tools)) w)) ∧
     (¬ tools ⊆ list_to_set (available_tool_ids env) →
        r = (Raise (InvalidToolsError (elements tools) (available_tool_ids env)),
             w) ∧
        ∀ t, t ∈ elements tools ↔ t ∈ tools)).
Proof.
  intros ps r. subst ps r.
  unfold PortiaService._get_portia_instance. rewrite bind_unfold. simpl.
  split.
  - intros i -> ->. by rewrite decide_True.
  - intros Hmiss.
    destruct (PortiaServiceState._portia_instance (World.portia_service w))
      as [i|] eqn:Hi.
    + destruct Hmiss as [[=]|Hne]. rewrite decide_False by done.
      split; intros Hsub.
      * by rewrite decide_True.
      * rewrite decide_False by done. split; [done|].
        intros t. apply elem_of_elements.
    + split; intros Hsub.
      * by rewrite decide_True.
      * rewrite decide_False by done. split; [done|].
        intros t. apply elem_of_elements.
Qed.

(** X11: [run_query] raises only when tool validation does, and then
    before the engine is run and without any change of state.  Otherwise it
    always returns: a success dictionary with the final output when the
    engine returns, a failure dictionary with the message of the exception
    when the engine raises; the session records are not touched. *)
Theorem run_query_outcomes query tools w :
  let run := portia_run env query tools in
  let r := PortiaService.run_query env query tools w in
  (∀ e w1, PortiaService._get_portia_instance env (list_to_set tools) w
           = (Raise e, w1) →
     r = (Raise e, w) ∧
     e = InvalidToolsError (elements (list_to_set tools : gset string))
           (available_tool_ids env)) ∧
  (∀ i w1, PortiaService._get_portia_instance env (list_to_set tools) w
           = (Return i, w1) →
     sessions_of r.2 = sessions_of w ∧
     r.1 = Return match Run.finish_with run with
                  | Run.Returns final_output =>
                      QuerySuccess final_output (Run.elapsed run)
                  | Run.Raises message => QueryFailure message (Run.elapsed run)
                  end).
Proof.
  intros run r. subst r. unfold PortiaService.run_query. rewrite bind_unfold.
  split.
  - intros e w1 Hg.
    destruct (get_portia_instance_cases env (list_to_set tools) w)
      as [(i & w2 & Hr & _)|[Hr _]]; rewrite Hr in Hg; [done|].
    injection Hg as <- <-. by rewrite Hr.
  - intros i w1 Hg. rewrite Hg.
    destruct (get_portia_instance_cases env (list_to_set tools) w)
      as [(i' & w2 & Hr & Hs)|[Hr _]]; rewrite Hr in Hg; [|done].
    injection Hg as <- <-.
    fold run. unfold try_except. rewrite bind_unfold.
    destruct (for_each_stream_step_sessions env (Run.notifications run) w2)
      as (w3 & -> & H3).
    destruct (Run.finish_with run); simpl; (split; [congruence|done]).
Qed.

Lemma appends_refl sid w : appends sid w w [].
Proof. reflexivity. Qed.

Lemma appends_trans sid w w1 w2 evs1 evs2 :
  appends sid w w1 evs1 → appends sid w1 w2 evs2 →
  appends sid w w2 (evs1 ++ evs2).
Proof. unfold appends. intros H1 H2. by rewrite H2, H1, foldl_app. Qed.

Lemma log_now sid w :
  ∃ w', now_isoformat env w = (Return (utcnow env (World.clock_reads w)), w') ∧
        appends sid w w' [] ∧
        World._current_session_id w' = World._current_session_id w ∧
        World.clock_reads w' = S (World.clock_reads w).
Proof. eexists. split; [reflexivity|]. done. Qed.

Lemma log_broadcast sid e w :
  ∃ w', svc_broadcast_event sid e w = (Return tt, w') ∧
        appends sid w w' [e] ∧
        World._current_session_id w' = World._current_session_id w ∧
        World.clock_reads w' = World.clock_reads w.
Proof.
  pose proof (events_of_broadcast (World.session_service w) (World.heap w)
                sid e sid) as Hev.
  rewrite decide_True in Hev by done.
  unfold svc_broadcast_event, modify, appends.
  destruct (SessionService.broadcast_event _ _ _ _) as [svc heap].
  eexists. split; [reflexivity|]. done.
Qed.

Lemma log_update sid st r e t w :
  ∃ w', svc_update_session_status env sid st r e t w = (Return tt, w') ∧
        appends sid w w' [] ∧
        World._current_session_id w' = World._current_session_id w.
Proof.
  eexists. split; [reflexivity|]. split; [|done].
  unfold appends, SessionService.events_of. simpl.
  unfold SessionService.update_session_status.
  by destruct (SessionService._sessions _ !! _).
Qed.

Lemma stream_step_log step output w sid :
  World._current_session_id w = Some sid → sid ≠ "" →
  ∃ w',
    PortiaService.stream_step env step output w = (Return tt, w') ∧
    appends sid w w'
      (step_pair sid (utcnow env (World.clock_reads w))
         (utcnow env (S (World.clock_reads w))) step output) ∧
    sessions_of w' = sessions_of w ∧
    World._current_session_id w' = Some sid ∧
    World.clock_reads w' = S (S (World.clock_reads w)).
Proof.
  intros Hctx Hne.
  destruct (stream_step_sessions env step output w) as (w0 & Hrun0 & Hs0).
  unfold PortiaService.stream_step in *. rewrite bind_unfold in *. simpl in *.
  rewrite Hctx in *. rewrite (truthy_Some_nonempty sid Hne) in *. simpl in *.
  rewrite bind_unfold in *.
  destruct (log_now sid w) as (w1 & E1 & A1 & C1 & K1).
  rewrite E1 in *. cbv beta iota in *. rewrite bind_unfold in *.
  match type of Hrun0 with
  | context [svc_broadcast_event sid ?e w1] =>
      destruct (log_broadcast sid e w1) as (w2 & E2 & A2 & C2 & K2)
  end.
  rewrite E2 in *. cbv beta iota in *. rewrite bind_unfold in *.
  destruct (log_now sid w2) as (w3 & E3 & A3 & C3 & K3).
  rewrite E3 in *. cbv beta iota in *.
  match type of Hrun0 with
  | context [svc_broadcast_event sid ?e w3] =>
      destruct (log_broadcast sid e w3) as (w4 & E4 & A4 & C4 & K4)
  end.
  rewrite E4 in *. injection Hrun0 as <-.
  exists w4. split; [done|].
  split; [|split; [done|split; [congruence|congruence]]].
  pose proof (appends_trans _ _ _ _ _ _ A1
                (appends_trans _ _ _ _ _ _ A2
                   (appends_trans _ _ _ _ _ _ A3 A4))) as Hall.
  simpl in Hall. unfold step_pair. rewrite K2, K1 in Hall. exact Hall.
Qed.
(** X12: with the session context set to a non-empty identifier,
    [stream_step] appends exactly two events to the log of that session, in
    this order: [step_update] with status [running] and no output, then
    [step_completed] with status [completed] and the output of the step, both
    with the identifier, task and tool of the step.  It reads the clock twice
    and leaves the context and the session records as they were. *)
Theorem stream_step_broadcasts_pair step output w sid :
  World._current_session_id w = Some sid → sid ≠ "" →
  ∃ w',
    PortiaService.stream_step env step output w = (Return tt, w') ∧
    appends sid w w'
      (step_pair sid (utcnow env (World.clock_reads w))
         (utcnow env (S (World.clock_reads w))) step output) ∧
    sessions_of w' = sessions_of w ∧
    World._current_session_id w' = Some sid ∧
    World.clock_reads w' = S (S (World.clock_reads w)).
Proof. apply stream_step_log. Qed.

Lemma get_portia_instance_log tools w r w' :
  PortiaService._get_portia_instance env tools w = (r, w') →
  World.session_service w' = World.session_service w ∧
  World._current_session_id w' = World._current_session_id w.
Proof.
  unfold PortiaService._get_portia_instance. rewrite bind_unfold. simpl.
  destruct (PortiaServiceState._portia_instance (World.portia_service w));
    repeat case_decide; intros [= <- <-]; done.
Qed.

Ltac log_step sid :=
  rewrite ?bind_unfold;
  match goal with
  | |- context [now_isoformat env ?w] =>
      let H := fresh in
      destruct (log_now sid w) as (? & H & ? & ? & ?);
      rewrite H; clear H
  | |- context [svc_broadcast_event sid ?e ?w] =>
      let H := fresh in
      destruct (log_broadcast sid e w) as (? & H & ? & ? & ?);
      rewrite H; clear H
  | |- context [svc_update_session_status env sid ?st ?r ?e ?t ?w] =>
      let H := fresh in
      destruct (log_update sid st r e t w) as (? & H & ? & ?);
      rewrite H; clear H
  end;
  cbv beta iota.

Ltac chain_appends :=
  first [ apply appends_refl
        | eapply appends_trans; [eassumption|chain_appends] ].

Lemma notify_among_nobody_else i l w :
  notify_among env nobody_else i l w
  = for_each l (λ n, PortiaService.stream_step env n.1 n.2) w.
Proof.
  revert i w. induction l as [|n l IH]; intros i w; [reflexivity|].
  cbn [notify_among for_each]. rewrite bind_unfold.
  change (modify (nobody_else i) w) with (Return tt, w). cbv beta iota.
  rewrite !bind_unfold.
  destruct (PortiaService.stream_step env n.1 n.2 w) as [[[]|e] w1]; [|done].
  apply IH.
Qed.

Lemma bind_ext {A B} (m : M A) (f g : A → M B) w :
  (∀ a w', f a w' = g a w') → (m ≫= f) w = (m ≫= g) w.
Proof.
  intros Hfg. rewrite !bind_unfold.
  destruct (m w) as [[a|e] w']; [apply Hfg|done].
Qed.

(** With no other task running, the driver next to other tasks is the
    driver run in one piece. *)
Lemma run_query_with_session_among_nobody_else sid query query_type repo_name w :
  run_query_with_session_among env nobody_else sid query query_type repo_name w
  = PortiaService.run_query_with_session env sid query query_type repo_name w.
Proof.
  assert (∀ q ts w0, run_query_among env nobody_else q ts w0
                     = PortiaService.run_query env q ts w0) as Hq.
  { intros q ts w0. unfold run_query_among, PortiaService.run_query.
    apply bind_ext. intros _ w1. cbv zeta.
    unfold try_except. rewrite !bind_unfold.
    by rewrite notify_among_nobody_else. }
  unfold run_query_with_session_among, PortiaService.run_query_with_session,
    modified_query.
  do 6 (apply bind_ext; intros ? ?). cbv zeta.
  unfold try_finally. rewrite !bind_unfold, Hq. reflexivity.
Qed.

(** Broadcasts to other sessions and the creation of sessions are among
    the things other tasks may do. *)
Lemma leaves_alone_broadcast sid sid' e :
  sid' ≠ sid → leaves_alone sid (λ w, (svc_broadcast_event sid' e w).2).
Proof.
  intros Hne w.
  destruct (svc_broadcast_event_sessions sid' e w) as (w1 & Hrun & _ & Hc).
  destruct (svc_broadcast_world sid' e w) as [Hsvc _].
  rewrite Hsvc, events_of_broadcast, decide_False by done.
  rewrite Hrun. by split.
Qed.

Lemma leaves_alone_create sid query query_type :
  leaves_alone sid (λ w, (svc_create_session env query query_type w).2).
Proof. by intros w. Qed.

Lemma leaves_alone_compose sid (f g : World.t → World.t) :
  leaves_alone sid f → leaves_alone sid g → leaves_alone sid (λ w, g (f w)).
Proof.
  intros Hf Hg w. destruct (Hf w) as [<- <-]. apply Hg.
Qed.

Lemma log_others sid f w :
  leaves_alone sid f →
  ∃ w', modify f w = (Return tt, w') ∧
        appends sid w w' [] ∧
        World._current_session_id w' = World._current_session_id w.
Proof.
  intros Hf. exists (f w). split; [done|].
  destruct (Hf w) as [Hc Hl]. by split.
Qed.

Lemma notify_among_log others
    (l : list (gmap string (option string) * Payload)) i w sid :
  (∀ i, leaves_alone sid (others i)) →
  World._current_session_id w = Some sid → sid ≠ "" →
  ∃ w' evs,
    notify_among env others i l w = (Return tt, w') ∧
    appends sid w w' evs ∧
    StepEvent.event_type <$> evs = step_event_types (length l) ∧
    Forall (λ e, StepEvent.session_id e = sid) evs ∧
    World._current_session_id w' = Some sid.
Proof.
  intros Hrely Hctx Hne. revert i w Hctx.
  induction l as [|n l IH]; intros i w Hctx.
  - destruct (log_others sid (others i) w (Hrely i)) as (w1 & E1 & A1 & C1).
    exists w1, []. simpl. split; [done|]. split; [done|]. split; [done|].
    split; [constructor|congruence].
  - simpl. rewrite bind_unfold.
    destruct (log_others sid (others i) w (Hrely i)) as (w1 & -> & A1 & C1).
    rewrite bind_unfold.
    destruct (stream_step_log n.1 n.2 w1 sid) as (w2 & -> & A2 & _ & C2 & _);
      [congruence|done|].
    destruct (IH (S i) w2 C2) as (w3 & evs & -> & A3 & Hty & Hall & C3).
    eexists w3, _. split; [done|].
    split; [exact (appends_trans _ _ _ _ _ _ A1 (appends_trans _ _ _ _ _ _ A2 A3))|].
    rewrite app_nil_l.
    split; [by rewrite fmap_app, Hty|].
    split; [|done]. apply Forall_app. split; [by repeat constructor|done].
Qed.

Lemma run_query_among_log others query tools w sid r w' :
  (∀ i, leaves_alone sid (others i)) →
  World._current_session_id w = Some sid → sid ≠ "" →
  run_query_among env others query tools w = (r, w') →
  ∃ evs,
    appends sid w w' evs ∧
    Forall (λ e, StepEvent.session_id e = sid) evs ∧
    World._current_session_id w' = Some sid ∧
    match r with
    | Raise _ => evs = []
    | Return _ =>
        StepEvent.event_type <$> evs
        = step_event_types (length (Run.notifications (portia_run env query tools)))
    end.
Proof.
  intros Hrely Hctx Hne. unfold run_query_among. rewrite bind_unfold.
  destruct (PortiaService._get_portia_instance env (list_to_set tools) w)
    as [[i|e] w1] eqn:Hg;
    apply get_portia_instance_log in Hg as [Hsvc Hc].
  2:{ intros [= <- <-]. exists []. repeat split; [|constructor|congruence].
      unfold appends. by rewrite Hsvc. }
  unfold try_except. rewrite bind_unfold.
  destruct (notify_among_log others
              (Run.notifications (portia_run env query tools)) 0%nat w1 sid)
    as (w2 & evs & -> & A & Hty & Hall & C2); [done|congruence|done|].
  assert (appends sid w w2 evs) as A'.
  { unfold appends in *. by rewrite A, Hsvc. }
  destruct (Run.finish_with (portia_run env query tools)); simpl;
    intros [= <- <-]; by exists evs.
Qed.

(** X13: one execution attempt for a session with a non-empty identifier,
    during whose engine call the other tasks of the process leave the
    session context and the log of that session as they are (so no other
    execution attempt overlaps it), appends to the log of that session, in
    this order: [user_message] carrying the raw query (not the prompt built
    from it), [session_started], then for every step the engine reports a
    [step_update] followed by a [step_completed], and last
    [session_completed] or [session_failed] according to the result.  When
    tool validation raises, only the first two events are appended.  Every
    event carries the session identifier. *)
Theorem driver_event_order_among others w sid query query_type repo_name :
  sid ≠ "" →
  (∀ i, leaves_alone sid (others i)) →
  let res :=
    run_query_with_session_among env others sid query query_type repo_name w in
  let steps :=
    step_event_types
      (length (Run.notifications
                 (portia_run env (modified_query query_type query repo_name)
                    (tool_map env query_type)))) in
  ∃ evs,
    appends sid w res.2 evs ∧
    Forall (λ e, StepEvent.session_id e = sid) evs ∧
    evs !! 0%nat
    = Some (StepEvent.mk sid (utcnow env (World.clock_reads w)) "user_message"
              None (Some "User") None "completed" (Some query) None) ∧
    StepEvent.event_type <$> evs
    = match res.1 with
      | Return (QuerySuccess _ _) =>
          ["user_message"; "session_started"] ++ steps ++ ["session_completed"]
      | Return (QueryFailure _ _) =>
          ["user_message"; "session_started"] ++ steps ++ ["session_failed"]
      | Raise _ => ["user_message"; "session_started"]
      end.
Proof.
  intros Hne Hrely res steps. subst steps.
  destruct res as [r w'] eqn:Hres. subst res. simpl.
  revert Hres. unfold run_query_with_session_among.
  log_step sid. log_step sid. log_step sid. log_step sid. log_step sid.
  unfold PortiaService.set_current_session_id, modify.
  rewrite bind_unfold. cbv beta iota zeta.
  unfold try_finally. rewrite bind_unfold.
  match goal with
  | |- context [run_query_among env others ?p ?ts ?w0] =>
      destruct (run_query_among env others p ts w0) as [[res|e] w2] eqn:Hq;
      apply (run_query_among_log others p ts w0 sid) in Hq
        as (evs & Aq & Hall & Cq & Hty); [| exact Hrely | reflexivity | exact Hne
                                          | | exact Hrely | reflexivity | exact Hne]
  end;
  change (appends sid (World.set_current ?c ?x) ?y ?l) with (appends sid x y l)
    in Aq.
  - destruct res as [fo t|msg t];
      log_step sid; log_step sid; log_step sid;
      intros [= <- <-];
      (eexists; split;
       [change (appends sid ?x (World.set_current ?c ?y) ?l)
          with (appends sid x y l); chain_appends|]);
      (split; [repeat (apply Forall_app; split); try done;
               by repeat constructor|]);
      (split; [reflexivity|]);
      rewrite !fmap_app; simpl; rewrite Hty; reflexivity.
  - intros [= <- <-]. subst evs.
    eexists. split;
      [change (appends sid ?x (World.set_current ?c ?y) ?l)
         with (appends sid x y l); chain_appends|].
    split; [repeat (apply Forall_app; split); try done;
            by repeat constructor|].
    split; reflexivity.
Qed.
(** X14: the background task never raises past its boundary: for every
    state, whether or not the session exists and whatever the engine and the
    tool validation do, [_execute_session] returns, and the session context
    is the empty string afterwards. *)
Theorem execute_session_never_raises w sid query query_type repo_name :
  ∃ w',
    Api._execute_session env sid query query_type repo_name w = (Return tt, w') ∧
    World._current_session_id w' = Some "".
Proof.
  unfold Api._execute_session, try_except. rewrite bind_unfold.
  destruct (PortiaService.run_query_with_session env sid query query_type
              repo_name w) as [r w1] eqn:Hr.
  apply run_query_with_session_cases in Hr
    as (Hctx & now1 & now2 &
        [(fo & t & prompt & -> & _)|[(msg & t & -> & _)|(inv & av & -> & _)]]).
  - by exists w1.
  - by exists w1.
  - eexists. split; [reflexivity|]. exact Hctx.
Qed.


End driver_extras.


(* ===================================================================== *)
(** * Further properties of the endpoints *)
(* ===================================================================== *)

Section api_extras.
Context (env : Env).
Implicit Types (w : World.t).

(** X15: every endpoint that takes a session identifier answers an
    unknown identifier with the same [404] and leaves the process state
    untouched: continue, get status, open stream, get events and delete. *)
Theorem unknown_session_is_not_found w sid request limit :
  sessions_of w !! sid = None →
  Api.add_message_to_session env sid request w = (Raise (not_found sid), w) ∧
  Api.get_session_status sid w = (Raise (not_found sid), w) ∧
  Api.stream_session_events sid w = (Raise (not_found sid), w) ∧
  Api.get_session_events sid limit w = (Raise (not_found sid), w) ∧
  Api.delete_session sid w = (Raise (not_found sid), w).
Proof.
  intros Hnone. unfold sessions_of in Hnone.
  unfold Api.add_message_to_session, Api.get_session_status,
    Api.stream_session_events, Api.get_session_events, Api.delete_session.
  rewrite !bind_unfold. unfold svc_get_session, gets, SessionService.get_session.
  rewrite Hnone. done.
Qed.

(** X16: continuing a session.  A session whose status is [running] is
    refused with [409] and nothing changes.  Any other existing session, a
    [pending] one whose task has not started included, is accepted: its
    status becomes [pending], every other field of the record is kept, one
    execution task is added to the queue, and the response carries the stored
    identifier and creation time. *)
Theorem add_message_to_session_outcomes w sid request s :
  sessions_of w !! sid = Some s →
  let r := Api.add_message_to_session env sid request w in
  (SessionStatus.status s = "running" →
     r = (Raise (HTTPException 409
                   (DetailText ("Session " +:+ sid +:+ " is still running"))), w)) ∧
  (SessionStatus.status s ≠ "running" →
     ∃ w',
       r = (Return (SessionResponse.mk (SessionStatus.session_id s) "pending"
                      (SessionStatus.created_at s)
                      (Api.stream_url (SessionStatus.session_id s))), w') ∧
       sessions_of w' = <[sid := SessionStatus.set_status "pending" s]> (sessions_of w) ∧
       World.tasks w'
       = World.tasks w ++
         [ExecuteSession sid (SessionCreateRequest.query request)
            (SessionCreateRequest.query_type request)
            (SessionCreateRequest.repo_name request)] ∧
       World.heap w' = World.heap w ∧
       SessionService._session_events (World.session_service w')
       = SessionService._session_events (World.session_service w) ∧
       SessionService._session_connections (World.session_service w')
       = SessionService._session_connections (World.session_service w)).
Proof.
  intros Hs r. subst r. unfold sessions_of in Hs.
  unfold Api.add_message_to_session. rewrite bind_unfold.
  unfold svc_get_session, gets, SessionService.get_session. rewrite Hs.
  split.
  - intros ->. done.
  - intros Hne.
    destruct (String.eqb_spec (SessionStatus.status s) "running"); [done|].
    eexists. split; [reflexivity|]. simpl.
    unfold sessions_of, SessionService.update_session_status. simpl.
    rewrite Hs. simpl. done.
Qed.

(** X17: deleting an existing session always answers with the success
    message.  While a subscriber is registered nothing is deleted and the
    state is unchanged; without subscribers the session and its log are
    removed, and the status endpoint then answers [404]. *)
Theorem delete_session_outcomes w sid s :
  sessions_of w !! sid = Some s →
  ∃ w',
    Api.delete_session sid w
    = (Return ("Session " +:+ sid +:+ " deleted successfully"), w') ∧
    (SessionService.connections_of (World.session_service w) sid ≠ ∅ → w' = w) ∧
    (SessionService.connections_of (World.session_service w) sid = ∅ →
       sessions_of w' !! sid = None ∧
       SessionService._session_events (World.session_service w') !! sid = None ∧
       Api.get_session_status sid w' = (Raise (not_found sid), w')).
Proof.
  intros Hs. unfold sessions_of in Hs.
  unfold Api.delete_session. rewrite bind_unfold.
  unfold svc_get_session, gets, SessionService.get_session. rewrite Hs.
  eexists. split; [reflexivity|]. simpl.
  unfold SessionService.cleanup_session. split.
  - intros Hsub. rewrite decide_False by done. by destruct w.
  - intros Hnone. rewrite decide_True by done.
    unfold sessions_of, Api.get_session_status. rewrite bind_unfold. simpl.
    unfold SessionService.get_session. simpl.
    rewrite !lookup_delete_eq. done.
Qed.

(** X18: a created session can be looked up at once: the status endpoint
    called with the identifier of the response returns the pending session
    with the creation time of the response and every other field null, the
    stream endpoint accepts the identifier, and the stream URL of the
    response is built from it. *)
Theorem create_then_get_status w request :
  ∃ resp w1,
    Api.create_session env request w = (Return resp, w1) ∧
    Api.get_session_status (SessionResponse.session_id resp) w1
    = (Return (SessionStatus.mk (SessionResponse.session_id resp) "pending"
                 (SessionResponse.created_at resp) None None None None None),
       w1) ∧
    Api.stream_session_events (SessionResponse.session_id resp) w1
    = (Return Created, w1) ∧
    SessionResponse.status resp = "pending" ∧
    SessionResponse.stream_url resp
    = "/sessions/" +:+ SessionResponse.session_id resp +:+ "/stream".
Proof.
  do 2 eexists. split; [reflexivity|]. simpl.
  unfold Api.get_session_status, Api.stream_session_events.
  rewrite !bind_unfold.
  unfold svc_get_session, gets, SessionService.get_session. simpl.
  rewrite lookup_insert_eq. done.
Qed.

(** X19: the events endpoint of an existing session returns the slice of
    the log that [get_session_events] selects together with its length as
    [total_events], and does not change the state; the slice is never longer
    than the log and, for a positive limit, never longer than the limit. *)
Theorem get_session_events_endpoint w sid s limit :
  sessions_of w !! sid = Some s →
  let evs := SessionService.get_session_events (World.session_service w) sid limit in
  Api.get_session_events sid limit w
  = (Return (sid, evs, Z.of_nat (length evs)), w) ∧
  (0 < limit → Z.of_nat (length evs) ≤ limit) ∧
  (length evs ≤ length (SessionService.events_of (World.session_service w) sid))%nat.
Proof.
  intros Hs evs. unfold sessions_of in Hs.
  split.
  - unfold Api.get_session_events. rewrite bind_unfold.
    unfold svc_get_session, gets, SessionService.get_session. by rewrite Hs.
  - subst evs. unfold SessionService.get_session_events.
    destruct (SessionService.events_of (World.session_service w) sid)
      as [|e l] eqn:He; [simpl; split; lia|].
    unfold SessionService.last_slice.
    destruct (- limit <? 0) eqn:Hl; rewrite length_drop; split; lia.
Qed.
End api_extras.

(* ===================================================================== *)
(** * Further properties of the stream generator *)
(* ===================================================================== *)

Section stream_extras.
Context (env : Env) (sid : string).
Implicit Types (w : World.t).

Lemma finish_stream_world q w :
  Api.finish_stream sid q w
  = (Return (None, Finished),
     World.set_session_service
       (SessionService.remove_connection (World.session_service w) sid q) w).
Proof. reflexivity. Qed.

Lemma finish_stream_world' q w :
  Api.anext env sid true (AtLive q) w
  = (Return (None, Finished),
     World.set_session_service
       (SessionService.remove_connection (World.session_service w) sid q) w).
Proof. reflexivity. Qed.

(** X20: when the peer has disconnected, the next resumption of a
    generator in its live loop unregisters its queue and ends the stream,
    changing nothing else.  If that queue was the only subscriber, the
    registry entry of the session disappears, so that a following delete
    removes the session and its log. *)
Theorem disconnect_unregisters_then_delete_removes w q s :
  sessions_of w !! sid = Some s →
  ∃ w1,
    Api.anext env sid true (AtLive q) w = (Return (None, Finished), w1) ∧
    SessionService.connections_of (World.session_service w1) sid
    = SessionService.connections_of (World.session_service w) sid ∖ {[q]} ∧
    World.heap w1 = World.heap w ∧
    sessions_of w1 = sessions_of w ∧
    SessionService._session_events (World.session_service w1)
    = SessionService._session_events (World.session_service w) ∧
    (SessionService.connections_of (World.session_service w) sid ⊆ {[q]} →
       SessionService._session_connections (World.session_service w1) !! sid
       = None ∧
       ∃ w2,
         Api.delete_session sid w1
         = (Return ("Session " +:+ sid +:+ " deleted successfully"), w2) ∧
         sessions_of w2 !! sid = None ∧
         SessionService._session_events (World.session_service w2) !! sid = None).
Proof.
  intros Hs. rewrite finish_stream_world'.
  set (svc1 := SessionService.remove_connection (World.session_service w) sid q).
  assert (SessionService.connections_of svc1 sid
          = SessionService.connections_of (World.session_service w) sid ∖ {[q]})
    as Hc1 by (unfold svc1; by rewrite connections_of_remove, decide_True).
  eexists. split; [reflexivity|]. simpl.
  split; [exact Hc1|]. split; [done|]. split; [done|]. split; [done|].
  intros Hsub.
  assert (SessionService.connections_of (World.session_service w) sid ∖ {[q]}
          = ∅) as Hempty by set_solver.
  split.
  - unfold svc1, SessionService.remove_connection. simpl.
    rewrite decide_True by done. apply lookup_delete_eq.
  - unfold Api.delete_session. rewrite bind_unfold.
    unfold svc_get_session, gets, SessionService.get_session. simpl.
    unfold sessions_of in Hs.
    change (SessionService._sessions svc1)
      with (SessionService._sessions (World.session_service w)).
    rewrite Hs.
    eexists. split; [reflexivity|]. simpl.
    unfold SessionService.cleanup_session.
    rewrite decide_True by (by rewrite Hc1).
    unfold sessions_of. simpl. by rewrite !lookup_delete_eq.
Qed.

Lemma live_loop_frame q d w :
  let w' := (Api.live_loop env sid q d w).2 in
  sessions_of w' = sessions_of w ∧
  SessionService._session_events (World.session_service w')
  = SessionService._session_events (World.session_service w) ∧
  (∀ sid', sid' ≠ sid →
     SessionService.connections_of (World.session_service w') sid'
     = SessionService.connections_of (World.session_service w) sid') ∧
  World.tasks w' = World.tasks w ∧
  World._current_session_id w' = World._current_session_id w.
Proof.
  unfold Api.live_loop. destruct d.
  - rewrite finish_stream_world. simpl. repeat split.
    intros sid' Hne. by rewrite connections_of_remove, decide_False.
  - rewrite bind_unfold. simpl.
    destruct (World.heap w !! q) as [qu|].
    + destruct (Queue.items qu); rewrite bind_unfold; simpl; repeat split.
    + rewrite finish_stream_world. simpl. repeat split.
      intros sid' Hne. by rewrite connections_of_remove, decide_False.
Qed.

Lemma anext_frame d g w :
  let w' := (Api.anext env sid d g w).2 in
  sessions_of w' = sessions_of w ∧
  SessionService._session_events (World.session_service w')
  = SessionService._session_events (World.session_service w) ∧
  (∀ sid', sid' ≠ sid →
     SessionService.connections_of (World.session_service w') sid'
     = SessionService.connections_of (World.session_service w) sid') ∧
  World.tasks w' = World.tasks w ∧
  World._current_session_id w' = World._current_session_id w.
Proof.
  destruct g as [|q|q [|e l]|q|].
  - simpl. repeat split. intros sid' Hne.
    unfold SessionService.connections_of. simpl. by rewrite lookup_insert_ne.
  - change (Api.anext env sid d (AtConnected q) w)
      with (Api.replay_loop env sid q
              (SessionService.get_session_events (World.session_service w) sid 20)
              d w).
    destruct (SessionService.get_session_events _ _ _) as [|e l].
    + apply live_loop_frame.
    + simpl. repeat split.
  - apply live_loop_frame.
  - simpl. repeat split.
  - apply live_loop_frame.
  - simpl. repeat split.
Qed.

(** X21: consuming a stream never writes to the shared store: however
    many messages a consumer asks for and whenever it disconnects, the
    session records, every event log, the subscriber sets of the other
    sessions, the task queue and the session context stay as they were. *)
Theorem stream_consumption_keeps_store (ds : list bool) :
  ∀ g w,
  let w' := (run_stream env sid g (Next <$> ds) w).2 in
  sessions_of w' = sessions_of w ∧
  SessionService._session_events (World.session_service w')
  = SessionService._session_events (World.session_service w) ∧
  (∀ sid', sid' ≠ sid →
     SessionService.connections_of (World.session_service w') sid'
     = SessionService.connections_of (World.session_service w) sid') ∧
  World.tasks w' = World.tasks w ∧
  World._current_session_id w' = World._current_session_id w.
Proof.
  induction ds as [|d ds IH]; intros g w; [by repeat split|].
  cbn [fmap list_fmap run_stream].
  pose proof (anext_frame d g w) as Hstep. cbv zeta in Hstep.
  destruct (Api.anext env sid d g w) as [[[[m|] g']|ex] w1]; simpl in Hstep.
  - pose proof (IH g' w1) as IH'. cbv zeta in IH'.
    change (list_fmap bool action Next ds) with (Next <$> ds).
    destruct (run_stream env sid g' (Next <$> ds) w1) as [[ms g''] w''].
    simpl in *. destruct Hstep as (S1 & S2 & S3 & S4 & S5).
    destruct IH' as (I1 & I2 & I3 & I4 & I5).
    repeat split; try congruence.
    intros sid' Hne. by rewrite I3, S3.
  - pose proof (IH g' w1) as IH'. cbv zeta in IH'.
    change (list_fmap bool action Next ds) with (Next <$> ds).
    destruct Hstep as (S1 & S2 & S3 & S4 & S5).
    destruct IH' as (I1 & I2 & I3 & I4 & I5).
    repeat split; try congruence.
    intros sid' Hne. by rewrite I3, S3.
  - simpl. exact Hstep.
Qed.

(** X22: a stream that is opened and then never read.  Opening registers
    a new, empty queue of capacity 100 for the session.  Of the events
    broadcast to the session afterwards the queue takes the first 100; the
    subscriber is still registered after at most 100 broadcasts and is
    removed from the registry by the 101st. *)
Theorem unread_stream_dropped_after_100 w d (evs : list StepEvent.t) :
  registered_queues_live w →
  let q := fresh (dom (World.heap w)) in
  let w1 := (Api.anext env sid d Created w).2 in
  let r :=
    broadcast_all (World.session_service w1, World.heap w1) (pair sid <$> evs) in
  (q ∉ SessionService.connections_of (World.session_service w) sid) ∧
  q ∈ SessionService.connections_of (World.session_service w1) sid ∧
  World.heap w1 !! q = Some (Queue.new 100) ∧
  (∃ qu', r.2 !! q = Some qu' ∧ Queue.items qu' = take 100 evs) ∧
  (q ∈ SessionService.connections_of r.1 sid ↔ (length evs ≤ 100)%nat).
Proof.
  intros Hwf q w1 r.
  assert (q ∉ SessionService.connections_of (World.session_service w) sid)
    as Hnew.
  { intros Hin. apply Hwf in Hin. apply elem_of_dom in Hin.
    by apply is_fresh in Hin. }
  assert (World.heap w1 !! q = Some (Queue.new 100)) as Hq
    by apply lookup_insert_eq.
  assert (q ∈ SessionService.connections_of (World.session_service w1) sid)
    as Hin.
  { subst w1. simpl. unfold SessionService.connections_of at 1. simpl.
    rewrite lookup_insert_eq. simpl. set_solver. }
  split; [done|]. split; [done|]. split; [done|].
  apply (unread_queue_fills evs (World.session_service w1) (World.heap w1)
           sid q (Queue.new 100) 100); try done; simpl; lia.
Qed.
End stream_extras.

(** ** Instances of the further properties *)

Lemma sessions_stored_under_own_id_witness :
  keys_match (apply_calls (SessionService.init, ∅) sample_calls).1.
Proof.
  apply (sessions_stored_under_own_id (SessionService.init, ∅) sample_calls).
  intros k s Hl. simpl in Hl. rewrite lookup_empty in Hl. discriminate Hl.
Defined.

Lemma registry_has_no_empty_set_witness :
  no_empty_subscriber_set (apply_calls (SessionService.init, ∅) sample_calls).1.
Proof.
  apply (registry_has_no_empty_set (SessionService.init, ∅) sample_calls).
  intros k S Hl. simpl in Hl. rewrite lookup_empty in Hl. discriminate Hl.
Defined.

Lemma add_then_remove_connection_witness :
  SessionService.remove_connection
    (SessionService.add_connection (service_with pending_session) "s1" 0%nat)
    "s1" 0%nat
  = service_with pending_session.
Proof.
  apply (add_then_remove_connection (service_with pending_session) "s1" 0%nat).
  - intros k S Hl. simpl in Hl. rewrite lookup_empty in Hl. discriminate Hl.
  - vm_compute. discriminate.
Defined.

Lemma broadcast_without_subscribers_witness :
  SessionService.events_of
    (SessionService.broadcast_event (service_with pending_session) ∅ "s1"
       (sample_event "s1" "user_message")).1 "s1"
  = [sample_event "s1" "user_message"].
Proof.
  apply (broadcast_without_subscribers (service_with pending_session) ∅ "s1"
           (sample_event "s1" "user_message")).
  - vm_compute. reflexivity.
  - vm_compute. reflexivity.
Defined.

Lemma unread_subscriber_dropped_when_full_witness :
  let r := broadcast_all (two_subscribers, two_queues)
             (pair "s1" <$> numbered_events "s1" 101) in
  (∃ qu', r.2 !! 1%nat = Some qu' ∧
          Queue.items qu'
          = take 100 (Queue.items (Queue.new 100) ++ numbered_events "s1" 101)) ∧
  (1%nat ∈ SessionService.connections_of r.1 "s1" ↔
   (length (Queue.items (Queue.new 100) ++ numbered_events "s1" 101) ≤ 100)%nat).
Proof.
  apply (unread_subscriber_dropped_when_full (numbered_events "s1" 101)
           two_subscribers two_queues "s1" 1%nat (Queue.new 100) 100).
  - vm_compute. reflexivity.
  - reflexivity.
  - reflexivity.
  - lia.
  - simpl. lia.
  - vm_compute. reflexivity.
Defined.

Lemma update_sequence_last_status_wins_witness :
  ∃ s',
    SessionService._sessions
      (apply_updates (service_with completed_session)
         [status_call "pending" "2025-01-01T00:01:00+00:00";
          status_call "running" "2025-01-01T00:01:01+00:00"])
      !! "s1" = Some s' ∧
    SessionStatus.status s' = "running".
Proof.
  destruct (update_sequence_last_status_wins
              [status_call "pending" "2025-01-01T00:01:00+00:00";
               status_call "running" "2025-01-01T00:01:01+00:00"]
              (service_with completed_session) "s1" completed_session)
    as (s' & Hs' & _ & _ & Hst).
  - vm_compute. reflexivity.
  - exists s'. split; [exact Hs'|]. rewrite Hst. vm_compute. reflexivity.
Defined.

Lemma stream_step_broadcasts_pair_witness :
  ∃ w',
    PortiaService.stream_step env_no_final_output ∅ "4"
      (World.set_current (Some "s1") (world_with_log 3))
    = (Return tt, w') ∧
    World._current_session_id w' = Some "s1".
Proof.
  destruct (stream_step_broadcasts_pair env_no_final_output ∅ "4"
              (World.set_current (Some "s1") (world_with_log 3)) "s1")
    as (w' & Hrun & _ & _ & Hctx & _).
  - reflexivity.
  - discriminate.
  - exists w'. split; [exact Hrun|exact Hctx].
Defined.

Lemma driver_event_order_among_witness :
  let res :=
    run_query_with_session_among env_one_step other_sessions_busy
      "s1" "2+2?" chat None two_sessions in
  ∃ evs,
    appends "s1" two_sessions res.2 evs ∧
    StepEvent.event_type <$> evs
    = ["user_message"; "session_started"; "step_update"; "step_completed";
       "session_completed"].
Proof.
  intros res.
  assert ("s1" ≠ "") as Hne by discriminate.
  assert (∀ i, leaves_alone "s1" (other_sessions_busy i)) as Hrely.
  { intros i.
    apply (leaves_alone_compose "s1"
             (λ w, (svc_broadcast_event "s2"
                      (sample_event "s2" "user_message") w).2)
             (λ w, (svc_create_session env_no_final_output "hello" chat w).2)).
    - apply leaves_alone_broadcast. discriminate.
    - apply leaves_alone_create. }
  destruct (driver_event_order_among env_one_step other_sessions_busy
              two_sessions "s1" "2+2?" chat None Hne Hrely)
    as (evs & Happ & _ & _ & Hty).
  exists evs. split; [exact Happ|]. exact Hty.
Defined.


Lemma unknown_session_is_not_found_witness :
  Api.delete_session "s1" World.init = (Raise (not_found "s1"), World.init).
Proof.
  apply (unknown_session_is_not_found env_no_final_output World.init "s1"
           chat_request 50).
  vm_compute. reflexivity.
Defined.

Lemma add_message_to_session_outcomes_witness :
  ∃ w',
    Api.add_message_to_session env_no_final_output "s1" chat_request
      (world_with_log 3)
    = (Return (SessionResponse.mk "s1" "pending"
                 (SessionStatus.created_at pending_session)
                 (Api.stream_url "s1")), w') ∧
    World.tasks w' = [ExecuteSession "s1" "2+2?" chat None].
Proof.
  destruct (add_message_to_session_outcomes env_no_final_output
              (world_with_log 3) "s1" chat_request pending_session)
    as (_ & Hok).
  - vm_compute. reflexivity.
  - destruct Hok as (w' & Hrun & _ & Htasks & _); [vm_compute; discriminate|].
    exists w'. split; [exact Hrun|exact Htasks].
Defined.

Lemma delete_session_outcomes_witness :
  ∃ w',
    Api.delete_session "s1" (world_with_log 3)
    = (Return ("Session " +:+ "s1" +:+ " deleted successfully"), w') ∧
    sessions_of w' !! "s1" = None.
Proof.
  destruct (delete_session_outcomes (world_with_log 3) "s1" pending_session)
    as (w' & Hrun & _ & Hgone).
  - vm_compute. reflexivity.
  - destruct Hgone as (Hs & _); [vm_compute; reflexivity|].
    exists w'. split; [exact Hrun|exact Hs].
Defined.

Lemma get_session_events_endpoint_witness :
  Api.get_session_events "s1" 50 (world_with_log 3)
  = (Return ("s1",
             SessionService.get_session_events
               (World.session_service (world_with_log 3)) "s1" 50,
             Z.of_nat
               (length (SessionService.get_session_events
                          (World.session_service (world_with_log 3)) "s1" 50))),
     world_with_log 3).
Proof.
  apply (get_session_events_endpoint (world_with_log 3) "s1" pending_session 50).
  vm_compute. reflexivity.
Defined.

Lemma disconnect_unregisters_then_delete_removes_witness :
  ∃ w1,
    Api.anext env_no_final_output "s1" true (AtLive 0%nat) (world_with_log 3)
    = (Return (None, Finished), w1) ∧
    World.heap w1 = World.heap (world_with_log 3).
Proof.
  destruct (disconnect_unregisters_then_delete_removes env_no_final_output "s1"
              (world_with_log 3) 0%nat pending_session)
    as (w1 & Hrun & _ & Hheap & _).
  - vm_compute. reflexivity.
  - exists w1. split; [exact Hrun|exact Hheap].
Defined.

Lemma unread_stream_dropped_after_100_witness :
  World.heap (Api.anext env_no_final_output "s1" false Created (world_with_log 3)).2
    !! fresh (dom (World.heap (world_with_log 3)))
  = Some (Queue.new 100).
Proof.
  assert (registered_queues_live (world_with_log 3)) as Hwf.
  { intros sid q Hq. vm_compute in Hq. discriminate Hq. }
  destruct (unread_stream_dropped_after_100 env_no_final_output "s1"
              (world_with_log 3) false (numbered_events "s1" 101) Hwf)
    as (_ & _ & Hq & _).
  exact Hq.
Defined.
